(** * prisma-learning: the HTTP API server and the seed script

    A shallow embedding of [src/index.js] (the Express handlers) and of
    [prisma/seed.js] (the seed script).  The handlers and the script are
    written against an interface of the query layer (the Prisma client), so
    that what they do is stated for every query layer, and an in-memory store
    implements that interface for the statements about database contents.

    Numbers are the doubles of the engine.  A finite double is given by its
    exact value, a decimal fraction, and every operation yields the double
    nearest to its exact result.  Strings are sequences of bytes, the UTF-8
    form of the text.  What the language leaves to the engine (the dates
    outside the date-only format) and what the query layer leaves to the
    database (matching text without regard to case) are interfaces. *)

From Stdlib Require Import ZArith List String Ascii Bool Lia FinFun Sorted
  Permutation.
Import ListNotations.
Local Open Scope Z_scope.

(* ===================================================================== *)
(** ** The JavaScript values the handlers compute with *)
(* ===================================================================== *)

Module Js.

(** A number: the finite value [m / 10^k], NaN, or an infinity.  Negative
    zero is not kept apart from zero: a query argument and the JSON of an
    answer do not tell them apart. *)
Inductive jsnum : Type :=
| JNum (m : Z) (k : nat)
| JNaN
| JInf (neg : bool).

Abbreviation JInt z := (JNum z 0).

Definition pow10 (k : nat) : Z := 10 ^ Z.of_nat k.

(** The integer a number denotes, when it denotes one. *)
Definition as_int (x : jsnum) : option Z :=
  match x with
  | JNum m k => if m mod pow10 k =? 0 then Some (m / pow10 k) else None
  | _ => None
  end.

(** The one way to write a finite value: with the least power of ten, so
    that an integer value is always written [JInt z]. *)
Fixpoint lowest (m : Z) (k : nat) : jsnum :=
  match k with
  | O => JNum m 0
  | S k' => if m mod 10 =? 0 then lowest (m / 10) k' else JNum m k
  end.

Definition norm (x : jsnum) : jsnum :=
  match x with
  | JNum m k => lowest m k
  | _ => x
  end.

Definition is_zero (x : jsnum) : bool :=
  match x with JNum m _ => m =? 0 | _ => false end.

Definition is_neg (x : jsnum) : bool :=
  match x with JNum m _ => m <? 0 | JInf n => n | JNaN => false end.

Definition negated (x : jsnum) : jsnum :=
  match x with
  | JNum m k => JNum (- m) k
  | JInf n => JInf (negb n)
  | JNaN => JNaN
  end.

(** *** Rounding to a double *)

(** [b * 2^t <= a], for an exponent of either sign. *)
Definition reaches (a b t : Z) : bool :=
  if 0 <=? t then b * 2 ^ t <=? a else b <=? a * 2 ^ (- t).

(** The binade of the positive fraction [a / b]: the [t] with
    [2^t <= a / b < 2^(t+1)]. *)
Definition binade (a b : Z) : Z :=
  let t := Z.log2 a - Z.log2 b in
  if reaches a b t then t else t - 1.

(** The double nearest to the positive fraction [a / b]: a significand of
    53 bits at the exponent of the binade, no exponent below -1074, a tie
    goes to the even significand, and what reaches 2^1024 is infinite. *)
Definition nearest (a b : Z) : jsnum :=
  let e := Z.max (binade a b - 52) (-1074) in
  let A := if 0 <? e then a else a * 2 ^ (- e) in
  let B := if 0 <? e then b * 2 ^ e else b in
  let q := A / B in
  let r := A mod B in
  let q' := if (B <? 2 * r) || ((2 * r =? B) && Z.odd q) then q + 1 else q in
  if 0 <? e then
    if 2 ^ 1024 <=? q' * 2 ^ e then JInf false else JInt (q' * 2 ^ e)
  else lowest (q' * 5 ^ (- e)) (Z.to_nat (- e)).

(** The double nearest to the fraction [n / d], for a positive [d]. *)
Definition double_of (n d : Z) : jsnum :=
  if n =? 0 then JInt 0
  else if 0 <? n then nearest n d
  else negated (nearest (- n) d).

(** The number that an integer of the query layer becomes. *)
Definition of_Z (z : Z) : jsnum := double_of z 1.

(** [x - y] *)
Definition jsub (x y : jsnum) : jsnum :=
  match x, y with
  | JNaN, _ | _, JNaN => JNaN
  | JNum m1 k1, JNum m2 k2 =>
      double_of (m1 * pow10 k2 - m2 * pow10 k1) (pow10 (k1 + k2))
  | JInf a, JInf b => if Bool.eqb a b then JNaN else JInf a
  | JInf a, JNum _ _ => JInf a
  | JNum _ _, JInf b => JInf (negb b)
  end.

(** [x * y] *)
Definition jmul (x y : jsnum) : jsnum :=
  match x, y with
  | JNaN, _ | _, JNaN => JNaN
  | JNum m1 k1, JNum m2 k2 => double_of (m1 * m2) (pow10 (k1 + k2))
  | JInf a, other | other, JInf a =>
      if is_zero other then JNaN else JInf (xorb a (is_neg other))
  end.

(** [x / y] *)
Definition jdiv (x y : jsnum) : jsnum :=
  match x, y with
  | JNaN, _ | _, JNaN => JNaN
  | JNum m1 k1, JNum m2 k2 =>
      if m2 =? 0 then
        if m1 =? 0 then JNaN else JInf (m1 <? 0)
      else if 0 <? m2 then double_of (m1 * pow10 k2) (m2 * pow10 k1)
      else double_of (- (m1 * pow10 k2)) (- (m2 * pow10 k1))
  | JNum _ _, JInf _ => JInt 0
  | JInf a, JNum m2 _ => JInf (xorb a (m2 <? 0))
  | JInf _, JInf _ => JNaN
  end.

(** [Math.ceil(x)] *)
Definition Math_ceil (x : jsnum) : jsnum :=
  match x with
  | JNum m k => JInt (- ((- m) / pow10 k))
  | _ => x
  end.

(** [Math.ceil(total / take)] for the count [total] of the query layer. *)
Definition ceil_div (total : Z) (take : jsnum) : jsnum :=
  Math_ceil (jdiv (of_Z total) take).

(** *** Characters *)

Definition char_code (c : ascii) : Z := Z.of_nat (nat_of_ascii c).

(** White space of one byte: tab, line feed, vertical tab, form feed,
    carriage return and space. *)
Definition is_ws (c : ascii) : bool :=
  let n := char_code c in ((9 <=? n) && (n <=? 13)) || (n =? 32).

(** White space of two bytes: U+00A0. *)
Definition is_ws2 (c1 c2 : ascii) : bool :=
  (char_code c1 =? 194) && (char_code c2 =? 160).

(** White space of three bytes: U+1680, U+2000 to U+200A, U+2028, U+2029,
    U+202F, U+205F, U+3000 and U+FEFF. *)
Definition is_ws3 (c1 c2 c3 : ascii) : bool :=
  let a := char_code c1 in
  let b := char_code c2 in
  let c := char_code c3 in
  ((a =? 225) && (b =? 154) && (c =? 128)) ||
  ((a =? 226) && (b =? 128) &&
   (((128 <=? c) && (c <=? 138)) || (c =? 168) || (c =? 169) || (c =? 175))) ||
  ((a =? 226) && (b =? 129) && (c =? 159)) ||
  ((a =? 227) && (b =? 128) && (c =? 128)) ||
  ((a =? 239) && (b =? 187) && (c =? 191)).

Definition digit_val (c : ascii) : option Z :=
  let n := char_code c in
  if (48 <=? n) && (n <=? 57) then Some (n - 48)
  else if (97 <=? n) && (n <=? 102) then Some (n - 87)
  else if (65 <=? n) && (n <=? 70) then Some (n - 55)
  else None.

Definition digit_in (radix : Z) (c : ascii) : option Z :=
  match digit_val c with
  | Some d => if d <? radix then Some d else None
  | None => None
  end.

(** The longest prefix of digits in the radix, and what follows it. *)
Fixpoint read_digits (radix : Z) (s : string) : list Z * string :=
  match s with
  | String c s' =>
      match digit_in radix c with
      | Some d => let '(ds, rest) := read_digits radix s' in (d :: ds, rest)
      | None => ([], s)
      end
  | EmptyString => ([], s)
  end.

Definition digits_value (radix : Z) (ds : list Z) : Z :=
  fold_left (fun acc d => acc * radix + d) ds 0.

(** The string without the white space it starts with. *)
Fixpoint trim_start (s : string) : string :=
  match s with
  | String c1 s1 =>
      if is_ws c1 then trim_start s1
      else
        match s1 with
        | String c2 s2 =>
            if is_ws2 c1 c2 then trim_start s2
            else
              match s2 with
              | String c3 s3 => if is_ws3 c1 c2 c3 then trim_start s3 else s
              | EmptyString => s
              end
        | EmptyString => s
        end
  | EmptyString => s
  end.

(** The string without the white space it ends with. *)
Fixpoint trim_end (s : string) : string :=
  match s with
  | String c s' =>
      match trim_start s with
      | EmptyString => EmptyString
      | _ => String c (trim_end s')
      end
  | EmptyString => EmptyString
  end.

Definition trim (s : string) : string := trim_end (trim_start s).

(** A leading sign, and what follows it. *)
Definition read_sign (s : string) : bool * string :=
  match s with
  | String "-" s' => (true, s')
  | String "+" s' => (false, s')
  | _ => (false, s)
  end.

Definition signed (neg : bool) (z : Z) : Z := if neg then - z else z.

(** [parseInt(s)], no radix given: leading white space is skipped, a sign is
    read, [0x] switches to radix 16, and the longest run of digits is the
    value; what follows the digits is ignored, and no digit at all is NaN. *)
Definition parseInt (s : string) : jsnum :=
  let '(neg, s1) := read_sign (trim_start s) in
  let '(radix, s2) :=
    match s1 with
    | String "0" (String "x" r) | String "0" (String "X" r) => (16, r)
    | _ => (10, s1)
    end in
  match read_digits radix s2 with
  | ([], _) => JNaN
  | (ds, _) => of_Z (signed neg (digits_value radix ds))
  end.

(** A literal [0x..], [0o..] or [0b..]: digits of the radix up to the end. *)
Definition radix_literal (radix : Z) (s : string) : jsnum :=
  match read_digits radix s with
  | ([], _) => JNaN
  | (ds, EmptyString) => of_Z (digits_value radix ds)
  | _ => JNaN
  end.

(** The exponent part of a decimal literal: nothing, or [e] or [E], a sign
    and at least one digit, up to the end of the string. *)
Definition read_exponent (s : string) : option Z :=
  match s with
  | EmptyString => Some 0
  | String "e" r | String "E" r =>
      let '(neg, r1) := read_sign r in
      match read_digits 10 r1 with
      | ([], _) => None
      | (ds, EmptyString) => Some (signed neg (digits_value 10 ds))
      | _ => None
      end
  | _ => None
  end.

(** A decimal literal without its sign: digits, a fraction, an exponent. *)
Definition decimal_literal (neg : bool) (s : string) : jsnum :=
  let '(ints, s1) := read_digits 10 s in
  let '(fracs, s2) :=
    match s1 with
    | String "." r => read_digits 10 r
    | _ => ([], s1)
    end in
  match ints ++ fracs with
  | [] => JNaN
  | ds =>
      match read_exponent s2 with
      | None => JNaN
      | Some e =>
          let m := signed neg (digits_value 10 ds) in
          let scale := e - Z.of_nat (List.length fracs) in
          if 0 <=? scale then double_of (m * 10 ^ scale) 1
          else double_of m (10 ^ (- scale))
      end
  end.

(** The numeric coercion of a string, as [-] and [*] apply it to their
    operands: white space is trimmed at both ends, the empty string is 0,
    and the rest has to be one numeric literal as a whole. *)
Definition toNumber (s : string) : jsnum :=
  match trim s with
  | EmptyString => JInt 0
  | String "0" (String "x" r) | String "0" (String "X" r) => radix_literal 16 r
  | String "0" (String "o" r) | String "0" (String "O" r) => radix_literal 8 r
  | String "0" (String "b" r) | String "0" (String "B" r) => radix_literal 2 r
  | t =>
      let '(neg, r) := read_sign t in
      if String.eqb r "Infinity" then JInf neg else decimal_literal neg r
  end.

(** *** Dates *)

(** [new Date(s)]: a time in milliseconds, or an invalid date. *)
Inductive jsdate : Type :=
| DateAt (ms : Z)
| InvalidDate.

(** What the engine makes of a string that is not a date of the date-only
    format: the language leaves it to the engine, which may read other
    formats and may roll a day that its month does not have over into the
    next month. *)
Class Engine : Type := {
  Date_parse_other : string -> jsdate
}.

Definition is_leap (y : Z) : bool :=
  ((y mod 4 =? 0) && negb (y mod 100 =? 0)) || (y mod 400 =? 0).

Definition days_in_month (y m : Z) : Z :=
  if m =? 2 then (if is_leap y then 29 else 28)
  else if (m =? 4) || (m =? 6) || (m =? 9) || (m =? 11) then 30
  else 31.

(** Days from 1970-01-01 to the given day of the civil calendar. *)
Definition days_from_civil (y m d : Z) : Z :=
  let y' := if m <=? 2 then y - 1 else y in
  let era := y' / 400 in
  let yoe := y' - era * 400 in
  let doy := (153 * (if 2 <? m then m - 3 else m + 9) + 2) / 5 + d - 1 in
  let doe := yoe * 365 + yoe / 4 - yoe / 100 + doy in
  era * 146097 + doe - 719468.

Definition fixed_digits (n : nat) (s : string) : option (Z * string) :=
  match read_digits 10 (substring 0 n s) with
  | (ds, EmptyString) =>
      if Nat.eqb (List.length ds) n
      then Some (digits_value 10 ds, substring n (String.length s - n) s)
      else None
  | _ => None
  end.

(** A day of the calendar in the date-only form [YYYY-MM-DD] of the
    date-time string format: UTC midnight of that day. *)
Definition date_only (s : string) : option Z :=
  match fixed_digits 4 s with
  | Some (y, String "-" s1) =>
      match fixed_digits 2 s1 with
      | Some (m, String "-" s2) =>
          match fixed_digits 2 s2 with
          | Some (d, EmptyString) =>
              if (1 <=? m) && (m <=? 12) && (1 <=? d) && (d <=? days_in_month y m)
              then Some (days_from_civil y m d * 86400000)
              else None
          | _ => None
          end
      | _ => None
      end
  | _ => None
  end.

(** [new Date(s)] *)
Definition Date_new {engine : Engine} (s : string) : jsdate :=
  match date_only s with
  | Some ms => DateAt ms
  | None => Date_parse_other s
  end.

(** *** Strings *)

(** A string in a condition: only the empty string is falsy. *)
Definition truthy (o : option string) : bool :=
  match o with
  | Some EmptyString | None => false
  | Some _ => true
  end.

End Js.

Import Js.

(* ===================================================================== *)
(** ** The data model *)
(* ===================================================================== *)

Module Schema.

(** The schema file [prisma/schema.prisma] declares the five entities and
    the junction table.  Its declarations are written here after the table
    of the data model in the spec and after the fields that the handlers and
    the seed script read and write. *)

(** Modelled from the spec: the enumeration of the roles of a user in
    [prisma/schema.prisma]. *)
Inductive Role : Type := USER | MODERATOR | ADMIN.

(** Modelled from the spec: the model [User] of [prisma/schema.prisma]; the
    email is unique. *)
Record User : Type := mkUser {
  user_id : Z;
  email : string;
  name : option string;
  age : option Z;
  role : Role;
  isActive : bool;
  user_createdAt : Z
}.

(** Modelled from the spec: the model [Profile] of [prisma/schema.prisma];
    one profile per user. *)
Record Profile : Type := mkProfile {
  profile_id : Z;
  bio : option string;
  avatar : option string;
  website : option string;
  location : option string;
  userId : Z
}.

(** Modelled from the spec: the model [Post] of [prisma/schema.prisma]; the
    author is a user. *)
Record Post : Type := mkPost {
  post_id : Z;
  title : string;
  content : option string;
  published : bool;
  views : Z;
  authorId : Z;
  createdAt : Z
}.

(** Modelled from the spec: the model [Category] of [prisma/schema.prisma]. *)
Record Category : Type := mkCategory {
  category_id : Z;
  category_name : string;
  color : option string
}.

(** Modelled from the spec: the junction model [PostCategory] of
    [prisma/schema.prisma]; the pair of its two keys is unique. *)
Record PostCategory : Type := mkPostCategory {
  postId : Z;
  categoryId : Z
}.

(** Modelled from the spec: the model [Comment] of [prisma/schema.prisma]. *)
Record Comment : Type := mkComment {
  comment_id : Z;
  comment_content : string;
  comment_authorId : Z;
  comment_postId : Z
}.

(** The models of the client: [prisma.user], [prisma.profile], ... *)
Inductive Model : Type :=
| MUser | MProfile | MPost | MCategory | MPostCategory | MComment.

Definition Role_eqb (a b : Role) : bool :=
  match a, b with
  | USER, USER | MODERATOR, MODERATOR | ADMIN, ADMIN => true
  | _, _ => false
  end.

Definition Role_of_string (s : string) : option Role :=
  if String.eqb s "USER" then Some USER
  else if String.eqb s "MODERATOR" then Some MODERATOR
  else if String.eqb s "ADMIN" then Some ADMIN
  else None.

End Schema.

Import Schema.

(* ===================================================================== *)
(** ** Calls that change a world and may throw *)
(* ===================================================================== *)

(** What is thrown: [error.code] and [error.message]. *)
Record Err : Type := mkErr {
  code : option string;
  message : string
}.

(** [new Error(msg)] *)
Definition Error (msg : string) : Err := mkErr None msg.

Definition code_is (e : Err) (c : string) : bool :=
  match code e with
  | Some c' => String.eqb c' c
  | None => false
  end.

Inductive Outcome (A : Type) : Type :=
| Ok (a : A)
| Throw (e : Err).
Arguments Ok {A} a.
Arguments Throw {A} e.

(** An awaited call: from the world before it to its outcome and the world
    after it. *)
Definition M (W A : Type) : Type := W -> Outcome A * W.

Definition ret {W A} (a : A) : M W A := fun w => (Ok a, w).

Definition throw {W A} (e : Err) : M W A := fun w => (Throw e, w).

Definition bind {W A B} (m : M W A) (k : A -> M W B) : M W B :=
  fun w =>
    match m w with
    | (Ok a, w') => k a w'
    | (Throw e, w') => (Throw e, w')
    end.

Definition try_catch {W A} (m : M W A) (h : Err -> M W A) : M W A :=
  fun w =>
    match m w with
    | (Ok a, w') => (Ok a, w')
    | (Throw e, w') => h e w'
    end.

Declare Scope js_scope.
Delimit Scope js_scope with js.
Notation "x <- m ;; k" := (bind m (fun x => k))
  (at level 61, m at next level, right associativity) : js_scope.
Notation "m ;; k" := (bind m (fun _ => k))
  (at level 61, right associativity) : js_scope.
Notation "'TRY' m 'CATCH' e => h" := (try_catch m (fun e => h))
  (at level 62, m at level 61, e name, h at level 61) : js_scope.
Local Open Scope js_scope.

(** The list without its element at a place. *)
Fixpoint remove_nth {A} (i : nat) (l : list A) : list A :=
  match l, i with
  | [], _ => []
  | _ :: l', O => l'
  | x :: l', S i' => x :: remove_nth i' l'
  end.

(* ===================================================================== *)
(** ** The query layer, as the handlers and the seed script call it *)
(* ===================================================================== *)

Module Query.

(** [{ name: { contains: s, mode: 'insensitive' } }] and the same on email. *)
Inductive UserCond : Type :=
| NameContains (s : string)
| EmailContains (s : string).

Record UserWhere : Type := mkUserWhere {
  where_role : option string;
  where_user_OR : option (list UserCond)
}.

Inductive OrderBy : Type := CreatedAtDesc.

Record UserFindMany : Type := mkUserFindMany {
  ufm_where : UserWhere;
  ufm_include_profile : bool;
  ufm_skip : jsnum;
  ufm_take : jsnum;
  ufm_orderBy : OrderBy
}.

(** A user as returned: with [include: { profile: true }] the profile field
    is there, and is null when the user has no profile. *)
Record UserOut : Type := mkUserOut {
  uo_user : User;
  uo_profile : option (option Profile)
}.

Record ProfileData : Type := mkProfileData {
  pd_bio : option string;
  pd_avatar : option string;
  pd_website : option string;
  pd_location : option string
}.

(** The data of [user.create] and of [user.update]; an absent field is
    undefined.  A profile is a nested create in the first and a nested upsert
    in the second. *)
Record UserData : Type := mkUserData {
  ud_email : option string;
  ud_name : option string;
  ud_age : option Z;
  ud_role : option Role;
  ud_profile : option ProfileData
}.

Inductive PostCond : Type :=
| TitleContains (s : string)
| ContentContains (s : string).

Record DateFilter : Type := mkDateFilter {
  df_gte : option jsdate;
  df_lte : option jsdate
}.

Record PostWhere : Type := mkPostWhere {
  where_post_OR : option (list PostCond);
  (** [categories: { some: { category: { name: { equals, insensitive } } } }] *)
  where_category : option string;
  (** [author: { name: { contains, insensitive } }] *)
  where_author : option string;
  where_published : option bool;
  (** [views: { gte }] *)
  where_views_gte : option jsnum;
  where_createdAt : option DateFilter
}.

Record PostFindMany : Type := mkPostFindMany {
  pfm_where : PostWhere;
  pfm_skip : jsnum;
  pfm_take : jsnum;
  pfm_orderBy : OrderBy
}.

(** [select: { id: true, name: true, email: true }] *)
Record AuthorSel : Type := mkAuthorSel {
  sel_id : Z;
  sel_name : option string;
  sel_email : string
}.

(** A post of the search: its author, its junction rows each with its
    category, and the count of its comments.  Under the foreign keys the
    author and the categories are always there. *)
Record PostOut : Type := mkPostOut {
  po_post : Post;
  po_author : option AuthorSel;
  po_categories : list (PostCategory * option Category);
  po_count_comments : Z
}.

(** [include: { author: true }] *)
Record PostWithAuthor : Type := mkPostWithAuthor {
  pa_post : Post;
  pa_author : option User
}.

(** [include: { author: true, categories: { include: { category: true } } }] *)
Record PostFull : Type := mkPostFull {
  pf_post : Post;
  pf_author : option User;
  pf_categories : list (PostCategory * option Category)
}.

Record PostData : Type := mkPostData {
  pd_title : string;
  pd_content : string;
  pd_published : bool;
  pd_views : Z;
  pd_authorId : Z
}.

(** The calls on the client that the server and the seed script make. *)
Class Prisma (W : Type) : Type := {
  user_findMany : UserFindMany -> M W (list UserOut);
  user_count : UserWhere -> M W Z;
  (** [user.findUnique({ where: { email } })] *)
  user_findUnique_email : option string -> M W (option User);
  (** [user.create({ data, include: { profile: true } })]; the seed script
      passes no include and uses only the user. *)
  user_create : UserData -> M W UserOut;
  (** [user.update({ where: { id }, data, include: { profile: true } })] *)
  user_update : jsnum -> UserData -> M W UserOut;
  (** [user.delete({ where: { id } })] *)
  user_delete : jsnum -> M W User;
  post_findMany : PostFindMany -> M W (list PostOut);
  post_count : PostWhere -> M W Z;
  (** [post.findUnique({ where: { id }, include: { author: true } })] *)
  post_findUnique : jsnum -> M W (option PostWithAuthor);
  (** [post.update({ where: { id }, data: { authorId }, include })] *)
  post_update_author : jsnum -> Z -> M W PostFull;
  post_create : PostData -> M W Post;
  (** [category.create({ data: { name, color } })] *)
  category_create : string -> string -> M W Category;
  (** [postCategory.create({ data: { postId, categoryId } })] *)
  postCategory_create : Z -> Z -> M W PostCategory;
  (** [comment.create({ data: { content, authorId, postId } })] *)
  comment_create : string -> Z -> Z -> M W Comment;
  (** [deleteMany()] and [count()] without arguments, on a model. *)
  deleteMany : Model -> M W Z;
  count : Model -> M W Z;
  (** [$transaction(async (tx) => body)]; the body calls the client. *)
  transaction : forall A : Type, M W A -> M W A
}.

(** The generators of the data-faking library that the seed script calls. *)
Class Faker (W : Type) : Type := {
  internet_email : M W string;
  internet_url : M W string;
  person_fullName : M W string;
  (** [faker.number.int({ min, max })] *)
  number_int : Z -> Z -> M W Z;
  lorem_sentence : M W string;
  lorem_paragraph : M W string;
  lorem_paragraphs : Z -> M W string;
  image_avatar : M W string;
  location_city : M W string;
  location_country : M W string;
  datatype_boolean : M W bool;
  helpers_arrayElement : forall A : Type, list A -> M W A;
  helpers_arrayElements : forall A : Type, list A -> Z -> M W (list A)
}.

(** Calls that are pending together, as the elements of one [Promise.all]
    are, are served in an order that the script does not fix: of [n] pending
    calls, the place of the one that is served next. *)
Class Concurrent (W : Type) : Type := {
  served_next : nat -> M W nat
}.

End Query.

Import Query.

(* ===================================================================== *)
(** ** The HTTP API server ([src/index.js]) *)
(* ===================================================================== *)

Module Api.

(** What a handler sends: [res.status(s).json(body)], the same with an
    [{ error }] body, or [res.status(s).send()]. *)
Inductive Response (A : Type) : Type :=
| Json (status : Z) (body : A)
| JsonError (status : Z) (error : string)
| Send (status : Z).
Arguments Json {A} status body.
Arguments JsonError {A} status error.
Arguments Send {A} status.

Definition status {A} (r : Response A) : Z :=
  match r with
  | Json s _ | JsonError s _ | Send s => s
  end.

Definition status_of {A} (o : Outcome (Response A)) : option Z :=
  match o with
  | Ok r => Some (status r)
  | Throw _ => None
  end.

Record Pagination : Type := mkPagination {
  page : jsnum;
  limit : jsnum;
  total : Z;
  totalPages : jsnum
}.

Record Page (A : Type) : Type := mkPage {
  data : list A;
  pagination : Pagination
}.
Arguments mkPage {A} data pagination.
Arguments data {A} p.
Arguments pagination {A} p.

Definition totalPages_of {A} (o : Outcome (Response (Page A))) : option jsnum :=
  match o with
  | Ok (Json _ pg) => Some (totalPages (pagination pg))
  | _ => None
  end.

(** A query parameter with a default: [const { page = 1 } = req.query].  The
    default is written as the string that reads as the same number under both
    coercions. *)
Definition or_default (o : option string) (d : string) : string :=
  match o with
  | Some s => s
  | None => d
  end.

(** [if (x) where.field = x] *)
Definition when_truthy (o : option string) : option string :=
  if truthy o then o else None.

(** [req.query] of [GET /api/users] *)
Record UsersQuery : Type := mkUsersQuery {
  uq_page : option string;
  uq_limit : option string;
  uq_include_profile : option string;
  uq_role : option string;
  uq_search : option string
}.

(** [req.query] of [GET /api/posts/search] *)
Record SearchQuery : Type := mkSearchQuery {
  sq_q : option string;
  sq_category : option string;
  sq_author : option string;
  sq_published : option string;
  sq_min_views : option string;
  sq_date_from : option string;
  sq_date_to : option string;
  sq_page : option string;
  sq_limit : option string
}.

(** The result of the transfer: [{ post, previousAuthor }] *)
Record Transfer : Type := mkTransfer {
  post : PostFull;
  previousAuthor : option User
}.

(** The where clause of [GET /api/users]. *)
Definition users_where (role search : option string) : UserWhere :=
  {| where_role := when_truthy role;
     where_user_OR :=
       match when_truthy search with
       | Some s => Some [NameContains s; EmailContains s]
       | None => None
       end |}.

(** The where clause of [GET /api/posts/search]. *)
Definition search_where {engine : Engine} (q : SearchQuery) : PostWhere :=
  {| where_post_OR :=
       match when_truthy (sq_q q) with
       | Some s => Some [TitleContains s; ContentContains s]
       | None => None
       end;
     where_category := when_truthy (sq_category q);
     where_author := when_truthy (sq_author q);
     where_published :=
       match sq_published q with
       | Some s => Some (String.eqb s "true")
       | None => None
       end;
     where_views_gte :=
       match when_truthy (sq_min_views q) with
       | Some s => Some (parseInt s)
       | None => None
       end;
     where_createdAt :=
       if truthy (sq_date_from q) || truthy (sq_date_to q) then
         Some {| df_gte := option_map Date_new (when_truthy (sq_date_from q));
                 df_lte := option_map Date_new (when_truthy (sq_date_to q)) |}
       else None |}.

Section Handlers.

Context {W : Type} {prisma : Prisma W} {engine : Engine}.

(** [GET /api/users] *)
Definition get_users (query : UsersQuery) : M W (Response (Page UserOut)) :=
  TRY
    let page := or_default (uq_page query) "1" in
    let limit := or_default (uq_limit query) "10" in
    let skip := jmul (jsub (toNumber page) (JInt 1)) (toNumber limit) in
    let take := parseInt limit in
    let where_ := users_where (uq_role query) (uq_search query) in
    let include_profile :=
      match uq_include_profile query with
      | Some s => String.eqb s "true"
      | None => false
      end in
    users <- user_findMany
               {| ufm_where := where_;
                  ufm_include_profile := include_profile;
                  ufm_skip := skip;
                  ufm_take := take;
                  ufm_orderBy := CreatedAtDesc |} ;;
    total <- user_count where_ ;;
    ret (Json 200
           {| data := users;
              pagination :=
                {| page := parseInt page;
                   limit := take;
                   total := total;
                   totalPages := ceil_div total take |} |})
  CATCH error =>
    ret (JsonError 500 (message error)).

(** [POST /api/users] *)
Definition post_users (body : UserData) : M W (Response UserOut) :=
  TRY
    user <- user_create body ;;
    ret (Json 201 user)
  CATCH error =>
    if code_is error "P2002"
    then ret (JsonError 400 "Email already exists")
    else ret (JsonError 500 (message error)).

(** [PUT /api/users/:id] *)
Definition put_user (id : string) (body : UserData) : M W (Response UserOut) :=
  TRY
    user <- user_update (parseInt id) body ;;
    ret (Json 200 user)
  CATCH error =>
    if code_is error "P2025"
    then ret (JsonError 404 "User not found")
    else ret (JsonError 500 (message error)).

(** [DELETE /api/users/:id] *)
Definition delete_user (id : string) : M W (Response unit) :=
  TRY
    user_delete (parseInt id) ;;
    ret (Send 204)
  CATCH error =>
    if code_is error "P2025"
    then ret (JsonError 404 "User not found")
    else ret (JsonError 500 (message error)).

(** [GET /api/posts/search] *)
Definition search_posts (query : SearchQuery) : M W (Response (Page PostOut)) :=
  TRY
    let page := or_default (sq_page query) "1" in
    let limit := or_default (sq_limit query) "10" in
    let where_ := search_where query in
    let skip := jmul (jsub (toNumber page) (JInt 1)) (toNumber limit) in
    let take := parseInt limit in
    posts <- post_findMany
               {| pfm_where := where_;
                  pfm_skip := skip;
                  pfm_take := take;
                  pfm_orderBy := CreatedAtDesc |} ;;
    total <- post_count where_ ;;
    ret (Json 200
           {| data := posts;
              pagination :=
                {| page := parseInt page;
                   limit := take;
                   total := total;
                   totalPages := ceil_div total take |} |})
  CATCH error =>
    ret (JsonError 500 (message error)).

(** The body of the transaction of the transfer. *)
Definition transfer_body (id : string) (newAuthorEmail : option string)
  : M W Transfer :=
  newAuthor <- user_findUnique_email newAuthorEmail ;;
  match newAuthor with
  | None => throw (Error "New author not found")
  | Some newAuthor =>
      currentPost <- post_findUnique (parseInt id) ;;
      match currentPost with
      | None => throw (Error "Post not found")
      | Some currentPost =>
          updatedPost <- post_update_author (parseInt id) (user_id newAuthor) ;;
          ret {| post := updatedPost;
                 previousAuthor := pa_author currentPost |}
      end
  end.

(** [POST /api/posts/:id/transfer] *)
Definition transfer_post (id : string) (newAuthorEmail : option string)
  : M W (Response Transfer) :=
  TRY
    result <- transaction Transfer (transfer_body id newAuthorEmail) ;;
    ret (Json 200 result)
  CATCH error =>
    ret (JsonError 400 (message error)).

End Handlers.

End Api.

Import Api.

(* ===================================================================== *)
(** ** The seed script ([prisma/seed.js]) *)
(* ===================================================================== *)

Module Seed.

(** The statistics printed at the end. *)
Record Stats : Type := mkStats {
  stat_users : Z;
  stat_profiles : Z;
  stat_posts : Z;
  stat_categories : Z;
  stat_comments : Z;
  stat_postCategories : Z
}.

(** [for (let i = from; i < from + n; i++)] around a body that may change
    the local it is given (the array the script pushes to). *)
Fixpoint for_range {W S} (n : nat) (from : Z) (body : Z -> S -> M W S) (s : S)
  : M W S :=
  match n with
  | O => ret s
  | S n' => s' <- body from s ;; for_range n' (from + 1) body s'
  end.

(** [for (const x of xs)] *)
Fixpoint for_of {W A} (xs : list A) (body : A -> M W unit) : M W unit :=
  match xs with
  | [] => ret tt
  | x :: xs' => body x ;; for_of xs' body
  end.

(** [i === 0 ? 'ADMIN' : i === 1 ? 'MODERATOR' : 'USER'] *)
Definition role_of_index (i : Z) : Role :=
  if i =? 0 then ADMIN else if i =? 1 then MODERATOR else USER.

(** The values of the calls that were served, in the order of the array. *)
Definition in_array_order {A} (n : nat) (served : list (nat * A)) : list A :=
  flat_map
    (fun k =>
       match find (fun e => Nat.eqb (fst e) k) served with
       | Some e => [snd e]
       | None => []
       end)
    (seq 0 n).

Fixpoint numbered {A} (from : nat) (l : list A) : list (nat * A) :=
  match l with
  | [] => []
  | x :: l' => (from, x) :: numbered (S from) l'
  end.

Section Script.

Context {W : Type} {prisma : Prisma W} {faker : Faker W}
        {concurrent : Concurrent W}.

(** The calls of one [Promise.all], each with its place in the array, are
    served one at a time, in the order of [served_next].  A call that
    throws rejects the whole, and the script ends with it; the calls that
    are pending then are not served here. *)
Fixpoint serve {A} (n : nat) (pending : list (nat * M W A))
    (served : list (nat * A)) : M W (list (nat * A)) :=
  match n with
  | O => ret served
  | S n' =>
      i <- served_next (List.length pending) ;;
      let place := Nat.modulo i (List.length pending) in
      match nth_error pending place with
      | Some (k, call) =>
          a <- call ;;
          serve n' (remove_nth place pending) (served ++ [(k, a)])
      | None => ret served
      end
  end.

(** [await Promise.all(calls)] *)
Definition Promise_all {A} (calls : list (M W A)) : M W (list A) :=
  served <- serve (List.length calls) (numbered 0 calls) [] ;;
  ret (in_array_order (List.length calls) served).

(** Clear existing data *)
Definition clear : M W unit :=
  deleteMany MComment ;;
  deleteMany MPostCategory ;;
  deleteMany MPost ;;
  deleteMany MCategory ;;
  deleteMany MProfile ;;
  deleteMany MUser ;;
  ret tt.

(** Create categories first: the four calls are the elements of one
    [Promise.all]. *)
Definition create_categories : M W (list Category) :=
  Promise_all
    [category_create "Technology" "#3B82F6";
     category_create "Programming" "#10B981";
     category_create "Design" "#F59E0B";
     category_create "Business" "#EF4444"].

(** One turn of the loop that creates the users with their profiles. *)
Definition create_user (i : Z) (users : list User) : M W (list User) :=
  e <- internet_email ;;
  n <- person_fullName ;;
  a <- number_int 18 65 ;;
  b <- lorem_paragraph ;;
  av <- image_avatar ;;
  ws <- internet_url ;;
  city <- location_city ;;
  country <- location_country ;;
  user <- user_create
            {| ud_email := Some e;
               ud_name := Some n;
               ud_age := Some a;
               ud_role := Some (role_of_index i);
               ud_profile :=
                 Some {| pd_bio := Some b;
                         pd_avatar := Some av;
                         pd_website := Some ws;
                         pd_location := Some (city ++ ", " ++ country)%string |} |} ;;
  ret (users ++ [uo_user user]).

(** Create users with profiles *)
Definition create_users : M W (list User) :=
  for_range 10 0 create_user [].

(** One comment of a post, by a random user. *)
Definition create_comment (users : list User) (p : Post) (j : Z) (_ : unit)
  : M W unit :=
  randomUser <- helpers_arrayElement User users ;;
  c <- lorem_paragraph ;;
  comment_create c (user_id randomUser) (post_id p) ;;
  ret tt.

(** One post of a user, with its categories and its comments. *)
Definition create_post (categories : list Category) (users : list User)
    (user : User) (i : Z) (_ : unit) : M W unit :=
  t <- lorem_sentence ;;
  c <- lorem_paragraphs 3 ;;
  pub <- datatype_boolean ;;
  v <- number_int 0 1000 ;;
  p <- post_create
         {| pd_title := t;
            pd_content := c;
            pd_published := pub;
            pd_views := v;
            pd_authorId := user_id user |} ;;
  numCategories <- number_int 1 3 ;;
  randomCategories <- helpers_arrayElements Category categories numCategories ;;
  for_of randomCategories
    (fun category =>
       postCategory_create (post_id p) (category_id category) ;; ret tt) ;;
  commentCount <- number_int 0 5 ;;
  for_range (Z.to_nat commentCount) 0 (create_comment users p) tt.

(** Create posts with categories *)
Definition create_posts (categories : list Category) (users : list User)
  : M W unit :=
  for_of users
    (fun user =>
       postCount <- number_int 1 5 ;;
       for_range (Z.to_nat postCount) 0 (create_post categories users user) tt).

(** Show statistics *)
Definition statistics : M W Stats :=
  u <- count MUser ;;
  pr <- count MProfile ;;
  p <- count MPost ;;
  c <- count MCategory ;;
  cm <- count MComment ;;
  pc <- count MPostCategory ;;
  ret {| stat_users := u;
         stat_profiles := pr;
         stat_posts := p;
         stat_categories := c;
         stat_comments := cm;
         stat_postCategories := pc |}.

(** [main()] *)
Definition main : M W Stats :=
  clear ;;
  categories <- create_categories ;;
  users <- create_users ;;
  create_posts categories users ;;
  statistics.

End Script.

End Seed.

(* ===================================================================== *)
(** ** An in-memory store behind the client *)
(* ===================================================================== *)

(** The query layer and the database are not code of the repository.  The
    store stands for them where a statement is about the contents of the
    database.  It keeps the six tables as lists in insertion order, with the
    next value of each autoincrement key, a clock for [createdAt], and a
    journal of the write statements that took effect.  It enforces what the
    data model declares: the unique email, the one profile per user, the
    unique pair of the junction table and the foreign keys, which forbid to
    delete a row that another row points to (the reason for the order of the
    clearing phase of the seed script).  It answers with the error codes the
    handlers look for: P2002 on a unique constraint, P2025 on a record to
    update or delete that is not there, and P2003 on a foreign key; an
    argument of the wrong kind (a number that is not an integer, a role
    outside the enumeration, an invalid date) is an error without a code,
    and so is an integer outside the range of a column.  The keys and the
    views are 32-bit integers.  A key counter is not a sequence of the
    database: an insertion that is refused leaves it where it was, where the
    database uses a value up, so that the statements about a refused
    insertion are about the rows. *)
Module Store.

Record Table (A : Type) : Type := mkTable {
  rows : list A;
  next : Z
}.
Arguments mkTable {A} rows next.
Arguments rows {A} t.
Arguments next {A} t.

Inductive Stmt : Type :=
| Insert (m : Model)
| Update (m : Model)
| Delete (m : Model)
| DeleteMany (m : Model).

Record Db : Type := mkDb {
  users : Table User;
  profiles : Table Profile;
  posts : Table Post;
  categories : Table Category;
  postCategories : list PostCategory;
  comments : Table Comment;
  clock : Z;
  journal : list Stmt
}.

Definition set_users (t : Table User) (d : Db) : Db :=
  mkDb t (profiles d) (posts d) (categories d) (postCategories d) (comments d)
       (clock d) (journal d).
Definition set_profiles (t : Table Profile) (d : Db) : Db :=
  mkDb (users d) t (posts d) (categories d) (postCategories d) (comments d)
       (clock d) (journal d).
Definition set_posts (t : Table Post) (d : Db) : Db :=
  mkDb (users d) (profiles d) t (categories d) (postCategories d) (comments d)
       (clock d) (journal d).
Definition set_categories (t : Table Category) (d : Db) : Db :=
  mkDb (users d) (profiles d) (posts d) t (postCategories d) (comments d)
       (clock d) (journal d).
Definition set_postCategories (l : list PostCategory) (d : Db) : Db :=
  mkDb (users d) (profiles d) (posts d) (categories d) l (comments d)
       (clock d) (journal d).
Definition set_comments (t : Table Comment) (d : Db) : Db :=
  mkDb (users d) (profiles d) (posts d) (categories d) (postCategories d) t
       (clock d) (journal d).

(** A statement took effect: the journal grows and the clock advances. *)
Definition logged (ss : list Stmt) (d : Db) : Db :=
  mkDb (users d) (profiles d) (posts d) (categories d) (postCategories d)
       (comments d) (clock d + 1) (journal d ++ ss).

Definition insert_row {A} (r : A) (t : Table A) : Table A :=
  {| rows := rows t ++ [r]; next := next t + 1 |}.

Definition cleared {A} (t : Table A) : Table A :=
  {| rows := []; next := next t |}.

Definition invalid (msg : string) : Err := mkErr None msg.
Definition known (c msg : string) : Err := mkErr (Some c) msg.

Definition unique_violation : Err := known "P2002" "Unique constraint failed".
Definition foreign_key_violation : Err :=
  known "P2003" "Foreign key constraint failed".
Definition not_found : Err :=
  known "P2025" "Record to update or delete does not exist".
Definition out_of_range : Err :=
  invalid "Unable to fit integer value into an INT4 (32-bit signed integer)".

(** The range of an [Int] column. *)
Definition int32 (z : Z) : bool :=
  (-2147483648 <=? z) && (z <=? 2147483647).

(** *** Looking rows up *)

Definition user_by_id (d : Db) (id : Z) : option User :=
  find (fun u => user_id u =? id) (rows (users d)).

Definition user_by_email (d : Db) (e : string) : option User :=
  find (fun u => String.eqb (email u) e) (rows (users d)).

Definition profile_of (d : Db) (uid : Z) : option Profile :=
  find (fun p => userId p =? uid) (rows (profiles d)).

Definition post_by_id (d : Db) (id : Z) : option Post :=
  find (fun p => post_id p =? id) (rows (posts d)).

Definition category_by_id (d : Db) (id : Z) : option Category :=
  find (fun c => category_id c =? id) (rows (categories d)).

Definition has {A} (o : option A) : bool :=
  match o with Some _ => true | None => false end.

(** *** Filters *)

(** [contains] and [equals] with [mode: 'insensitive'] are matched by the
    database: what its match makes of the characters of the text that it
    reads as wild cards, and which letters it takes for the same, is not
    the query layer's.  [contains_i needle hay] and [equals_i a b]. *)
Class Collation : Type := {
  contains_i : string -> string -> bool;
  equals_i : string -> string -> bool
}.

Definition contains_opt {collation : Collation} (needle : string) (hay : option string) : bool :=
  match hay with
  | Some h => contains_i needle h
  | None => false
  end.

Definition user_cond {collation : Collation} (c : UserCond) (u : User) : bool :=
  match c with
  | NameContains s => contains_opt s (name u)
  | EmailContains s => contains_i s (email u)
  end.

Definition any_of {A C} (test : C -> A -> bool) (cs : option (list C)) (a : A)
  : bool :=
  match cs with
  | Some l => existsb (fun c => test c a) l
  | None => true
  end.

(** The rows a where clause on users selects; none when the role is not one
    of the enumeration. *)
Definition user_filter {collation : Collation} (w : UserWhere) : option (User -> bool) :=
  match where_role w with
  | None => Some (fun u => any_of user_cond (where_user_OR w) u)
  | Some s =>
      match Role_of_string s with
      | Some r =>
          Some (fun u => Role_eqb (role u) r && any_of user_cond (where_user_OR w) u)
      | None => None
      end
  end.

Definition post_cond {collation : Collation} (c : PostCond) (p : Post) : bool :=
  match c with
  | TitleContains s => contains_i s (title p)
  | ContentContains s => contains_opt s (content p)
  end.

Definition in_category {collation : Collation} (d : Db) (cname : string) (p : Post) : bool :=
  existsb
    (fun pc =>
       (postId pc =? post_id p) &&
       match category_by_id d (categoryId pc) with
       | Some c => equals_i (category_name c) cname
       | None => false
       end)
    (postCategories d).

Definition by_author {collation : Collation} (d : Db) (aname : string) (p : Post) : bool :=
  match user_by_id d (authorId p) with
  | Some u => contains_opt aname (name u)
  | None => false
  end.

Definition opt_test {A B} (o : option A) (test : A -> B -> bool) (b : B) : bool :=
  match o with
  | Some a => test a b
  | None => true
  end.

Definition date_ok (o : option jsdate) : bool :=
  match o with
  | Some InvalidDate => false
  | _ => true
  end.

Definition after (o : option jsdate) (t : Z) : bool :=
  match o with
  | Some (DateAt ms) => ms <=? t
  | _ => true
  end.

Definition before (o : option jsdate) (t : Z) : bool :=
  match o with
  | Some (DateAt ms) => t <=? ms
  | _ => true
  end.

(** The arguments of a where clause on posts are of the right kind: the
    least number of views is an integer in the range of the column and the
    dates are valid. *)
Definition post_where_ok (w : PostWhere) : bool :=
  match where_views_gte w with
  | Some x => match as_int x with Some v => int32 v | None => false end
  | None => true
  end &&
  match where_createdAt w with
  | Some f => date_ok (df_gte f) && date_ok (df_lte f)
  | None => true
  end.

Definition post_matches {collation : Collation} (d : Db) (w : PostWhere) (p : Post) : bool :=
  any_of post_cond (where_post_OR w) p &&
  opt_test (where_category w) (in_category d) p &&
  opt_test (where_author w) (by_author d) p &&
  opt_test (where_published w) (fun b p => Bool.eqb (published p) b) p &&
  opt_test (where_views_gte w)
    (fun x p => match as_int x with Some v => v <=? views p | None => false end) p &&
  opt_test (where_createdAt w)
    (fun f p => after (df_gte f) (createdAt p) && before (df_lte f) (createdAt p)) p.

Definition post_filter {collation : Collation} (d : Db) (w : PostWhere) : option (Post -> bool) :=
  if post_where_ok w then Some (post_matches d w) else None.

(** *** Order and window *)

Fixpoint insert_desc {A} (key : A -> Z) (x : A) (l : list A) : list A :=
  match l with
  | [] => [x]
  | y :: l' => if key y <=? key x then x :: l else y :: insert_desc key x l'
  end.

(** [orderBy: { createdAt: 'desc' }].  The database leaves the order of
    rows of equal time open; here they keep the order of the table. *)
Definition sort_desc {A} (key : A -> Z) (l : list A) : list A :=
  fold_right (insert_desc key) [] l.

(** [skip] and [take]: both integers and [skip] not negative; a negative
    [take] counts from the end of the list.  What the database makes of an
    offset or a length beyond 2147483647 is not modelled: the statements
    about the rows of a page are for offsets and lengths up to it. *)
Definition window {A} (skip take : jsnum) (l : list A) : option (list A) :=
  match as_int skip, as_int take with
  | Some s, Some t =>
      if s <? 0 then None
      else if 0 <=? t then Some (firstn (Z.to_nat t) (skipn (Z.to_nat s) l))
      else Some (rev (firstn (Z.to_nat (- t)) (skipn (Z.to_nat s) (rev l))))
  | _, _ => None
  end.

Definition len {A} (l : list A) : Z := Z.of_nat (List.length l).

(** *** What is returned with a row *)

Definition user_out (include_profile : bool) (d : Db) (u : User) : UserOut :=
  {| uo_user := u;
     uo_profile := if include_profile then Some (profile_of d (user_id u)) else None |}.

Definition author_sel (u : User) : AuthorSel :=
  {| sel_id := user_id u; sel_name := name u; sel_email := email u |}.

Definition categories_of (d : Db) (p : Post) : list (PostCategory * option Category) :=
  map (fun pc => (pc, category_by_id d (categoryId pc)))
      (filter (fun pc => postId pc =? post_id p) (postCategories d)).

Definition post_out (d : Db) (p : Post) : PostOut :=
  {| po_post := p;
     po_author := option_map author_sel (user_by_id d (authorId p));
     po_categories := categories_of d p;
     po_count_comments :=
       len (filter (fun c => comment_postId c =? post_id p) (rows (comments d))) |}.

Definition post_full (d : Db) (p : Post) : PostFull :=
  {| pf_post := p;
     pf_author := user_by_id d (authorId p);
     pf_categories := categories_of d p |}.

(** *** Reads *)

Definition mem_user_findMany {collation : Collation} (a : UserFindMany) : M Db (list UserOut) :=
  fun d =>
    match user_filter (ufm_where a) with
    | None => (Throw (invalid "Invalid value for argument `role`"), d)
    | Some f =>
        match window (ufm_skip a) (ufm_take a)
                (sort_desc user_createdAt (filter f (rows (users d)))) with
        | None => (Throw (invalid "Invalid value for argument `skip` or `take`"), d)
        | Some us => (Ok (map (user_out (ufm_include_profile a) d) us), d)
        end
    end.

Definition mem_user_count {collation : Collation} (w : UserWhere) : M Db Z :=
  fun d =>
    match user_filter w with
    | None => (Throw (invalid "Invalid value for argument `role`"), d)
    | Some f => (Ok (len (filter f (rows (users d)))), d)
    end.

Definition mem_user_findUnique_email (e : option string) : M Db (option User) :=
  fun d =>
    match e with
    | None => (Throw (invalid "Argument `where` needs `email`"), d)
    | Some e => (Ok (user_by_email d e), d)
    end.

Definition mem_post_findMany {collation : Collation} (a : PostFindMany) : M Db (list PostOut) :=
  fun d =>
    match post_filter d (pfm_where a) with
    | None => (Throw (invalid "Invalid value in argument `where`"), d)
    | Some f =>
        match window (pfm_skip a) (pfm_take a)
                (sort_desc createdAt (filter f (rows (posts d)))) with
        | None => (Throw (invalid "Invalid value for argument `skip` or `take`"), d)
        | Some ps => (Ok (map (post_out d) ps), d)
        end
    end.

Definition mem_post_count {collation : Collation} (w : PostWhere) : M Db Z :=
  fun d =>
    match post_filter d w with
    | None => (Throw (invalid "Invalid value in argument `where`"), d)
    | Some f => (Ok (len (filter f (rows (posts d)))), d)
    end.

(** [post.findUnique] by id.  The key of a row is in the range of its
    column, so that an id outside the range is the id of no row; it is
    refused as an argument, where an id of the range that is the id of no
    row is answered with null. *)
Definition mem_post_findUnique (id : jsnum) : M Db (option PostWithAuthor) :=
  fun d =>
    match as_int id with
    | None => (Throw (invalid "Invalid value for argument `id`"), d)
    | Some i =>
        match post_by_id d i with
        | Some p =>
            (Ok (Some {| pa_post := p; pa_author := user_by_id d (authorId p) |}), d)
        | None =>
            if int32 i then (Ok None, d) else (Throw out_of_range, d)
        end
    end.

Definition count_rows (m : Model) (d : Db) : Z :=
  match m with
  | MUser => len (rows (users d))
  | MProfile => len (rows (profiles d))
  | MPost => len (rows (posts d))
  | MCategory => len (rows (categories d))
  | MPostCategory => len (postCategories d)
  | MComment => len (rows (comments d))
  end.

Definition mem_count (m : Model) : M Db Z :=
  fun d => (Ok (count_rows m d), d).

(** *** Writes *)

Definition or_else {A} (o : option A) (a : A) : A :=
  match o with
  | Some x => x
  | None => a
  end.

Definition new_profile (id uid : Z) (pd : ProfileData) : Profile :=
  {| profile_id := id;
     bio := pd_bio pd;
     avatar := pd_avatar pd;
     website := pd_website pd;
     location := pd_location pd;
     userId := uid |}.

(** [user.create]: the email is required and unique; the role defaults to
    USER and the account is active.  A nested profile is created with the
    user or not at all. *)
Definition mem_user_create (data : UserData) : M Db UserOut :=
  fun d =>
    match ud_email data with
    | None => (Throw (invalid "Argument `email` is missing"), d)
    | Some e =>
        let id := next (users d) in
        if has (user_by_email d e) || has (user_by_id d id)
        then (Throw unique_violation, d)
        else
          let u := {| user_id := id;
                      email := e;
                      name := ud_name data;
                      age := ud_age data;
                      role := or_else (ud_role data) USER;
                      isActive := true;
                      user_createdAt := clock d |} in
          let d1 := set_users (insert_row u (users d)) d in
          match ud_profile data with
          | None =>
              (Ok {| uo_user := u; uo_profile := Some None |},
               logged [Insert MUser] d1)
          | Some pd =>
              let p := new_profile (next (profiles d)) id pd in
              if has (profile_of d id) ||
                 has (find (fun q => profile_id q =? profile_id p) (rows (profiles d)))
              then (Throw unique_violation, d)
              else
                (Ok {| uo_user := u; uo_profile := Some (Some p) |},
                 logged [Insert MUser; Insert MProfile]
                   (set_profiles (insert_row p (profiles d)) d1))
          end
    end.

Definition updated_user (data : UserData) (u : User) : User :=
  {| user_id := user_id u;
     email := or_else (ud_email data) (email u);
     name := match ud_name data with Some n => Some n | None => name u end;
     age := match ud_age data with Some a => Some a | None => age u end;
     role := or_else (ud_role data) (role u);
     isActive := isActive u;
     user_createdAt := user_createdAt u |}.

Definition updated_profile (pd : ProfileData) (p : Profile) : Profile :=
  {| profile_id := profile_id p;
     bio := match pd_bio pd with Some x => Some x | None => bio p end;
     avatar := match pd_avatar pd with Some x => Some x | None => avatar p end;
     website := match pd_website pd with Some x => Some x | None => website p end;
     location := match pd_location pd with Some x => Some x | None => location p end;
     userId := userId p |}.

Definition replace_row {A} (same : A -> bool) (r : A) (l : list A) : list A :=
  map (fun x => if same x then r else x) l.

(** [user.update]: the record has to be there; the fields that are given are
    written, and a profile is updated or, when the user has none, created.
    An id outside the range of the key is the id of no row and is refused
    as an argument, not as a missing record. *)
Definition mem_user_update (id : jsnum) (data : UserData) : M Db UserOut :=
  fun d =>
    match as_int id with
    | None => (Throw (invalid "Invalid value for argument `id`"), d)
    | Some i =>
        match user_by_id d i with
        | None => (Throw (if int32 i then not_found else out_of_range), d)
        | Some u =>
            let u' := updated_user data u in
            if negb (String.eqb (email u') (email u)) && has (user_by_email d (email u'))
            then (Throw unique_violation, d)
            else
              let d1 :=
                set_users
                  {| rows := replace_row (fun x => user_id x =? i) u' (rows (users d));
                     next := next (users d) |} d in
              match ud_profile data with
              | None => (Ok (user_out true d1 u'), logged [Update MUser] d1)
              | Some pd =>
                  match profile_of d i with
                  | Some p =>
                      let d2 :=
                        set_profiles
                          {| rows := replace_row (fun x => userId x =? i)
                                       (updated_profile pd p) (rows (profiles d));
                             next := next (profiles d) |} d1 in
                      (Ok (user_out true d2 u'),
                       logged [Update MUser; Update MProfile] d2)
                  | None =>
                      let p := new_profile (next (profiles d)) i pd in
                      let d2 := set_profiles (insert_row p (profiles d)) d1 in
                      (Ok (user_out true d2 u'),
                       logged [Update MUser; Insert MProfile] d2)
                  end
              end
        end
    end.

(** A user that a profile, a post or a comment points to. *)
Definition user_referenced (d : Db) (uid : Z) : bool :=
  existsb (fun p => userId p =? uid) (rows (profiles d)) ||
  existsb (fun p => authorId p =? uid) (rows (posts d)) ||
  existsb (fun c => comment_authorId c =? uid) (rows (comments d)).

Definition post_referenced (d : Db) (pid : Z) : bool :=
  existsb (fun pc => postId pc =? pid) (postCategories d) ||
  existsb (fun c => comment_postId c =? pid) (rows (comments d)).

Definition category_referenced (d : Db) (cid : Z) : bool :=
  existsb (fun pc => categoryId pc =? cid) (postCategories d).

(** [user.delete]: the record has to be there and nothing may point to it. *)
Definition mem_user_delete (id : jsnum) : M Db User :=
  fun d =>
    match as_int id with
    | None => (Throw (invalid "Invalid value for argument `id`"), d)
    | Some i =>
        match user_by_id d i with
        | None => (Throw (if int32 i then not_found else out_of_range), d)
        | Some u =>
            if user_referenced d i then (Throw foreign_key_violation, d)
            else
              (Ok u,
               logged [Delete MUser]
                 (set_users
                    {| rows := filter (fun x => negb (user_id x =? i)) (rows (users d));
                       next := next (users d) |} d))
        end
    end.

Definition with_author (aid : Z) (p : Post) : Post :=
  {| post_id := post_id p;
     title := title p;
     content := content p;
     published := published p;
     views := views p;
     authorId := aid;
     createdAt := createdAt p |}.

(** [post.update] of the author: the post and the new author have to be
    there. *)
Definition mem_post_update_author (id : jsnum) (aid : Z) : M Db PostFull :=
  fun d =>
    match as_int id with
    | None => (Throw (invalid "Invalid value for argument `id`"), d)
    | Some i =>
        match post_by_id d i with
        | None => (Throw (if int32 i then not_found else out_of_range), d)
        | Some p =>
            if has (user_by_id d aid) then
              let p' := with_author aid p in
              let d1 :=
                set_posts
                  {| rows := replace_row (fun x => post_id x =? i) p' (rows (posts d));
                     next := next (posts d) |} d in
              (Ok (post_full d1 p'), logged [Update MPost] d1)
            else (Throw foreign_key_violation, d)
        end
    end.

Definition mem_post_create (data : PostData) : M Db Post :=
  fun d =>
    let id := next (posts d) in
    if negb (has (user_by_id d (pd_authorId data))) then (Throw foreign_key_violation, d)
    else if has (post_by_id d id) then (Throw unique_violation, d)
    else
      let p := {| post_id := id;
                  title := pd_title data;
                  content := Some (pd_content data);
                  published := pd_published data;
                  views := pd_views data;
                  authorId := pd_authorId data;
                  createdAt := clock d |} in
      (Ok p, logged [Insert MPost] (set_posts (insert_row p (posts d)) d)).

Definition mem_category_create (cname ccolor : string) : M Db Category :=
  fun d =>
    let id := next (categories d) in
    if has (category_by_id d id) then (Throw unique_violation, d)
    else
      let c := {| category_id := id; category_name := cname; color := Some ccolor |} in
      (Ok c, logged [Insert MCategory] (set_categories (insert_row c (categories d)) d)).

Definition mem_postCategory_create (pid cid : Z) : M Db PostCategory :=
  fun d =>
    if negb (has (post_by_id d pid) && has (category_by_id d cid))
    then (Throw foreign_key_violation, d)
    else if existsb (fun pc => (postId pc =? pid) && (categoryId pc =? cid))
              (postCategories d)
    then (Throw unique_violation, d)
    else
      let pc := {| postId := pid; categoryId := cid |} in
      (Ok pc, logged [Insert MPostCategory]
                (set_postCategories (postCategories d ++ [pc]) d)).

Definition mem_comment_create (text : string) (aid pid : Z) : M Db Comment :=
  fun d =>
    let id := next (comments d) in
    if negb (has (user_by_id d aid) && has (post_by_id d pid))
    then (Throw foreign_key_violation, d)
    else if has (find (fun c => comment_id c =? id) (rows (comments d)))
    then (Throw unique_violation, d)
    else
      let c := {| comment_id := id;
                  comment_content := text;
                  comment_authorId := aid;
                  comment_postId := pid |} in
      (Ok c, logged [Insert MComment] (set_comments (insert_row c (comments d)) d)).

(** Some row of the model is pointed to by a row of another table. *)
Definition referenced (m : Model) (d : Db) : bool :=
  match m with
  | MUser => existsb (fun u => user_referenced d (user_id u)) (rows (users d))
  | MPost => existsb (fun p => post_referenced d (post_id p)) (rows (posts d))
  | MCategory =>
      existsb (fun c => category_referenced d (category_id c)) (rows (categories d))
  | MProfile | MPostCategory | MComment => false
  end.

Definition emptied (m : Model) (d : Db) : Db :=
  match m with
  | MUser => set_users (cleared (users d)) d
  | MProfile => set_profiles (cleared (profiles d)) d
  | MPost => set_posts (cleared (posts d)) d
  | MCategory => set_categories (cleared (categories d)) d
  | MPostCategory => set_postCategories [] d
  | MComment => set_comments (cleared (comments d)) d
  end.

(** [deleteMany()]: every row of the model goes, unless one is pointed to. *)
Definition mem_deleteMany (m : Model) : M Db Z :=
  fun d =>
    if referenced m d then (Throw foreign_key_violation, d)
    else (Ok (count_rows m d), logged [DeleteMany m] (emptied m d)).

(** [$transaction]: what the body wrote is kept when it returns and undone
    when it throws. *)
Definition mem_transaction (A : Type) (body : M Db A) : M Db A :=
  fun d =>
    match body d with
    | (Ok a, d') => (Ok a, d')
    | (Throw e, _) => (Throw e, d)
    end.

#[export] Instance memory {collation : Collation} : Prisma Db := {|
  user_findMany := mem_user_findMany;
  user_count := mem_user_count;
  user_findUnique_email := mem_user_findUnique_email;
  user_create := mem_user_create;
  user_update := mem_user_update;
  user_delete := mem_user_delete;
  post_findMany := mem_post_findMany;
  post_count := mem_post_count;
  post_findUnique := mem_post_findUnique;
  post_update_author := mem_post_update_author;
  post_create := mem_post_create;
  category_create := mem_category_create;
  postCategory_create := mem_postCategory_create;
  comment_create := mem_comment_create;
  deleteMany := mem_deleteMany;
  count := mem_count;
  transaction := mem_transaction
|}.

(** *** The store with a source of random values *)

(** What the generators draw from: the values to come, and how many have
    been drawn; and the order in which the database serves the calls that
    are pending together: its choices to come, and how many it has made. *)
Record Rng : Type := mkRng {
  ints : nat -> Z;
  texts : nat -> string;
  drawn : nat;
  choices : nat -> nat;
  chosen : nat
}.

Abbreviation World := (Db * Rng)%type.

Definition lift {A} (m : M Db A) : M World A :=
  fun w =>
    let '(o, d') := m (fst w) in (o, (d', snd w)).

Definition advance (r : Rng) : Rng :=
  {| ints := ints r; texts := texts r; drawn := S (drawn r);
     choices := choices r; chosen := chosen r |}.

Definition advance_choice (r : Rng) : Rng :=
  {| ints := ints r; texts := texts r; drawn := drawn r;
     choices := choices r; chosen := S (chosen r) |}.

(** The source after [n] choices. *)
Definition after_choices (n : nat) (r : Rng) : Rng :=
  {| ints := ints r; texts := texts r; drawn := drawn r;
     choices := choices r; chosen := n + chosen r |}.

Definition choose (n : nat) : M World nat :=
  fun w => (Ok (choices (snd w) (chosen (snd w))), (fst w, advance_choice (snd w))).

Definition draw_int : M World Z :=
  fun w => (Ok (ints (snd w) (drawn (snd w))), (fst w, advance (snd w))).

Definition draw_text : M World string :=
  fun w => (Ok (texts (snd w) (drawn (snd w))), (fst w, advance (snd w))).

(** An integer between [lo] and [hi], both included. *)
Definition draw_between (lo hi : Z) : M World Z :=
  if hi <? lo then throw (Error "Max should be greater than min")
  else (x <- draw_int ;; ret (lo + x mod (hi - lo + 1)))%js.

(** [n] elements of the list at random places, none twice. *)
Fixpoint draw_elements {A} (n : nat) (l : list A) : M World (list A) :=
  match n with
  | O => ret []
  | S n' =>
      match l with
      | [] => ret []
      | _ =>
          (i <- draw_between 0 (len l - 1) ;;
           match nth_error l (Z.to_nat i) with
           | Some x =>
               rest <- draw_elements n' (remove_nth (Z.to_nat i) l) ;;
               ret (x :: rest)
           | None => ret []
           end)%js
      end
  end.

Definition draw_element {A} (l : list A) : M World A :=
  match l with
  | [] => throw (Error "Cannot get value from empty dataset")
  | _ =>
      (i <- draw_between 0 (len l - 1) ;;
       match nth_error l (Z.to_nat i) with
       | Some x => ret x
       | None => throw (Error "Cannot get value from empty dataset")
       end)%js
  end.

(** The transaction of the world: the store is restored when the body
    throws; the values drawn stay drawn. *)
Definition world_transaction (A : Type) (body : M World A) : M World A :=
  fun w =>
    match body w with
    | (Ok a, w') => (Ok a, w')
    | (Throw e, w') => (Throw e, (fst w, snd w'))
    end.

#[export] Instance world_prisma {collation : Collation} : Prisma World := {|
  user_findMany a := lift (mem_user_findMany a);
  user_count w := lift (mem_user_count w);
  user_findUnique_email e := lift (mem_user_findUnique_email e);
  user_create data := lift (mem_user_create data);
  user_update id data := lift (mem_user_update id data);
  user_delete id := lift (mem_user_delete id);
  post_findMany a := lift (mem_post_findMany a);
  post_count w := lift (mem_post_count w);
  post_findUnique id := lift (mem_post_findUnique id);
  post_update_author id aid := lift (mem_post_update_author id aid);
  post_create data := lift (mem_post_create data);
  category_create n c := lift (mem_category_create n c);
  postCategory_create p c := lift (mem_postCategory_create p c);
  comment_create t a p := lift (mem_comment_create t a p);
  deleteMany m := lift (mem_deleteMany m);
  count m := lift (mem_count m);
  transaction := world_transaction
|}.

#[export] Instance world_faker : Faker World := {|
  internet_email := draw_text;
  internet_url := draw_text;
  person_fullName := draw_text;
  number_int := draw_between;
  lorem_sentence := draw_text;
  lorem_paragraph := draw_text;
  lorem_paragraphs _ := draw_text;
  image_avatar := draw_text;
  location_city := draw_text;
  location_country := draw_text;
  datatype_boolean := (x <- draw_int ;; ret (Z.odd x))%js;
  helpers_arrayElement A l := draw_element l;
  helpers_arrayElements A l n := draw_elements (Z.to_nat n) l
|}.

#[export] Instance world_concurrent : Concurrent World := {|
  served_next := choose
|}.

(** A query layer that cannot reach its database: every call throws the
    connection error. *)
Definition unreachable : Err :=
  known "P1001" "Can't reach database server".

#[export] Instance offline : Prisma unit := {|
  user_findMany _ := throw unreachable;
  user_count _ := throw unreachable;
  user_findUnique_email _ := throw unreachable;
  user_create _ := throw unreachable;
  user_update _ _ := throw unreachable;
  user_delete _ := throw unreachable;
  post_findMany _ := throw unreachable;
  post_count _ := throw unreachable;
  post_findUnique _ := throw unreachable;
  post_update_author _ _ := throw unreachable;
  post_create _ := throw unreachable;
  category_create _ _ := throw unreachable;
  postCategory_create _ _ := throw unreachable;
  comment_create _ _ _ := throw unreachable;
  deleteMany _ := throw unreachable;
  count _ := throw unreachable;
  transaction A _ := throw unreachable
|}.

End Store.

Import Store.

(** A post with the other value of its published flag. *)
Definition with_published (b : bool) (p : Post) : Post :=
  {| post_id := post_id p;
     title := title p;
     content := content p;
     published := b;
     views := views p;
     authorId := authorId p;
     createdAt := createdAt p |}.


(** *** The seed script on the store *)

(** The store after the clearing phase: no row in any table, and the six
    statements in the journal. *)
Definition emptied_all (d : Db) : Db :=
  mkDb (cleared (users d)) (cleared (profiles d)) (cleared (posts d))
       (cleared (categories d)) [] (cleared (comments d))
       (clock d + 1 + 1 + 1 + 1 + 1 + 1)
       ((((((journal d ++ [DeleteMany MComment]) ++ [DeleteMany MPostCategory])
            ++ [DeleteMany MPost]) ++ [DeleteMany MCategory])
          ++ [DeleteMany MProfile]) ++ [DeleteMany MUser]).

Definition is_insert (s : Stmt) : Prop :=
  match s with
  | Insert _ => True
  | _ => False
  end.

(** The store after a computation is related to the store before it,
    whether the computation returns or throws. *)
Definition keeps (R : Db -> Db -> Prop) {A} (m : M World A) : Prop :=
  forall w, R (fst w) (fst (snd (m w))).

(** Between two stores, the journal has grown by insertions only. *)
Definition inserts_only (d d' : Db) : Prop :=
  exists tail, journal d' = journal d ++ tail /\ Forall is_insert tail.

(** Between two stores, the users and the profiles are the same. *)
Definition users_kept (d d' : Db) : Prop :=
  users d' = users d /\ profiles d' = profiles d.

(** The values of the loop variable: [from], [from + 1], ... *)
Fixpoint indices (n : nat) (from : Z) : list Z :=
  match n with
  | O => []
  | S n' => from :: indices n' (from + 1)
  end.

Definition with_role (r : Role) (u : User) : bool := Role_eqb (role u) r.

(** The emails that the loop of the users will draw: every turn draws eight
    texts, the email first. *)
Definition emails_to_draw (n : nat) (r : Rng) : list string :=
  map (fun i => texts r (drawn r + 8 * i)%nat) (seq 0 n).

(** No row has a key beyond the next value of its table, and no profile
    waits for a user to come. *)
Definition keys_below (d : Db) : Prop :=
  Forall (fun u => user_id u < next (users d)) (rows (users d)) /\
  Forall (fun p => profile_id p < next (profiles d)) (rows (profiles d)) /\
  Forall (fun p => userId p < next (users d)) (rows (profiles d)) /\
  Forall (fun c => category_id c < next (categories d)) (rows (categories d)).

(* ===================================================================== *)
(** ** Stores and worlds to run the handlers and the script on *)
(* ===================================================================== *)

Module Sample.

Local Open Scope string_scope.

Definition ann : User :=
  mkUser 1 "ann@example.com" (Some "Ann") (Some 41) ADMIN true 1.
Definition bob : User :=
  mkUser 2 "bob@example.com" (Some "Bob") (Some 29) USER true 2.
Definition cat : User :=
  mkUser 3 "cat@example.com" None None USER true 3.

Definition post1 : Post := mkPost 1 "Hello" (Some "first") true 10 1 10.
Definition post2 : Post := mkPost 2 "Draft" (Some "second") false 0 1 11.
Definition post3 : Post := mkPost 3 "Prisma" None true 250 2 12.
Definition post4 : Post := mkPost 4 "Notes" (Some "fourth") false 7 2 13.
Definition post5 : Post := mkPost 5 "Seeds" (Some "fifth") true 99 2 14.

(** Three users, one profile, five posts of two authors, one category on
    one post and one comment. *)
Definition store : Db :=
  {| users := mkTable [ann; bob; cat] 4;
     profiles := mkTable [mkProfile 1 (Some "bio") None None None 1] 2;
     posts := mkTable [post1; post2; post3; post4; post5] 6;
     categories := mkTable [mkCategory 1 "Technology" (Some "#3B82F6")] 2;
     postCategories := [mkPostCategory 3 1];
     comments := mkTable [mkComment 1 "nice" 3 1] 2;
     clock := 20;
     journal := [] |}.

Definition empty : Db :=
  {| users := mkTable [] 1;
     profiles := mkTable [] 1;
     posts := mkTable [] 1;
     categories := mkTable [] 1;
     postCategories := [];
     comments := mkTable [] 1;
     clock := 0;
     journal := [] |}.

(** Two requests to create a user with the same email. *)
Definition dan : UserData :=
  mkUserData (Some "dan@example.com") (Some "Dan") None None None.

(** The search for the posts whose published parameter is "1". *)
Definition published_1 : SearchQuery :=
  mkSearchQuery None None None (Some "1") None None None None None.

(** A text for every draw, different from draw to draw. *)
Fixpoint text_of (n : nat) : string :=
  match n with
  | O => "@example.com"
  | S n' => String "a" (text_of n')
  end.

(** The calls that are pending together are served in the order of the
    array. *)
Definition rng : Rng :=
  {| ints := fun n => Z.of_nat n; texts := text_of; drawn := 0;
     choices := fun _ => O; chosen := 0 |}.

(** The same, with the calls that are pending together served last first. *)
Definition rng_last_first : Rng :=
  {| ints := fun n => Z.of_nat n; texts := text_of; drawn := 0;
     choices := fun n => (3 - n)%nat; chosen := 0 |}.

(** A source whose texts are all the same. *)
Definition rng_one_text : Rng :=
  {| ints := fun n => Z.of_nat n; texts := fun _ => "same@example.com"; drawn := 0;
     choices := fun _ => O; chosen := 0 |}.

(** A world that already holds rows, and an empty one. *)
Definition world : World := (store, rng).
Definition fresh_world : World := (empty, rng).
Definition world_last_first : World := (empty, rng_last_first).
Definition world_one_text : World := (store, rng_one_text).

(** An engine that reads no other form of date than the one of the
    language, and a database that matches a text where it occurs, with the
    letters A to Z taken for a to z. *)
Definition engine : Engine := {| Date_parse_other := fun _ => InvalidDate |}.

Definition lower (c : ascii) : ascii :=
  let n := nat_of_ascii c in
  if ((65 <=? n) && (n <=? 90))%nat then ascii_of_nat (n + 32) else c.

Fixpoint lowercase (s : string) : string :=
  match s with
  | EmptyString => EmptyString
  | String c s' => String (lower c) (lowercase s')
  end.

Fixpoint occurs (needle hay : string) : bool :=
  String.prefix needle hay ||
  match hay with
  | String _ hay' => occurs needle hay'
  | EmptyString => false
  end.

Definition collation : Collation :=
  {| contains_i := fun needle hay => occurs (lowercase needle) (lowercase hay);
     equals_i := fun a b => String.eqb (lowercase a) (lowercase b) |}.

End Sample.

(* ===================================================================== *)
(** ** The handlers that read records with their relations *)
(* ===================================================================== *)

Module Relations.

(** [select: { id: true, title: true }] *)
Record PostRef : Type := mkPostRef {
  ref_id : Z;
  ref_title : string
}.

(** A comment with [author: { select: { id, name, email } }]. *)
Record CommentOfPost : Type := mkCommentOfPost {
  cp_comment : Comment;
  cp_author : option AuthorSel
}.

(** A comment with [post: { select: { id, title } }]. *)
Record CommentOfUser : Type := mkCommentOfUser {
  cu_comment : Comment;
  cu_post : option PostRef
}.

(** A post of a user, with its junction rows, each with its category, and
    its comments. *)
Record PostOfUser : Type := mkPostOfUser {
  pu_post : Post;
  pu_categories : list (PostCategory * option Category);
  pu_comments : list CommentOfPost
}.

(** What [GET /api/users/:id] includes with a user. *)
Record UserFull : Type := mkUserFull {
  uf_user : User;
  uf_profile : option Profile;
  uf_posts : list PostOfUser;
  uf_comments : list CommentOfUser
}.

(** [select: { id: true, views: true, published: true }] *)
Record PostStat : Type := mkPostStat {
  stat_id : Z;
  stat_views : Z;
  stat_published : bool
}.

(** A category with its junction rows, each with its post; under the foreign
    key the post is always there, and it is null otherwise. *)
Record CategoryStats : Type := mkCategoryStats {
  cs_category : Category;
  cs_posts : list (PostCategory * option PostStat)
}.

(** [select: { id, name, email, _count: { select: { posts, comments } } }] *)
Record AuthorCount : Type := mkAuthorCount {
  ac_id : Z;
  ac_name : option string;
  ac_email : string;
  ac_count_posts : Z;
  ac_count_comments : Z
}.

(** One element of [categoryAnalytics]. *)
Record CategoryAnalytics : Type := mkCategoryAnalytics {
  category : string;
  totalPosts : Z;
  publishedPosts : Z;
  totalViews : Z
}.

(** The body of the answer of [GET /api/analytics/posts]. *)
Record Analytics : Type := mkAnalytics {
  categoryAnalytics : list CategoryAnalytics;
  topAuthors : list AuthorCount
}.

(** The calls on the client that the two handlers make. *)
Class PrismaRelations (W : Type) : Type := {
  (** [user.findUnique({ where: { id }, include: { profile, posts, comments } })] *)
  user_findUnique : jsnum -> M W (option UserFull);
  (** [category.findMany({ include: { posts: { include: { post } } } })] *)
  category_findMany : M W (list CategoryStats);
  (** [user.findMany({ select, orderBy: { posts: { _count: 'desc' } }, take })] *)
  user_findMany_by_posts : Z -> M W (list AuthorCount)
}.

(** [p.post.published] and [p.post.views] on a junction row: reading a
    property of null throws a TypeError.  The callback of [filter] runs
    before that of [reduce], so the property that is read first is always
    [published]; the message is that of Node. *)
Definition TypeError : Err :=
  Error "Cannot read properties of null (reading 'published')".

Definition post_of_row (p : PostCategory * option PostStat) : option PostStat :=
  snd p.

(** [category.posts.filter(p => p.post.published).length] *)
Fixpoint count_published (rows : list (PostCategory * option PostStat))
  : option Z :=
  match rows with
  | [] => Some 0
  | p :: rest =>
      match post_of_row p, count_published rest with
      | Some s, Some n => Some (if stat_published s then n + 1 else n)
      | _, _ => None
      end
  end.

(** [category.posts.reduce((sum, p) => sum + p.post.views, 0)] *)
Fixpoint sum_views (sum : Z) (rows : list (PostCategory * option PostStat))
  : option Z :=
  match rows with
  | [] => Some sum
  | p :: rest =>
      match post_of_row p with
      | Some s => sum_views (sum + stat_views s) rest
      | None => None
      end
  end.

(** The callback of [categoryStats.map]; nothing when it throws. *)
Definition analytics_of (c : CategoryStats) : option CategoryAnalytics :=
  match count_published (cs_posts c), sum_views 0 (cs_posts c) with
  | Some published_, Some views_ =>
      Some {| category := category_name (cs_category c);
              totalPosts := Z.of_nat (List.length (cs_posts c));
              publishedPosts := published_;
              totalViews := views_ |}
  | _, _ => None
  end.

(** [categoryStats.map(...)]; the first callback that throws ends it. *)
Fixpoint map_analytics (cs : list CategoryStats) : option (list CategoryAnalytics) :=
  match cs with
  | [] => Some []
  | c :: rest =>
      match analytics_of c with
      | Some a =>
          match map_analytics rest with
          | Some l => Some (a :: l)
          | None => None
          end
      | None => None
      end
  end.

Section Handlers.

Context {W : Type} {relations : PrismaRelations W}.

(** [GET /api/users/:id] *)
Definition get_user (id : string) : M W (Response UserFull) :=
  TRY
    user <- user_findUnique (parseInt id) ;;
    match user with
    | None => ret (JsonError 404 "User not found")
    | Some user => ret (Json 200 user)
    end
  CATCH error =>
    ret (JsonError 500 (message error)).

(** [GET /api/analytics/posts] *)
Definition get_analytics : M W (Response Analytics) :=
  TRY
    categoryStats <- category_findMany ;;
    match map_analytics categoryStats with
    | None => throw TypeError
    | Some analytics =>
        topAuthors_ <- user_findMany_by_posts 5 ;;
        ret (Json 200 {| categoryAnalytics := analytics;
                         topAuthors := topAuthors_ |})
    end
  CATCH error =>
    ret (JsonError 500 (message error)).

End Handlers.

(** *** The two handlers on the store *)

Definition post_ref (p : Post) : PostRef :=
  {| ref_id := post_id p; ref_title := title p |}.

Definition comments_of_post (d : Db) (p : Post) : list CommentOfPost :=
  map (fun c => {| cp_comment := c;
                   cp_author := option_map author_sel (user_by_id d (comment_authorId c)) |})
      (filter (fun c => comment_postId c =? post_id p) (rows (comments d))).

Definition posts_of_user (d : Db) (uid : Z) : list PostOfUser :=
  map (fun p => {| pu_post := p;
                   pu_categories := categories_of d p;
                   pu_comments := comments_of_post d p |})
      (filter (fun p => authorId p =? uid) (rows (posts d))).

Definition comments_of_user (d : Db) (uid : Z) : list CommentOfUser :=
  map (fun c => {| cu_comment := c;
                   cu_post := option_map post_ref (post_by_id d (comment_postId c)) |})
      (filter (fun c => comment_authorId c =? uid) (rows (comments d))).

Definition user_full (d : Db) (u : User) : UserFull :=
  {| uf_user := u;
     uf_profile := profile_of d (user_id u);
     uf_posts := posts_of_user d (user_id u);
     uf_comments := comments_of_user d (user_id u) |}.

(** [user.findUnique] by id; an id outside the range of the key is the id
    of no row and is refused as an argument. *)
Definition mem_user_findUnique (id : jsnum) : M Db (option UserFull) :=
  fun d =>
    match as_int id with
    | None => (Throw (invalid "Invalid value for argument `id`"), d)
    | Some i =>
        match user_by_id d i with
        | Some u => (Ok (Some (user_full d u)), d)
        | None => if int32 i then (Ok None, d) else (Throw out_of_range, d)
        end
    end.

Definition post_stat (p : Post) : PostStat :=
  {| stat_id := post_id p; stat_views := views p; stat_published := published p |}.

Definition category_stats (d : Db) (c : Category) : CategoryStats :=
  {| cs_category := c;
     cs_posts :=
       map (fun pc => (pc, option_map post_stat (post_by_id d (postId pc))))
           (filter (fun pc => categoryId pc =? category_id c) (postCategories d)) |}.

Definition mem_category_findMany : M Db (list CategoryStats) :=
  fun d => (Ok (map (category_stats d) (rows (categories d))), d).

Definition author_count (d : Db) (u : User) : AuthorCount :=
  {| ac_id := user_id u;
     ac_name := name u;
     ac_email := email u;
     ac_count_posts :=
       len (filter (fun p => authorId p =? user_id u) (rows (posts d)));
     ac_count_comments :=
       len (filter (fun c => comment_authorId c =? user_id u) (rows (comments d))) |}.

(** The users by the count of their posts, most posts first, at most [take]
    of them.  The database leaves the order of users with as many posts
    open; here they keep the order of the table. *)
Definition mem_user_findMany_by_posts (take : Z) : M Db (list AuthorCount) :=
  fun d =>
    (Ok (firstn (Z.to_nat take)
           (sort_desc ac_count_posts (map (author_count d) (rows (users d))))), d).

#[export] Instance memory_relations : PrismaRelations Db := {|
  user_findUnique := mem_user_findUnique;
  category_findMany := mem_category_findMany;
  user_findMany_by_posts := mem_user_findMany_by_posts
|}.

End Relations.

Import Relations.

(* ===================================================================== *)
(** ** Notions to state what the lists return *)
(* ===================================================================== *)

(** The data array of an answer; none when the answer is an error. *)
Definition data_of {A} (o : Outcome (Response (Page A))) : list A :=
  match o with
  | Ok (Json _ pg) => data pg
  | _ => []
  end.

(** Newest first: no element is newer than one before it. *)
Definition newest_first {A} (time : A -> Z) (l : list A) : Prop :=
  StronglySorted (fun a b => time b <= time a) l.

(** *** The unfiltered list of posts, after the words of the spec *)

(** What a list returns with a post: its author as the three fields that
    are selected, its junction rows, each with its category, and the count
    of its comments. *)
Definition spec_with_relations (d : Db) (po : PostOut) : Prop :=
  po_author po = option_map author_sel (user_by_id d (authorId (po_post po))) /\
  map fst (po_categories po)
  = filter (fun pc => postId pc =? post_id (po_post po)) (postCategories d) /\
  Forall (fun e => snd e = category_by_id d (categoryId (fst e)))
         (po_categories po) /\
  po_count_comments po
  = len (filter (fun c => comment_postId c =? post_id (po_post po))
           (rows (comments d))).

(** Modelled from the spec: an unfiltered paginated list of posts, for the
    page number [p] and the limit [l].  All the posts of the store are laid
    out newest first; the page holds those from offset [(p - 1) * l] on, at
    most [l] of them, each with its relations; it reports the page and the
    limit, as total the number of all the posts, and as totalPages the
    least number of pages of [l] records that hold them all. *)
Definition spec_unfiltered_page (p l : Z) (d : Db) (pg : Page PostOut) : Prop :=
  exists all : list Post,
    Permutation all (rows (posts d)) /\
    newest_first createdAt all /\
    map po_post (data pg)
    = firstn (Z.to_nat l) (skipn (Z.to_nat ((p - 1) * l)) all) /\
    Forall (spec_with_relations d) (data pg) /\
    page (pagination pg) = JInt p /\
    limit (pagination pg) = JInt l /\
    total (pagination pg) = len (rows (posts d)) /\
    exists T,
      totalPages (pagination pg) = JInt T /\
      (T - 1) * l < len (rows (posts d)) <= T * l.

(** The query of the list with its empty filters left out. *)
Definition users_query_without_blanks (q : UsersQuery) : UsersQuery :=
  {| uq_page := uq_page q;
     uq_limit := uq_limit q;
     uq_include_profile := uq_include_profile q;
     uq_role := when_truthy (uq_role q);
     uq_search := when_truthy (uq_search q) |}.

(** The query of the search with its empty filters left out; the published
    parameter stays as it is. *)
Definition search_query_without_blanks (q : SearchQuery) : SearchQuery :=
  {| sq_q := when_truthy (sq_q q);
     sq_category := when_truthy (sq_category q);
     sq_author := when_truthy (sq_author q);
     sq_published := sq_published q;
     sq_min_views := when_truthy (sq_min_views q);
     sq_date_from := when_truthy (sq_date_from q);
     sq_date_to := when_truthy (sq_date_to q);
     sq_page := sq_page q;
     sq_limit := sq_limit q |}.

(** ** Notions to state what the writes leave *)

(** Between two stores, every table has the same rows. *)
Definition same_rows (d d' : Db) : Prop :=
  rows (users d') = rows (users d) /\
  rows (profiles d') = rows (profiles d) /\
  rows (posts d') = rows (posts d) /\
  rows (categories d') = rows (categories d) /\
  postCategories d' = postCategories d /\
  rows (comments d') = rows (comments d).

(** ** Notions to state what the analytics return *)

(** A junction row has its post, and the post is published. *)
Definition row_published (r : PostCategory * option PostStat) : bool :=
  match snd r with
  | Some s => stat_published s
  | None => false
  end.

(** The views of the post of a junction row. *)
Definition row_views (r : PostCategory * option PostStat) : Z :=
  match snd r with
  | Some s => stat_views s
  | None => 0
  end.

Definition sum_of (l : list Z) : Z := fold_right Z.add 0 l.

(** A category has a junction row without its post. *)
Definition has_null_post (c : CategoryStats) : Prop :=
  Exists (fun r => snd r = None) (cs_posts c).

(** What one element of [categoryAnalytics] says of its category. *)
Definition analytics_for (c : CategoryStats) (a : CategoryAnalytics) : Prop :=
  category a = category_name (cs_category c) /\
  totalPosts a = len (cs_posts c) /\
  publishedPosts a = len (filter row_published (cs_posts c)) /\
  0 <= publishedPosts a <= totalPosts a /\
  totalViews a = sum_of (map row_views (cs_posts c)).

(** The junction rows of a category in the store, and what the post of a
    junction row says. *)
Definition rows_of_category (d : Db) (c : Category) : list PostCategory :=
  filter (fun pc => categoryId pc =? category_id c) (postCategories d).

Definition published_post (d : Db) (pc : PostCategory) : bool :=
  match post_by_id d (postId pc) with
  | Some p => published p
  | None => false
  end.

Definition views_of_post (d : Db) (pc : PostCategory) : Z :=
  match post_by_id d (postId pc) with
  | Some p => views p
  | None => 0
  end.

(** The number of posts of a user in the store. *)
Definition posts_written (d : Db) (u : User) : Z :=
  len (filter (fun p => authorId p =? user_id u) (rows (posts d))).

(** ** Notions to state what the seed script leaves *)

(** A computation returns from a world, with a result and a world that
    satisfy [Q]. *)
Definition returns {A} (m : M World A) (w : World) (Q : A -> World -> Prop) : Prop :=
  exists a w', m w = (Ok a, w') /\ Q a w'.

(** Between two stores, the categories are the same; the posts, the junction
    rows and the comments are the same. *)
Definition categories_kept (d d' : Db) : Prop := categories d' = categories d.

Definition posts_kept (d d' : Db) : Prop :=
  posts d' = posts d /\ postCategories d' = postCategories d /\
  comments d' = comments d.

(** Every reference of a row leads to a row: the user of a profile, the
    author of a post, the post and the category of a junction row, the
    author and the post of a comment. *)
Definition references_hold (d : Db) : Prop :=
  Forall (fun p => user_by_id d (userId p) <> None) (rows (profiles d)) /\
  Forall (fun p => user_by_id d (authorId p) <> None) (rows (posts d)) /\
  Forall (fun pc => post_by_id d (postId pc) <> None /\
                    category_by_id d (categoryId pc) <> None)
         (postCategories d) /\
  Forall (fun c => user_by_id d (comment_authorId c) <> None /\
                   post_by_id d (comment_postId c) <> None)
         (rows (comments d)).

(** No post, junction row or comment has a key beyond the next values. *)
Definition post_keys_below (d : Db) : Prop :=
  Forall (fun p => post_id p < next (posts d)) (rows (posts d)) /\
  Forall (fun pc => postId pc < next (posts d)) (postCategories d) /\
  Forall (fun c => comment_id c < next (comments d)) (rows (comments d)).

(** The store while the posts are created: the users, the profiles and the
    categories are those that the phases before left. *)
Definition seeding (U : Table User) (Pr : Table Profile) (C : Table Category)
    (d : Db) : Prop :=
  users d = U /\ profiles d = Pr /\ categories d = C /\
  post_keys_below d /\ references_hold d.

(** Between two stores, the numbers of posts, of junction rows and of
    comments have grown by [np], [npc] and [nc]. *)
Definition grown (np npc nc : Z) (d d' : Db) : Prop :=
  len (rows (posts d')) = len (rows (posts d)) + np /\
  len (postCategories d') = len (postCategories d) + npc /\
  len (rows (comments d')) = len (rows (comments d)) + nc.

(** [n] posts more, each with one to three junction rows and at most five
    comments. *)
Definition grown_by (n : Z) (d d' : Db) : Prop :=
  exists npc nc, grown n npc nc d d' /\ n <= npc <= 3 * n /\ 0 <= nc <= 5 * n.

(** The numbers of the junction rows and of the comments of a post. *)
Definition categories_of_post (d : Db) (p : Post) : Z :=
  len (filter (fun pc => postId pc =? post_id p) (postCategories d)).

Definition comments_on_post (d : Db) (p : Post) : Z :=
  len (filter (fun c => comment_postId c =? post_id p) (rows (comments d))).

(** Every post has one to three junction rows and at most five comments. *)
Definition posts_furnished (d : Db) : Prop :=
  Forall (fun p => 1 <= categories_of_post d p <= 3 /\
                   0 <= comments_on_post d p <= 5)
         (rows (posts d)).

(** Between two stores, the post of the key [pid] has got [npc] junction
    rows and [nc] comments more, and the posts, the junction rows and the
    comments are otherwise the same. *)
Definition furnished (pid npc nc : Z) (d d' : Db) : Prop :=
  posts d' = posts d /\
  exists pcs cs,
    postCategories d' = postCategories d ++ pcs /\
    Forall (fun pc => postId pc = pid) pcs /\ len pcs = npc /\
    rows (comments d') = rows (comments d) ++ cs /\
    Forall (fun c => comment_postId c = pid) cs /\ len cs = nc.

(** The four categories of the seed script. *)
Definition seed_categories : list (string * option string) :=
  [("Technology", Some "#3B82F6"); ("Programming", Some "#10B981");
   ("Design", Some "#F59E0B"); ("Business", Some "#EF4444")]%string.

(** A user and a category that the script holds are rows of the tables. *)
Definition held_user (U : Table User) (u : User) : Prop :=
  find (fun x => user_id x =? user_id u) (rows U) <> None.

Definition held_category (C : Table Category) (c : Category) : Prop :=
  find (fun x => category_id x =? category_id c) (rows C) <> None.

(** What a complete run of the seed script reports and leaves: the four
    categories are there in the order in which the database served their
    creation. *)
Definition seeded (s : Seed.Stats) (d : Db) : Prop :=
  Seed.stat_users s = 10 /\ Seed.stat_profiles s = 10 /\
  Seed.stat_categories s = 4 /\
  10 <= Seed.stat_posts s <= 50 /\
  Seed.stat_posts s <= Seed.stat_postCategories s <= 3 * Seed.stat_posts s /\
  0 <= Seed.stat_comments s <= 5 * Seed.stat_posts s /\
  Seed.stat_users s = len (rows (users d)) /\
  Seed.stat_profiles s = len (rows (profiles d)) /\
  Seed.stat_categories s = len (rows (categories d)) /\
  Seed.stat_posts s = len (rows (posts d)) /\
  Seed.stat_postCategories s = len (postCategories d) /\
  Seed.stat_comments s = len (rows (comments d)) /\
  references_hold d /\
  posts_furnished d /\
  Permutation (map (fun c => (category_name c, color c)) (rows (categories d)))
    seed_categories /\
  NoDup (map category_id (rows (categories d))).
(* ===================================================================== *)
(** * Properties *)
(* ===================================================================== *)

(** The properties hold for every engine and for every database: what the
    engine makes of the forms of date that the language leaves to it, and
    how the database matches a text. *)
Section Properties.

Context {engine : Engine} {collation : Collation}.

(** ** The coercions on concrete strings *)

Example parseInt_ex1 : parseInt "42" = JInt 42. Proof. reflexivity. Qed.
Example parseInt_ex2 : parseInt " -17px" = JInt (-17). Proof. reflexivity. Qed.
Example parseInt_ex3 : parseInt "abc" = JNaN. Proof. reflexivity. Qed.
Example parseInt_ex4 : parseInt "0x1f" = JInt 31. Proof. reflexivity. Qed.
Example parseInt_ex5 : parseInt "20e-1" = JInt 20. Proof. reflexivity. Qed.
Example parseInt_ex6 : parseInt "9007199254740993" = JInt 9007199254740992.
Proof. vm_compute. reflexivity. Qed.
Example toNumber_ex1 : toNumber "42" = JInt 42. Proof. reflexivity. Qed.
Example toNumber_ex2 : toNumber "20e-1" = JInt 2. Proof. reflexivity. Qed.
Example toNumber_ex3 : toNumber "1.5" = JNum 15 1. Proof. reflexivity. Qed.
Example toNumber_ex4 : toNumber "12px" = JNaN. Proof. reflexivity. Qed.
Example toNumber_ex5 : toNumber "" = JInt 0. Proof. reflexivity. Qed.
Example toNumber_ex6 : toNumber " 7 " = JInt 7. Proof. reflexivity. Qed.
Example toNumber_ex7 : toNumber "-Infinity" = JInf true. Proof. reflexivity. Qed.
Example toNumber_ex8 : toNumber "." = JNaN. Proof. reflexivity. Qed.
Example toNumber_ex9 : toNumber "5." = JInt 5. Proof. reflexivity. Qed.
Example toNumber_ex10 : toNumber "1e400" = JInf false.
Proof. vm_compute. reflexivity. Qed.
Example toNumber_ex11 :
  jsub (toNumber "1.1") (JInt 1) = toNumber "0.10000000000000009".
Proof. vm_compute. reflexivity. Qed.
Example date_ex1 : Date_new "1970-01-02" = DateAt 86400000. Proof. reflexivity. Qed.
Example date_ex2 : Date_new "2024-02-29" = DateAt 1709164800000. Proof. reflexivity. Qed.

(** ** Numbers *)

Lemma as_int_JInt (z : Z) : as_int (JInt z) = Some z.
Proof.
  unfold as_int, pow10. simpl.
  rewrite Z.mod_1_r, Z.div_1_r. reflexivity.
Qed.

Lemma pow10_succ (k : nat) : pow10 (S k) = 10 * pow10 k.
Proof. unfold pow10. rewrite Nat2Z.inj_succ, Z.pow_succ_r by lia. reflexivity. Qed.

Lemma pow10_pos (k : nat) : 0 < pow10 k.
Proof. unfold pow10. apply Z.pow_pos_nonneg; lia. Qed.

(** A multiple of the power of ten is written as the integer it is. *)
Lemma lowest_integer (a : Z) (k : nat) : lowest (a * pow10 k) k = JInt a.
Proof.
  induction k as [|k IH]; cbn [lowest].
  - unfold pow10. cbn. rewrite Z.mul_1_r. reflexivity.
  - rewrite pow10_succ.
    replace (a * (10 * pow10 k)) with (a * pow10 k * 10) by lia.
    rewrite Z.mod_mul by lia. cbn [Z.eqb].
    rewrite Z.div_mul by lia. exact IH.
Qed.

Lemma lowest_ceil (m : Z) (k : nat) : Math_ceil (lowest m k) = Math_ceil (JNum m k).
Proof.
  revert m. induction k as [|k IH]; intros m; cbn [lowest]; [reflexivity|].
  destruct (Z.eqb_spec (m mod 10) 0) as [E|_]; [|reflexivity].
  rewrite IH. cbn [Math_ceil]. do 2 f_equal.
  rewrite pow10_succ.
  assert (Hm : m = 10 * (m / 10)).
  { pose proof (Z.div_mod m 10 ltac:(lia)). lia. }
  rewrite Hm at 2.
  replace (- (10 * (m / 10))) with (10 * (- (m / 10))) by lia.
  pose proof (pow10_pos k).
  rewrite Z.div_mul_cancel_l by lia. reflexivity.
Qed.

Lemma two_five (j : Z) : 0 <= j -> 2 ^ j * 5 ^ j = 10 ^ j.
Proof. intros H. rewrite <- Z.pow_mul_l. reflexivity. Qed.

(** The binade, from below. *)
Lemma binade_reaches (a b : Z) : 0 < a -> 0 < b -> reaches a b (binade a b) = true.
Proof.
  intros Ha Hb. unfold binade. cbv zeta.
  destruct (reaches a b (Z.log2 a - Z.log2 b)) eqn:E; [exact E|].
  pose proof (Z.log2_spec a Ha) as [La _].
  pose proof (Z.log2_spec b Hb) as [_ Lb].
  pose proof (Z.log2_nonneg a). pose proof (Z.log2_nonneg b).
  set (la := Z.log2 a) in *. set (lb := Z.log2 b) in *.
  unfold reaches.
  destruct (Z.leb_spec 0 (la - lb - 1)) as [Ht|Ht].
  - apply Z.leb_le.
    assert (E2 : 2 ^ la = 2 ^ (la - lb - 1) * 2 ^ Z.succ lb).
    { rewrite <- Z.pow_add_r by lia. f_equal; lia. }
    assert (0 < 2 ^ (la - lb - 1)) by (apply Z.pow_pos_nonneg; lia).
    nia.
  - apply Z.leb_le.
    assert (E2 : 2 ^ Z.succ lb = 2 ^ la * 2 ^ (- (la - lb - 1))).
    { rewrite <- Z.pow_add_r by lia. f_equal; lia. }
    assert (0 < 2 ^ la) by (apply Z.pow_pos_nonneg; lia).
    assert (0 < 2 ^ (- (la - lb - 1))) by (apply Z.pow_pos_nonneg; lia).
    nia.
Qed.

(** Below 2^53 the exponent of the significand is not positive. *)
Lemma binade_small (a b : Z) :
  0 < a < 2 ^ 53 -> 0 < b -> binade a b <= 52.
Proof.
  intros Ha Hb. pose proof (binade_reaches a b ltac:(lia) Hb) as H.
  unfold reaches in H.
  destruct (Z.leb_spec 0 (binade a b)) as [Ht|Ht]; [|lia].
  apply Z.leb_le in H.
  destruct (Z.le_gt_cases (binade a b) 52) as [|Hgt]; [assumption|exfalso].
  assert (2 ^ 53 <= 2 ^ binade a b) by (apply Z.pow_le_mono_r; lia).
  nia.
Qed.

Lemma nearest_integer (a : Z) : 0 < a < 2 ^ 53 -> nearest a 1 = JInt a.
Proof.
  intros Ha. unfold nearest. cbv zeta.
  pose proof (binade_small a 1 Ha ltac:(lia)) as Hb.
  set (e := Z.max (binade a 1 - 52) (-1074)).
  assert (He : e <= 0) by (unfold e; lia).
  destruct (Z.ltb_spec 0 e) as [|_]; [lia|].
  rewrite Z.div_1_r, Z.mod_1_r. cbn [Z.mul Z.ltb Z.compare orb Z.eqb andb].
  rewrite <- Z.mul_assoc, two_five by lia.
  replace (10 ^ (- e)) with (pow10 (Z.to_nat (- e)))
    by (unfold pow10; rewrite Z2Nat.id by lia; reflexivity).
  apply lowest_integer.
Qed.

Lemma of_Z_integer (z : Z) : Z.abs z <= 2 ^ 53 -> of_Z z = JInt z.
Proof.
  intros Hz. unfold of_Z, double_of.
  destruct (Z.eqb_spec z 0) as [->|Hne]; [reflexivity|].
  destruct (Z.ltb_spec 0 z) as [Hpos|Hneg].
  - destruct (Z.eq_dec z (2 ^ 53)) as [->|Hlt]; [vm_compute; reflexivity|].
    apply nearest_integer. lia.
  - destruct (Z.eq_dec (- z) (2 ^ 53)) as [E|Hlt].
    + rewrite E. replace z with (- 2 ^ 53) by lia. vm_compute. reflexivity.
    + rewrite nearest_integer by lia. cbn [negated]. f_equal. lia.
Qed.

Lemma pow10_0 : pow10 0 = 1.
Proof. reflexivity. Qed.

Lemma jsub_int (a b : Z) :
  Z.abs (a - b) <= 2 ^ 53 -> jsub (JInt a) (JInt b) = JInt (a - b).
Proof.
  intros H. unfold jsub. cbn [Nat.add]. rewrite pow10_0, !Z.mul_1_r.
  apply of_Z_integer. exact H.
Qed.

Lemma jmul_int (a b : Z) :
  Z.abs (a * b) <= 2 ^ 53 -> jmul (JInt a) (JInt b) = JInt (a * b).
Proof.
  intros H. unfold jmul. cbn [Nat.add]. rewrite pow10_0.
  apply of_Z_integer. exact H.
Qed.

(** The offset of a page: [(page - 1) * limit] on integers. *)
Lemma skip_int (p l : Z) :
  Z.abs (p - 1) <= 2 ^ 53 -> Z.abs ((p - 1) * l) <= 2 ^ 53 ->
  jmul (jsub (JInt p) (JInt 1)) (JInt l) = JInt ((p - 1) * l).
Proof. intros H1 H2. rewrite jsub_int, jmul_int by assumption. reflexivity. Qed.

Lemma ceil_fraction (N D c : Z) :
  0 < D -> (c - 1) * D < N <= c * D -> - ((- N) / D) = c.
Proof.
  intros HD H.
  pose proof (Z.div_mod (- N) D ltac:(lia)) as E.
  pose proof (Z.mod_pos_bound (- N) D HD) as B.
  nia.
Qed.

Lemma binade_from (a b : Z) : 0 < a -> 0 < b < 2 ^ 53 -> -53 <= binade a b.
Proof.
  intros Ha Hb. unfold binade. cbv zeta.
  pose proof (Z.log2_nonneg a).
  assert (Z.log2 b < 53) by (apply Z.log2_lt_pow2; lia).
  destruct (reaches a b _); lia.
Qed.

(** The significand of a fraction below 2^53 has 53 bits. *)
Lemma significand_from (a b : Z) :
  0 < a -> 0 < b -> binade a b <= 52 ->
  2 ^ 52 * b <= a * 2 ^ (52 - binade a b).
Proof.
  intros Ha Hb Ht. pose proof (binade_reaches a b Ha Hb) as H.
  unfold reaches in H. set (t := binade a b) in *.
  destruct (Z.leb_spec 0 t) as [H0|H0]; apply Z.leb_le in H.
  - assert (E : 2 ^ 52 = 2 ^ t * 2 ^ (52 - t)).
    { rewrite <- Z.pow_add_r by lia. f_equal; lia. }
    assert (0 < 2 ^ (52 - t)) by (apply Z.pow_pos_nonneg; lia).
    rewrite E. nia.
  - assert (E : 2 ^ (52 - t) = 2 ^ 52 * 2 ^ (- t)).
    { rewrite <- Z.pow_add_r by lia. f_equal; lia. }
    rewrite E. nia.
Qed.

(** Rounding the quotient of two integers below 2^53 does not move it past
    an integer: its ceiling is the ceiling of the exact quotient. *)
Lemma ceil_nearest (n l : Z) :
  0 < n < 2 ^ 53 -> 0 < l < 2 ^ 53 ->
  Math_ceil (nearest n l) = JInt ((n + l - 1) / l).
Proof.
  intros Hn Hl. unfold nearest. cbv zeta.
  pose proof (binade_small n l Hn ltac:(lia)) as Hb.
  pose proof (binade_from n l ltac:(lia) Hl) as Hf.
  pose proof (significand_from n l ltac:(lia) ltac:(lia) Hb) as Hs.
  replace (Z.max (binade n l - 52) (-1074)) with (binade n l - 52) by lia.
  destruct (Z.ltb_spec 0 (binade n l - 52)) as [|_]; [lia|].
  replace (- (binade n l - 52)) with (52 - binade n l) by lia.
  set (E := 52 - binade n l) in *.
  assert (HE : 0 <= E) by (unfold E; lia).
  set (S := 2 ^ E) in *.
  assert (HS : 0 < S) by (apply Z.pow_pos_nonneg; lia).
  rewrite lowest_ceil. cbn [Math_ceil]. f_equal.
  set (c := (n + l - 1) / l).
  assert (Hc : (c - 1) * l < n <= c * l).
  { unfold c. pose proof (Z.div_mod (n + l - 1) l ltac:(lia)) as Ed.
    pose proof (Z.mod_pos_bound (n + l - 1) l ltac:(lia)) as Bd. nia. }
  pose proof (Z.div_mod (n * S) l ltac:(lia)) as Eq.
  pose proof (Z.mod_pos_bound (n * S) l ltac:(lia)) as Bq.
  set (q := n * S / l) in *. set (r := (n * S) mod l) in *.
  assert (Hq : 2 ^ 52 <= q) by nia.
  assert (Hup : q <= c * S) by nia.
  assert (Hlow : (c - 1) * S <= q) by nia.
  assert (H5 : 0 < 5 ^ E) by (apply Z.pow_pos_nonneg; lia).
  assert (HD : pow10 (Z.to_nat E) = S * 5 ^ E).
  { unfold pow10, S. rewrite Z2Nat.id by lia. symmetry. apply two_five. exact HE. }
  rewrite HD.
  apply ceil_fraction; [nia|].
  assert (Hq' : (c - 1) * S <
                (if (l <? 2 * r) || ((2 * r =? l) && Z.odd q) then q + 1 else q)
                <= c * S).
  { destruct (Z.ltb_spec l (2 * r)) as [Hr|Hr]; cbn [orb].
    - split; [lia|]. destruct (Z.eq_dec q (c * S)) as [Eqc|]; [|lia]. nia.
    - assert (Hne : (c - 1) * S <> q).
      { intros Ek. assert (0 < c - 1) by nia.
        assert (r = (n - (c - 1) * l) * S) by nia.
        assert (l < 2 * S) by nia. nia. }
      destruct (Z.eqb_spec (2 * r) l) as [Etie|_]; cbn [andb]; [|lia].
      destruct (Z.odd q); [|lia].
      split; [lia|]. destruct (Z.eq_dec q (c * S)) as [Eqc|]; [|lia].
      exfalso. nia. }
  nia.
Qed.

(** [Math.ceil(n / l)] for a positive [l] is the least [t] with [n <= t * l]. *)
Lemma ceil_div_pos (n l : Z) :
  0 <= n < 2 ^ 53 -> 0 < l < 2 ^ 53 ->
  ceil_div n (JInt l) = JInt ((n + l - 1) / l).
Proof.
  intros Hn Hl. unfold ceil_div. rewrite of_Z_integer by lia.
  unfold jdiv. rewrite pow10_0, !Z.mul_1_r.
  destruct (Z.eqb_spec l 0) as [|_]; [lia|].
  destruct (Z.ltb_spec 0 l) as [_|]; [|lia].
  unfold double_of.
  destruct (Z.eqb_spec n 0) as [->|Hne].
  - cbn [Math_ceil]. rewrite pow10_0, (Z.div_small (0 + l - 1) l) by lia. reflexivity.
  - destruct (Z.ltb_spec 0 n) as [_|]; [|lia].
    apply ceil_nearest; lia.
Qed.

Lemma ceil_bounds (n l : Z) :
  0 < l -> n <= ((n + l - 1) / l) * l /\ ((n + l - 1) / l - 1) * l < n.
Proof.
  intros Hl.
  assert (Hne : l <> 0) by lia.
  pose proof (Z.div_mod (n + l - 1) l Hne) as E.
  pose proof (Z.mod_pos_bound (n + l - 1) l Hl) as B.
  nia.
Qed.

Lemma nearest_large (a : Z) :
  2 ^ 53 <= a -> (exists z, nearest a 1 = JInt z) \/ nearest a 1 = JInf false.
Proof.
  intros Ha. unfold nearest. cbv zeta.
  assert (Hb : 53 <= binade a 1).
  { unfold binade, reaches. cbv zeta. change (Z.log2 1) with 0. rewrite Z.sub_0_r.
    assert (53 <= Z.log2 a).
    { change 53 with (Z.log2 (2 ^ 53)). apply Z.log2_le_mono. exact Ha. }
    destruct (Z.leb_spec 0 (Z.log2 a)) as [_|]; [|lia].
    pose proof (Z.log2_spec a ltac:(lia)) as [L _].
    destruct (Z.leb_spec (1 * 2 ^ Z.log2 a) a); lia. }
  destruct (Z.ltb_spec 0 (Z.max (binade a 1 - 52) (-1074))) as [_|]; [|lia].
  destruct (_ <=? _); [right; reflexivity|left; eexists; reflexivity].
Qed.

(** An integer of any size becomes an integer or an infinity. *)
Lemma of_Z_integer_or_infinite (z : Z) :
  (exists z', of_Z z = JInt z') \/ (exists b, of_Z z = JInf b).
Proof.
  unfold of_Z, double_of.
  destruct (Z.eqb_spec z 0) as [|Hne]; [left; eexists; reflexivity|].
  destruct (Z.ltb_spec 0 z) as [Hpos|Hneg].
  - destruct (Z.lt_ge_cases z (2 ^ 53)) as [Hs|Hs].
    + left. exists z. apply nearest_integer. lia.
    + destruct (nearest_large z Hs) as [[z' E]|E]; rewrite E;
        [left|right]; eexists; reflexivity.
  - destruct (Z.lt_ge_cases (- z) (2 ^ 53)) as [Hs|Hs].
    + left. rewrite nearest_integer by lia. eexists. reflexivity.
    + destruct (nearest_large (- z) Hs) as [[z' E]|E]; rewrite E;
        [left|right]; eexists; reflexivity.
Qed.

Lemma parseInt_integer_or_NaN (s : string) :
  parseInt s = JNaN \/ (exists b, parseInt s = JInf b) \/
  exists z, parseInt s = JInt z.
Proof.
  unfold parseInt.
  destruct (read_sign (trim_start s)) as [neg s1].
  destruct (match s1 with
            | String "0" (String "x" r) | String "0" (String "X" r) => (16, r)
            | _ => (10, s1)
            end) as [radix s2].
  destruct (read_digits radix s2) as [[|x xs] rest]; [left; reflexivity|].
  right. destruct (of_Z_integer_or_infinite (signed neg (digits_value radix (x :: xs))))
    as [[z E]|[b E]]; rewrite E; [right|left]; eexists; reflexivity.
Qed.

(** ** Windows of a list *)

Lemma window_int {A} (s t : Z) (l : list A) :
  0 <= s -> 0 <= t ->
  window (JInt s) (JInt t) l = Some (firstn (Z.to_nat t) (skipn (Z.to_nat s) l)).
Proof.
  intros Hs Ht. unfold window. rewrite !as_int_JInt.
  destruct (Z.ltb_spec s 0); [lia|].
  destruct (Z.leb_spec 0 t); [reflexivity|lia].
Qed.

Lemma window_beyond {A} (s t : Z) (l : list A) :
  len l <= s -> 0 <= t -> window (JInt s) (JInt t) l = Some [].
Proof.
  intros Hs Ht. unfold len in Hs.
  rewrite window_int by lia.
  rewrite skipn_all2 by lia. rewrite firstn_nil. reflexivity.
Qed.


(** ** Order *)

Lemma insert_desc_length {A} (key : A -> Z) (x : A) (l : list A) :
  List.length (insert_desc key x l) = S (List.length l).
Proof.
  induction l as [|y l IH]; simpl; [reflexivity|].
  destruct (key y <=? key x); simpl; [reflexivity|].
  rewrite IH. reflexivity.
Qed.

Lemma sort_desc_length {A} (key : A -> Z) (l : list A) :
  List.length (sort_desc key l) = List.length l.
Proof.
  induction l as [|x l IH]; [reflexivity|].
  change (sort_desc key (x :: l)) with (insert_desc key x (sort_desc key l)).
  rewrite insert_desc_length, IH. reflexivity.
Qed.

Lemma len_sort_desc {A} (key : A -> Z) (l : list A) :
  len (sort_desc key l) = len l.
Proof. unfold len. rewrite sort_desc_length. reflexivity. Qed.

Lemma insert_desc_In {A} (key : A -> Z) (x y : A) (l : list A) :
  In y (insert_desc key x l) -> y = x \/ In y l.
Proof.
  induction l as [|z l IH]; simpl.
  - intros [->|[]]. left; reflexivity.
  - destruct (key z <=? key x); simpl.
    + intros [->|[->|H]]; auto.
    + intros [->|H]; auto. destruct (IH H); auto.
Qed.

Lemma sort_desc_In {A} (key : A -> Z) (y : A) (l : list A) :
  In y (sort_desc key l) -> In y l.
Proof.
  induction l as [|x l IH]; [simpl; tauto|].
  change (sort_desc key (x :: l)) with (insert_desc key x (sort_desc key l)).
  intros H. apply insert_desc_In in H. destruct H as [->|H]; simpl; auto.
Qed.

Lemma In_firstn {A} (n : nat) (l : list A) (y : A) :
  In y (firstn n l) -> In y l.
Proof.
  revert l. induction n as [|n IH]; intros [|x l]; simpl; try tauto.
  intros [->|H]; auto.
Qed.

Lemma In_skipn {A} (n : nat) (l : list A) (y : A) :
  In y (skipn n l) -> In y l.
Proof.
  revert l. induction n as [|n IH]; intros [|x l]; simpl; try tauto.
  intros H. right. apply IH. exact H.
Qed.

Lemma window_In {A} (s t : jsnum) (l w : list A) (y : A) :
  window s t l = Some w -> In y w -> In y l.
Proof.
  unfold window.
  destruct (as_int s) as [s'|]; [|discriminate].
  destruct (as_int t) as [t'|]; [|discriminate].
  destruct (s' <? 0); [discriminate|].
  destruct (0 <=? t'); intros E; inversion E; subst; clear E; intros H.
  - apply In_firstn in H. eapply In_skipn; eauto.
  - apply in_rev in H. apply In_firstn in H.
    apply In_skipn in H. apply in_rev in H. exact H.
Qed.

(** ** The list endpoints on the store *)

(** What [GET /api/users] answers on the store. *)
Lemma get_users_eq (q : UsersQuery) (d : Db) :
  get_users q d =
  let page_s := or_default (uq_page q) "1" in
  let limit_s := or_default (uq_limit q) "10" in
  let inc := match uq_include_profile q with
             | Some s => String.eqb s "true"
             | None => false
             end in
  match user_filter (users_where (uq_role q) (uq_search q)) with
  | None => (Ok (JsonError 500 "Invalid value for argument `role`"), d)
  | Some f =>
      match window (jmul (jsub (toNumber page_s) (JInt 1)) (toNumber limit_s))
              (parseInt limit_s)
              (sort_desc user_createdAt (filter f (rows (users d)))) with
      | None => (Ok (JsonError 500 "Invalid value for argument `skip` or `take`"), d)
      | Some us =>
          (Ok (Json 200
             {| data := map (user_out inc d) us;
                pagination :=
                  {| page := parseInt page_s;
                     limit := parseInt limit_s;
                     total := len (filter f (rows (users d)));
                     totalPages :=
                       ceil_div (len (filter f (rows (users d)))) (parseInt limit_s) |} |}),
           d)
      end
  end.
Proof.
  unfold get_users, try_catch, bind. cbn -[toNumber parseInt users_where window user_filter].
  unfold mem_user_findMany, mem_user_count.
  cbn -[toNumber parseInt users_where window user_filter].
  destruct (user_filter (users_where (uq_role q) (uq_search q))); [|reflexivity].
  destruct (window _ _ _); reflexivity.
Qed.

(** What [GET /api/posts/search] answers on the store. *)
Lemma search_posts_eq (q : SearchQuery) (d : Db) :
  search_posts q d =
  let page_s := or_default (sq_page q) "1" in
  let limit_s := or_default (sq_limit q) "10" in
  match post_filter d (search_where q) with
  | None => (Ok (JsonError 500 "Invalid value in argument `where`"), d)
  | Some f =>
      match window (jmul (jsub (toNumber page_s) (JInt 1)) (toNumber limit_s))
              (parseInt limit_s)
              (sort_desc createdAt (filter f (rows (posts d)))) with
      | None => (Ok (JsonError 500 "Invalid value for argument `skip` or `take`"), d)
      | Some ps =>
          (Ok (Json 200
             {| data := map (post_out d) ps;
                pagination :=
                  {| page := parseInt page_s;
                     limit := parseInt limit_s;
                     total := len (filter f (rows (posts d)));
                     totalPages :=
                       ceil_div (len (filter f (rows (posts d)))) (parseInt limit_s) |} |}),
           d)
      end
  end.
Proof.
  unfold search_posts, try_catch, bind. cbn -[toNumber parseInt search_where window post_filter].
  unfold mem_post_findMany, mem_post_count.
  cbn -[toNumber parseInt search_where window post_filter].
  destruct (post_filter d (search_where q)) eqn:E; [|reflexivity].
  destruct (window _ _ _); [|reflexivity].
  rewrite E. reflexivity.
Qed.

(** ** Pagination *)

Lemma beyond_last_page {A} (L : list A) (l p : Z) :
  0 < l -> (len L + l - 1) / l < p ->
  window (JInt ((p - 1) * l)) (JInt l) L = Some [].
Proof.
  intros Hl Hp. apply window_beyond; [|lia].
  destruct (ceil_bounds (len L) l Hl) as [Hle _]. nia.
Qed.

Lemma len_filter_le {A} (f : A -> bool) (L : list A) :
  0 <= len (filter f L) <= len L.
Proof.
  unfold len. split; [lia|].
  induction L as [|x L IH]; simpl; [lia|].
  destruct (f x); simpl; lia.
Qed.

(** C2 (amended). On [GET /api/users] and on [GET /api/posts/search], for
    every filter and for a limit that both coercions read as the same
    integer [l] from 1 to 2147483647, on tables of fewer than 2^53 rows:
    whenever a page is answered, page 1 included, its total is the count of
    the records the where clause selects and its totalPages is the ceiling
    of total / limit; a page number beyond that last page, whose offset is
    at most 2147483647, is answered with an empty data array and the same
    total and totalPages; and page 1 is answered whenever the query layer
    accepts the where clause. *)
Theorem pagination_of_lists
    (d : Db) (limit_param : option string) (page_s : string) (l p : Z) :
  toNumber (or_default limit_param "10"%string) = JInt l ->
  parseInt (or_default limit_param "10"%string) = JInt l ->
  0 < l <= 2147483647 ->
  toNumber page_s = JInt p ->
  (p - 1) * l <= 2147483647 ->
  len (rows (users d)) < 2 ^ 53 ->
  len (rows (posts d)) < 2 ^ 53 ->
  (forall page_param include role search answered,
      fst (get_users (mkUsersQuery page_param limit_param include role search) d)
      = Ok (Json 200 answered) ->
      exists f T,
        user_filter (users_where role search) = Some f /\
        total (pagination answered) = len (filter f (rows (users d))) /\
        totalPages (pagination answered) = JInt T /\
        (T - 1) * l < total (pagination answered) <= T * l /\
        (T < p ->
         exists beyond,
           fst (get_users (mkUsersQuery (Some page_s) limit_param include role search) d)
           = Ok (Json 200 beyond) /\
           data beyond = [] /\
           total (pagination beyond) = total (pagination answered) /\
           totalPages (pagination beyond) = totalPages (pagination answered)))
  /\
  (forall page_param q category author published min_views date_from date_to
          answered,
      fst (search_posts
             (mkSearchQuery q category author published min_views date_from date_to
                page_param limit_param) d)
      = Ok (Json 200 answered) ->
      exists f T,
        post_filter d
          (search_where
             (mkSearchQuery q category author published min_views date_from date_to
                page_param limit_param)) = Some f /\
        total (pagination answered) = len (filter f (rows (posts d))) /\
        totalPages (pagination answered) = JInt T /\
        (T - 1) * l < total (pagination answered) <= T * l /\
        (T < p ->
         exists beyond,
           fst (search_posts
                  (mkSearchQuery q category author published min_views date_from
                     date_to (Some page_s) limit_param) d)
           = Ok (Json 200 beyond) /\
           data beyond = [] /\
           total (pagination beyond) = total (pagination answered) /\
           totalPages (pagination beyond) = totalPages (pagination answered)))
  /\
  (forall include role search f,
      user_filter (users_where role search) = Some f ->
      exists first,
        fst (get_users
               (mkUsersQuery (Some "1"%string) limit_param include role search) d)
        = Ok (Json 200 first))
  /\
  (forall q category author published min_views date_from date_to f,
      post_filter d
        (search_where
           (mkSearchQuery q category author published min_views date_from date_to
              (Some "1"%string) limit_param)) = Some f ->
      exists first,
        fst (search_posts
               (mkSearchQuery q category author published min_views date_from
                  date_to (Some "1"%string) limit_param) d)
        = Ok (Json 200 first)).
Proof.
  intros Hn Hi Hl Hp Hskip Husers Hposts.
  assert (H53 : 2147483647 < 2 ^ 53) by (vm_compute; reflexivity).
  split; [|split; [|split]].
  - intros page_param include role search answered H.
    rewrite get_users_eq in H.
    cbn [uq_page uq_limit uq_include_profile uq_role uq_search] in H.
    cbv zeta in H. rewrite Hi in H.
    destruct (user_filter (users_where role search)) as [f|] eqn:Ef;
      [|discriminate].
    destruct (window _ _ _) as [us|]; [|discriminate].
    pose proof (len_filter_le f (rows (users d))) as Hf.
    rewrite ceil_div_pos in H by lia.
    cbn [fst] in H. injection H as <-.
    exists f, ((len (filter f (rows (users d))) + l - 1) / l).
    cbn [pagination total totalPages data].
    destruct (ceil_bounds (len (filter f (rows (users d)))) l) as [B1 B2]; [lia|].
    repeat split; try lia.
    intros Hbeyond.
    rewrite get_users_eq.
    cbn [uq_page uq_limit uq_include_profile uq_role uq_search or_default].
    rewrite Ef, Hp, Hn, Hi, skip_int by nia.
    rewrite beyond_last_page; [| lia | rewrite len_sort_desc; exact Hbeyond].
    rewrite ceil_div_pos by lia.
    eexists. split; [reflexivity|].
    cbn [pagination total totalPages data map]. repeat split.
  - intros page_param q category author published min_views date_from date_to
           answered H.
    rewrite search_posts_eq in H.
    cbn [sq_page sq_limit] in H.
    cbv zeta in H. rewrite Hi in H.
    match type of H with
    | context [post_filter d ?w] => destruct (post_filter d w) as [f|] eqn:Ef
    end; [|discriminate].
    destruct (window _ _ _) as [ps|]; [|discriminate].
    pose proof (len_filter_le f (rows (posts d))) as Hf.
    rewrite ceil_div_pos in H by lia.
    cbn [fst] in H. injection H as <-.
    exists f, ((len (filter f (rows (posts d))) + l - 1) / l).
    cbn [pagination total totalPages data].
    destruct (ceil_bounds (len (filter f (rows (posts d)))) l) as [B1 B2]; [lia|].
    repeat split; try lia.
    intros Hbeyond.
    rewrite search_posts_eq.
    cbn [sq_page sq_limit or_default].
    assert (Ew : search_where
                   (mkSearchQuery q category author published min_views date_from
                      date_to (Some page_s) limit_param)
                 = search_where
                     (mkSearchQuery q category author published min_views date_from
                        date_to page_param limit_param)) by reflexivity.
    rewrite Ew, Ef, Hp, Hn, Hi, skip_int by nia.
    rewrite beyond_last_page; [| lia | rewrite len_sort_desc; exact Hbeyond].
    rewrite ceil_div_pos by lia.
    eexists. split; [reflexivity|].
    cbn [pagination total totalPages data map]. repeat split.
  - intros include role search f Ef.
    rewrite get_users_eq.
    cbn [uq_page uq_limit uq_include_profile uq_role uq_search or_default].
    change (toNumber "1"%string) with (JInt 1).
    rewrite Ef, Hn, Hi, skip_int, window_int by (cbn; lia).
    eexists. reflexivity.
  - intros q category author published min_views date_from date_to f Ef.
    rewrite search_posts_eq.
    cbn [sq_page sq_limit or_default].
    change (toNumber "1"%string) with (JInt 1).
    rewrite Ef, Hn, Hi, skip_int, window_int by (cbn; lia).
    eexists. reflexivity.
Qed.

(** ** The search *)

Lemma filter_all {A} (f : A -> bool) (l : list A) :
  (forall x, f x = true) -> filter f l = l.
Proof.
  intros H. induction l as [|x l IH]; simpl; [reflexivity|].
  rewrite H, IH. reflexivity.
Qed.

Lemma search_data_selected (q : SearchQuery) (d : Db) (st : Z) (pg : Page PostOut) :
  fst (search_posts q d) = Ok (Json st pg) ->
  Forall (fun po => In (po_post po) (rows (posts d)) /\
                    post_matches d (search_where q) (po_post po) = true)
         (data pg).
Proof.
  rewrite search_posts_eq. cbv zeta. unfold post_filter.
  destruct (post_where_ok (search_where q)); [|discriminate].
  destruct (window _ _ _) as [ps|] eqn:Ew; [|discriminate].
  cbn [fst]. intros H. injection H as _ <-. cbn [data].
  apply Forall_forall. intros po Hpo.
  apply in_map_iff in Hpo. destruct Hpo as [p0 [<- Hp0]].
  cbn [po_post post_out].
  eapply window_In in Hp0; [|exact Ew].
  apply sort_desc_In in Hp0. apply filter_In in Hp0. exact Hp0.
Qed.

Lemma post_matches_published (d : Db) (w : PostWhere) (b : bool) (p : Post) :
  where_published w = Some b -> post_matches d w p = true -> published p = b.
Proof.
  unfold post_matches. intros E H. rewrite E in H. cbn [opt_test] in H.
  repeat (apply andb_prop in H; destruct H as [H ?]).
  match goal with
  | Hb : Bool.eqb (published p) b = true |- _ => apply Bool.eqb_prop in Hb; exact Hb
  end.
Qed.

(** C9. On [GET /api/posts/search], a published parameter that is present
    makes the where clause ask for published equal to (parameter = 'true'):
    every post returned has that value of the flag, so that any present value
    other than the exact string 'true' returns unpublished posts only; and
    only an absent parameter leaves the flag out of the where clause, which
    then selects a post whatever its flag. *)
Theorem published_filter (q : SearchQuery) :
  (forall s, sq_published q = Some s ->
     where_published (search_where q) = Some (String.eqb s "true") /\
     (forall (d : Db) st pg,
         fst (search_posts q d) = Ok (Json st pg) ->
         Forall (fun po => published (po_post po) = String.eqb s "true") (data pg)) /\
     (s <> "true"%string ->
      forall (d : Db) st pg,
        fst (search_posts q d) = Ok (Json st pg) ->
        Forall (fun po => published (po_post po) = false) (data pg)))
  /\
  (where_published (search_where q) = None <-> sq_published q = None)
  /\
  (sq_published q = None ->
   forall (d : Db) p b,
     post_matches d (search_where q) (with_published b p)
     = post_matches d (search_where q) p).
Proof.
  split; [|split].
  - intros s Hs.
    assert (Hw : where_published (search_where q) = Some (String.eqb s "true")).
    { unfold search_where. cbn [where_published]. rewrite Hs. reflexivity. }
    assert (Hall : forall (d : Db) st pg,
               fst (search_posts q d) = Ok (Json st pg) ->
               Forall (fun po => published (po_post po) = String.eqb s "true")
                      (data pg)).
    { intros d st pg H. apply search_data_selected in H.
      eapply Forall_impl; [|exact H].
      intros po [_ Hm]. cbv beta in Hm.
      eapply post_matches_published; eauto. }
    split; [exact Hw|]. split; [exact Hall|].
    intros Hne d st pg H.
    destruct (String.eqb_spec s "true") as [->|_]; [contradiction|].
    eapply Hall; eauto.
  - unfold search_where. cbn [where_published].
    destruct (sq_published q); split; intros H; try reflexivity; discriminate.
  - intros Hnone d p b.
    unfold post_matches.
    assert (Hw : where_published (search_where q) = None).
    { unfold search_where. cbn [where_published]. rewrite Hnone. reflexivity. }
    rewrite Hw. reflexivity.
Qed.

(** ** Finding rows *)

Lemma find_uncaught {A} (test : A -> bool) (l : list A) :
  (forall x, In x l -> test x = false) -> find test l = None.
Proof.
  induction l as [|y l IH]; simpl; intros H; [reflexivity|].
  rewrite (H y) by auto. apply IH. intros x Hx. apply H. auto.
Qed.

Lemma find_caught {A} (test : A -> bool) (l : list A) (x : A) :
  In x l -> test x = true -> has (find test l) = true.
Proof.
  intros Hin Ht. destruct (find test l) eqn:E; [reflexivity|].
  rewrite (find_none _ _ E x Hin) in Ht. discriminate.
Qed.

Lemma find_replace_row {A} (test : A -> bool) (r x : A) (l : list A) :
  find test l = Some x -> test r = true ->
  find test (replace_row test r l) = Some r.
Proof.
  intros Hf Hr. induction l as [|y l IH]; simpl in *; [discriminate|].
  destruct (test y) eqn:Ey.
  - rewrite Hr. reflexivity.
  - rewrite Ey. apply IH. exact Hf.
Qed.

Lemma find_last {A} (test : A -> bool) (l : list A) (x : A) :
  find test l = None -> test x = true -> find test (l ++ [x]) = Some x.
Proof.
  intros Hn Hx. induction l as [|y l IH]; simpl in *.
  - rewrite Hx. reflexivity.
  - destruct (test y); [discriminate|]. apply IH. exact Hn.
Qed.

Lemma find_last_miss {A} (test : A -> bool) (l : list A) (x : A) :
  find test l = None -> test x = false -> find test (l ++ [x]) = None.
Proof.
  intros Hn Hx. induction l as [|y l IH]; simpl in *.
  - rewrite Hx. reflexivity.
  - destruct (test y); [discriminate|]. apply IH. exact Hn.
Qed.

Lemma has_false {A} (o : option A) : has o = false -> o = None.
Proof. destruct o; [discriminate|reflexivity]. Qed.

(** ** The transfer *)

(** What [POST /api/posts/:id/transfer] answers on the store. *)
Lemma transfer_post_eq (id : string) (e : string) (d : Db) :
  transfer_post id (Some e) d =
  match user_by_email d e with
  | None => (Ok (JsonError 400 "New author not found"), d)
  | Some u =>
      match as_int (parseInt id) with
      | None => (Ok (JsonError 400 "Invalid value for argument `id`"), d)
      | Some i =>
          match post_by_id d i with
          | None =>
              (Ok (JsonError 400
                     (if int32 i then "Post not found" else message out_of_range)), d)
          | Some p =>
              if has (user_by_id d (user_id u)) then
                let p' := with_author (user_id u) p in
                let d1 :=
                  set_posts
                    {| rows := replace_row (fun x => post_id x =? i) p' (rows (posts d));
                       next := next (posts d) |} d in
                (Ok (Json 200 {| post := post_full d1 p';
                                 previousAuthor := user_by_id d (authorId p) |}),
                 logged [Update MPost] d1)
              else (Ok (JsonError 400 "Foreign key constraint failed"), d)
          end
      end
  end.
Proof.
  unfold transfer_post, transfer_body, try_catch, bind.
  cbn -[parseInt]. unfold mem_transaction, bind.
  cbn -[parseInt].
  destruct (user_by_email d e) as [u|]; [|reflexivity].
  unfold mem_post_findUnique, mem_post_update_author.
  destruct (as_int (parseInt id)) as [i|]; [|reflexivity].
  destruct (post_by_id d i) as [p|] eqn:Ep; cbn -[parseInt];
    [|destruct (int32 i); reflexivity].
  rewrite Ep.
  destruct (has (user_by_id d (user_id u))); reflexivity.
Qed.

(** C1. On [POST /api/posts/:id/transfer]: when the post of the id and a
    user of the new author's email are there, the post is stored with that
    user's id as its authorId, and the answer carries the updated post and,
    under previousAuthor, the author the post had before; when no user has
    the email, the answer is the client error and the store, and with it the
    authorId of the post, is what it was. *)
Theorem transfer_reassigns_or_rolls_back (d : Db) (id e : string) :
  (forall n p u,
      parseInt id = JInt n ->
      post_by_id d n = Some p ->
      user_by_email d e = Some u ->
      exists result d',
        transfer_post id (Some e) d = (Ok (Json 200 result), d') /\
        post_by_id d' n = Some (with_author (user_id u) p) /\
        authorId (with_author (user_id u) p) = user_id u /\
        pf_post (post result) = with_author (user_id u) p /\
        previousAuthor result = user_by_id d (authorId p))
  /\
  ((forall u, In u (rows (users d)) -> email u <> e) ->
   transfer_post id (Some e) d = (Ok (JsonError 400 "New author not found"), d)).
Proof.
  split.
  - intros n p u Hid Hp Hu.
    rewrite transfer_post_eq, Hu, Hid, as_int_JInt, Hp.
    assert (Hex : has (user_by_id d (user_id u)) = true).
    { apply find_some in Hu. destruct Hu as [Hin _].
      eapply find_caught; [exact Hin|]. apply Z.eqb_refl. }
    rewrite Hex. cbv zeta.
    eexists. eexists. split; [reflexivity|].
    repeat split.
    unfold post_by_id. cbn [posts logged set_posts rows].
    eapply find_replace_row; [exact Hp|].
    cbn [with_author post_id].
    apply find_some in Hp. destruct Hp as [_ Hp]. exact Hp.
  - intros Hnone.
    rewrite transfer_post_eq.
    assert (Hu : user_by_email d e = None).
    { apply find_uncaught. intros u Hin.
      apply String.eqb_neq. apply Hnone. exact Hin. }
    rewrite Hu. reflexivity.
Qed.

(** ** Creating, updating and deleting users *)


Lemma int32_in (n : Z) : -2147483648 <= n <= 2147483647 -> int32 n = true.
Proof. unfold int32. lia. Qed.

Lemma int32_out (n : Z) : n < -2147483648 \/ 2147483647 < n -> int32 n = false.
Proof. unfold int32. lia. Qed.

(** C4 (amended).  For an id that [parseInt] reads as an integer of the
    range of the key, from -2147483648 to 2147483647, for which no user
    record is there, [PUT /api/users/:id] and [DELETE /api/users/:id] answer
    with status 404 and 'User not found', not with a server error, and
    leave the store as it was. *)
Theorem missing_user_not_found (d : Db) (id : string) (n : Z) (body : UserData) :
  parseInt id = JInt n ->
  -2147483648 <= n <= 2147483647 ->
  (forall u, In u (rows (users d)) -> user_id u <> n) ->
  put_user id body d = (Ok (JsonError 404 "User not found"), d) /\
  delete_user id d = (Ok (JsonError 404 "User not found"), d).
Proof.
  intros Hid Hrange Hnone.
  assert (Hu : user_by_id d n = None).
  { apply find_uncaught. intros u Hin. apply Z.eqb_neq. apply Hnone. exact Hin. }
  split.
  - unfold put_user, try_catch, bind. cbn -[parseInt].
    unfold mem_user_update. rewrite Hid, as_int_JInt, Hu, int32_in by exact Hrange.
    reflexivity.
  - unfold delete_user, try_catch, bind. cbn -[parseInt].
    unfold mem_user_delete. rewrite Hid, as_int_JInt, Hu, int32_in by exact Hrange.
    reflexivity.
Qed.

(** ** Errors the handlers do not recognize *)

Section AnyQueryLayer.

Context {W : Type} {prisma : Prisma W}.

(** The handlers of the users answer an error of the query layer that they
    do not look for with status 500. *)
Lemma users_handlers_unrecognized (e : Err) (w w' : W) :
  (forall body,
      user_create body w = (Throw e, w') -> code_is e "P2002" = false ->
      post_users body w = (Ok (JsonError 500 (message e)), w')) /\
  (forall id body,
      user_update (parseInt id) body w = (Throw e, w') -> code_is e "P2025" = false ->
      put_user id body w = (Ok (JsonError 500 (message e)), w')) /\
  (forall id,
      user_delete (parseInt id) w = (Throw e, w') -> code_is e "P2025" = false ->
      delete_user id w = (Ok (JsonError 500 (message e)), w')).
Proof.
  repeat split.
  - intros body H Hc. unfold post_users, try_catch, bind. rewrite H, Hc. reflexivity.
  - intros id body H Hc. unfold put_user, try_catch, bind. rewrite H, Hc. reflexivity.
  - intros id H Hc. unfold delete_user, try_catch, bind. rewrite H, Hc. reflexivity.
Qed.

(** The list and the search answer with status 200 or 500, whatever the
    query layer does. *)
Lemma list_handlers_statuses (w : W) :
  (forall q, status_of (fst (get_users q w)) = Some 200 \/
             status_of (fst (get_users q w)) = Some 500) /\
  (forall q, status_of (fst (search_posts q w)) = Some 200 \/
             status_of (fst (search_posts q w)) = Some 500).
Proof.
  split; intros q.
  - unfold get_users, try_catch, bind.
    destruct (user_findMany _ w) as [[us|e] w1]; [|right; reflexivity].
    destruct (user_count _ w1) as [[n|e] w2]; [left|right]; reflexivity.
  - unfold search_posts, try_catch, bind.
    destruct (post_findMany _ w) as [[ps|e] w1]; [|right; reflexivity].
    destruct (post_count _ w1) as [[n|e] w2]; [left|right]; reflexivity.
Qed.

(** The transfer answers every error of its transaction with status 400. *)
Lemma transfer_post_any_error (id : string) (email_ : option string) (e : Err)
    (w w' : W) :
  transaction Transfer (transfer_body id email_) w = (Throw e, w') ->
  transfer_post id email_ w = (Ok (JsonError 400 (message e)), w').
Proof.
  intros H. unfold transfer_post, try_catch, bind. rewrite H. reflexivity.
Qed.

End AnyQueryLayer.

(** C5. The transfer does not answer an unrecognized error of the query
    layer with a server error: when the database cannot be reached, the
    error has code P1001, which is neither P2002 nor P2025, and
    [POST /api/posts/:id/transfer] answers with status 400, where
    [POST /api/users] answers the same error with status 500. *)
Theorem transfer_answers_400_when_offline :
  code unreachable = Some "P1001"%string /\
  code_is unreachable "P2002" = false /\
  code_is unreachable "P2025" = false /\
  transfer_post (prisma := offline) "1" (Some "new@example.com"%string) tt
  = (Ok (JsonError 400 "Can't reach database server"), tt) /\
  post_users (prisma := offline)
    (mkUserData (Some "new@example.com"%string) None None None None) tt
  = (Ok (JsonError 500 "Can't reach database server"), tt).
Proof. repeat split. Qed.

(** ** The seed script *)

(** *** A relation that every call of a computation keeps *)

Lemma remove_nth_length {A} (i : nat) (l : list A) (x : A) :
  nth_error l i = Some x -> S (List.length (remove_nth i l)) = List.length l.
Proof.
  revert i. induction l as [|y l IH]; intros [|i] E; try discriminate.
  - reflexivity.
  - cbn [remove_nth List.length]. f_equal. apply IH. exact E.
Qed.

Lemma remove_nth_incl {A} (i : nat) (l : list A) : incl (remove_nth i l) l.
Proof.
  revert i. induction l as [|y l IH]; intros [|i]; cbn [remove_nth].
  - apply incl_refl.
  - apply incl_refl.
  - apply incl_tl. apply incl_refl.
  - apply incl_cons; [left; reflexivity|]. apply incl_tl. apply IH.
Qed.

Section Keeps.

Variable R : Db -> Db -> Prop.
Hypothesis R_refl : forall d, R d d.
Hypothesis R_trans : forall a b c, R a b -> R b c -> R a c.

Lemma keeps_ret {A} (a : A) : keeps R (ret a).
Proof. intros w. apply R_refl. Qed.

Lemma keeps_throw {A} (e : Err) : keeps R (@throw World A e).
Proof. intros w. apply R_refl. Qed.

Lemma keeps_bind {A B} (m : M World A) (k : A -> M World B) :
  keeps R m -> (forall a, keeps R (k a)) -> keeps R (bind m k).
Proof.
  intros Hm Hk w. unfold bind.
  specialize (Hm w). destruct (m w) as [[a|e] w1]; cbn [snd fst] in *.
  - eapply R_trans; [exact Hm|]. apply Hk.
  - exact Hm.
Qed.

Lemma keeps_for_range {S} (body : Z -> S -> M World S) :
  (forall i s, keeps R (body i s)) ->
  forall n from s, keeps R (Seed.for_range n from body s).
Proof.
  intros Hb. induction n as [|n IH]; intros from s; cbn [Seed.for_range].
  - apply keeps_ret.
  - apply keeps_bind; [apply Hb|]. intros s'. apply IH.
Qed.

Lemma keeps_for_of {A} (body : A -> M World unit) :
  (forall x, keeps R (body x)) -> forall xs, keeps R (Seed.for_of xs body).
Proof.
  intros Hb. induction xs as [|x xs IH]; cbn [Seed.for_of].
  - apply keeps_ret.
  - apply keeps_bind; [apply Hb|]. intros _. exact IH.
Qed.

(** The generators do not touch the store. *)
Lemma keeps_draw_text : keeps R draw_text.
Proof. intros w. apply R_refl. Qed.

Lemma keeps_draw_int : keeps R draw_int.
Proof. intros w. apply R_refl. Qed.

Lemma keeps_draw_between (lo hi : Z) : keeps R (draw_between lo hi).
Proof.
  unfold draw_between. destruct (hi <? lo).
  - apply keeps_throw.
  - apply keeps_bind; [apply keeps_draw_int|]. intros x. apply keeps_ret.
Qed.

Lemma keeps_draw_element {A} (l : list A) : keeps R (draw_element l).
Proof.
  destruct l as [|x l]; cbn [draw_element]; [apply keeps_throw|].
  apply keeps_bind; [apply keeps_draw_between|].
  intros i. destruct (nth_error _ _); [apply keeps_ret|apply keeps_throw].
Qed.

Lemma keeps_draw_elements {A} (n : nat) (l : list A) : keeps R (draw_elements n l).
Proof.
  revert l. induction n as [|n IH]; intros l; cbn [draw_elements].
  - apply keeps_ret.
  - destruct l as [|x l]; [apply keeps_ret|].
    apply keeps_bind; [apply keeps_draw_between|].
    intros i. destruct (nth_error _ _); [|apply keeps_ret].
    apply keeps_bind; [apply IH|]. intros rest. apply keeps_ret.
Qed.

(** Neither does the order in which pending calls are served. *)
Lemma keeps_choose (n : nat) : keeps R (choose n).
Proof. intros w. apply R_refl. Qed.

Lemma keeps_serve {A} (n : nat) :
  forall (pending : list (nat * M World A)) (served : list (nat * A)),
    (forall e, In e pending -> keeps R (snd e)) ->
    keeps R (Seed.serve n pending served).
Proof.
  induction n as [|n IH]; intros pending served Hall; cbn [Seed.serve].
  - apply keeps_ret.
  - apply keeps_bind; [apply keeps_choose|]. intros i.
    destruct (nth_error pending _) as [[k call]|] eqn:E; [|apply keeps_ret].
    apply keeps_bind.
    + apply (Hall (k, call)). eapply nth_error_In. exact E.
    + intros a. apply IH. intros e He. apply Hall.
      eapply remove_nth_incl. exact He.
Qed.

Lemma In_numbered {A} (l : list A) :
  forall from e, In e (Seed.numbered from l) -> In (snd e) l.
Proof.
  induction l as [|x l IH]; intros from e; cbn [Seed.numbered]; [tauto|].
  intros [<-|H]; [left; reflexivity|right; eapply IH; exact H].
Qed.

Lemma keeps_Promise_all {A} (calls : list (M World A)) :
  Forall (keeps R) calls -> keeps R (Seed.Promise_all calls).
Proof.
  intros Hall. unfold Seed.Promise_all.
  apply keeps_bind; [|intros served; apply keeps_ret].
  apply keeps_serve. intros e He. apply In_numbered in He.
  rewrite Forall_forall in Hall. apply Hall. exact He.
Qed.

(** A call on the store keeps the relation when the store does. *)
Lemma keeps_lift {A} (m : M Db A) :
  (forall d, R d (snd (m d))) -> keeps R (lift m).
Proof.
  intros H w. unfold lift. specialize (H (fst w)).
  destruct (m (fst w)) as [o d']. exact H.
Qed.

End Keeps.

(** *** Only insertions after the clearing phase *)

Lemma inserts_only_refl (d : Db) : inserts_only d d.
Proof. exists []. rewrite app_nil_r. split; [reflexivity|constructor]. Qed.

Lemma inserts_only_trans (a b c : Db) :
  inserts_only a b -> inserts_only b c -> inserts_only a c.
Proof.
  intros [t1 [E1 F1]] [t2 [E2 F2]]. exists (t1 ++ t2). split.
  - rewrite E2, E1, app_assoc. reflexivity.
  - apply Forall_app. split; assumption.
Qed.

Lemma inserts_only_logged (ss : list Stmt) (d d' : Db) :
  journal d' = journal d -> Forall is_insert ss -> inserts_only d (logged ss d').
Proof.
  intros E F. exists ss. split; [|exact F].
  cbn [journal logged]. rewrite E. reflexivity.
Qed.

Ltac store_call :=
  apply keeps_lift; intros d;
  repeat match goal with
         | |- context [if ?c then _ else _] => destruct c
         | |- context [match ?x with Some _ => _ | None => _ end] => destruct x
         end;
  cbn [snd];
  first [ apply inserts_only_refl
        | apply inserts_only_logged; [reflexivity | repeat constructor] ].

Lemma inserts_only_category_create (n c : string) :
  keeps inserts_only (lift (mem_category_create n c)).
Proof. unfold mem_category_create. store_call. Qed.

Lemma inserts_only_user_create (data : UserData) :
  keeps inserts_only (lift (mem_user_create data)).
Proof. unfold mem_user_create. store_call. Qed.

Lemma inserts_only_post_create (data : PostData) :
  keeps inserts_only (lift (mem_post_create data)).
Proof. unfold mem_post_create. store_call. Qed.

Lemma inserts_only_postCategory_create (p c : Z) :
  keeps inserts_only (lift (mem_postCategory_create p c)).
Proof. unfold mem_postCategory_create. store_call. Qed.

Lemma inserts_only_comment_create (t : string) (a p : Z) :
  keeps inserts_only (lift (mem_comment_create t a p)).
Proof. unfold mem_comment_create. store_call. Qed.

Lemma inserts_only_count (m : Model) : keeps inserts_only (lift (mem_count m)).
Proof. unfold mem_count. store_call. Qed.

(** The calls of the script on the world, as the instances give them. *)
Ltac on_world :=
  cbn [category_create user_create post_create postCategory_create
       comment_create deleteMany count world_prisma
       internet_email internet_url person_fullName number_int lorem_sentence
       lorem_paragraph lorem_paragraphs image_avatar location_city
       location_country datatype_boolean helpers_arrayElement
       helpers_arrayElements world_faker].

(** Splits a computation into its calls; [prim] settles each call. *)
Ltac keeps_with R Rr Rt prim :=
  repeat
    (lazymatch goal with
     | |- keeps R (bind _ _) => apply (keeps_bind R Rt); [|intros ?]
     | |- keeps R (ret _) => apply (keeps_ret R Rr)
     | |- keeps R (Seed.for_range _ _ _ _) =>
         apply (keeps_for_range R Rr Rt); intros ? ?
     | |- keeps R (Seed.for_of _ _) => apply (keeps_for_of R Rr Rt); intros ?
     | |- keeps R (Seed.Promise_all _) =>
         apply (keeps_Promise_all R Rr Rt); repeat apply Forall_cons;
         try apply Forall_nil
     | |- keeps R draw_text => apply (keeps_draw_text R Rr)
     | |- keeps R draw_int => apply (keeps_draw_int R Rr)
     | |- keeps R (draw_between _ _) => apply (keeps_draw_between R Rr Rt)
     | |- keeps R (draw_element _) => apply (keeps_draw_element R Rr Rt)
     | |- keeps R (draw_elements _ _) => apply (keeps_draw_elements R Rr Rt)
     | |- keeps R (lift _) => prim
     end).

Ltac inserts_only_call :=
  first [ apply inserts_only_category_create
        | apply inserts_only_user_create
        | apply inserts_only_post_create
        | apply inserts_only_postCategory_create
        | apply inserts_only_comment_create
        | apply inserts_only_count ].

Ltac inserts_only_all :=
  on_world;
  keeps_with inserts_only inserts_only_refl inserts_only_trans inserts_only_call.

Lemma inserts_only_create_categories :
  keeps inserts_only Seed.create_categories.
Proof. unfold Seed.create_categories. inserts_only_all. Qed.

Lemma inserts_only_create_users : keeps inserts_only Seed.create_users.
Proof.
  unfold Seed.create_users.
  apply (keeps_for_range _ inserts_only_refl inserts_only_trans). intros i s.
  unfold Seed.create_user. inserts_only_all.
Qed.

Lemma inserts_only_create_posts (categories : list Category) (users : list User) :
  keeps inserts_only (Seed.create_posts categories users).
Proof.
  unfold Seed.create_posts, Seed.create_post, Seed.create_comment.
  inserts_only_all.
Qed.

Lemma inserts_only_statistics : keeps inserts_only Seed.statistics.
Proof. unfold Seed.statistics. inserts_only_all. Qed.

(** *** The users and their profiles stay as the loop left them *)

Lemma users_kept_refl (d : Db) : users_kept d d.
Proof. split; reflexivity. Qed.

Lemma users_kept_trans (a b c : Db) :
  users_kept a b -> users_kept b c -> users_kept a c.
Proof. intros [U1 P1] [U2 P2]. split; congruence. Qed.

Ltac users_kept_call :=
  apply keeps_lift; intros d;
  repeat match goal with
         | |- context [if ?c then _ else _] => destruct c
         end;
  cbn [snd]; split; reflexivity.

Lemma users_kept_category_create (n c : string) :
  keeps users_kept (lift (mem_category_create n c)).
Proof. unfold mem_category_create. users_kept_call. Qed.

Lemma users_kept_post_create (data : PostData) :
  keeps users_kept (lift (mem_post_create data)).
Proof. unfold mem_post_create. users_kept_call. Qed.

Lemma users_kept_postCategory_create (p c : Z) :
  keeps users_kept (lift (mem_postCategory_create p c)).
Proof. unfold mem_postCategory_create. users_kept_call. Qed.

Lemma users_kept_comment_create (t : string) (a p : Z) :
  keeps users_kept (lift (mem_comment_create t a p)).
Proof. unfold mem_comment_create. users_kept_call. Qed.

Lemma users_kept_count (m : Model) : keeps users_kept (lift (mem_count m)).
Proof. unfold mem_count. users_kept_call. Qed.

Ltac users_kept_prim :=
  first [ apply users_kept_category_create
        | apply users_kept_post_create
        | apply users_kept_postCategory_create
        | apply users_kept_comment_create
        | apply users_kept_count ].

Ltac users_kept_all :=
  on_world;
  keeps_with users_kept users_kept_refl users_kept_trans users_kept_prim.

Lemma users_kept_create_categories : keeps users_kept Seed.create_categories.
Proof. unfold Seed.create_categories. users_kept_all. Qed.

Lemma users_kept_create_posts (categories : list Category) (users : list User) :
  keeps users_kept (Seed.create_posts categories users).
Proof.
  unfold Seed.create_posts, Seed.create_post, Seed.create_comment.
  users_kept_all.
Qed.


(** *** The clearing phase *)

Lemma existsb_never {A} (l : list A) : existsb (fun _ => false) l = false.
Proof. induction l as [|x l IH]; simpl; [reflexivity|exact IH]. Qed.

(** The six [deleteMany] calls go through on every store, because no table
    is emptied before the tables that point to it. *)
Lemma clear_run (w : World) :
  Seed.clear w = (Ok tt, (emptied_all (fst w), snd w)).
Proof.
  destruct w as [d r].
  unfold Seed.clear, bind. on_world. unfold lift, mem_deleteMany.
  cbn. repeat (rewrite existsb_never; cbn). reflexivity.
Qed.

Lemma main_after_clear (w : World) :
  Seed.main w =
  bind Seed.create_categories
    (fun categories =>
       bind Seed.create_users
         (fun users =>
            bind (Seed.create_posts categories users) (fun _ => Seed.statistics)))
    (emptied_all (fst w), snd w).
Proof.
  unfold Seed.main. unfold bind at 1. rewrite clear_run. reflexivity.
Qed.

(** C7. The clearing phase of the seed script deletes all rows of the
    comments, then of the junction table, then of the posts, the categories,
    the profiles and the users: on every store the six statements take effect
    in exactly this order and leave every table empty, and whatever happens
    afterwards, every statement that follows them is an insertion. *)
Theorem clear_phase_order (w : World) :
  exists w1,
    Seed.clear w = (Ok tt, w1) /\
    journal (fst w1) =
      journal (fst w) ++
      [DeleteMany MComment; DeleteMany MPostCategory; DeleteMany MPost;
       DeleteMany MCategory; DeleteMany MProfile; DeleteMany MUser] /\
    (forall m, count_rows m (fst w1) = 0) /\
    exists tail,
      journal (fst (snd (Seed.main w))) = journal (fst w1) ++ tail /\
      Forall is_insert tail.
Proof.
  exists (emptied_all (fst w), snd w).
  split; [apply clear_run|]. split; [|split].
  - cbn [fst journal emptied_all]. rewrite <- !app_assoc. reflexivity.
  - intros m. destruct m; reflexivity.
  - rewrite main_after_clear.
    pose proof (keeps_bind inserts_only inserts_only_trans
                  Seed.create_categories
                  (fun categories =>
                     bind Seed.create_users
                       (fun users =>
                          bind (Seed.create_posts categories users)
                            (fun _ => Seed.statistics)))) as H.
    apply (H inserts_only_create_categories).
    intros categories.
    apply (keeps_bind _ inserts_only_trans); [apply inserts_only_create_users|].
    intros users.
    apply (keeps_bind _ inserts_only_trans); [apply inserts_only_create_posts|].
    intros _. apply inserts_only_statistics.
Qed.

(** *** The loop that creates the users *)

(** One turn of the loop either throws and leaves the store as it was, or
    adds one user with the role of its index and the profile of that user. *)
Lemma create_user_step (i : Z) (acc : list User) (w : World) :
  (exists e w', Seed.create_user i acc w = (Throw e, w') /\ fst w' = fst w) \/
  (exists u p w',
      Seed.create_user i acc w = (Ok (acc ++ [u]), w') /\
      role u = Seed.role_of_index i /\
      userId p = user_id u /\
      rows (users (fst w')) = rows (users (fst w)) ++ [u] /\
      rows (profiles (fst w')) = rows (profiles (fst w)) ++ [p]).
Proof.
  destruct w as [d r].
  unfold Seed.create_user, bind. on_world.
  unfold draw_text, draw_between, lift, mem_user_create, bind, draw_int.
  cbn -[Z.modulo Z.add].
  destruct (has (user_by_email d _) || has (user_by_id d _)).
  { left. eexists. eexists. split; reflexivity. }
  destruct (has (profile_of d _) || has (find _ _)).
  { left. eexists. eexists. split; reflexivity. }
  right. eexists. eexists. eexists.
  repeat split; reflexivity.
Qed.

Lemma create_users_loop (n : nat) :
  forall (from : Z) (acc : list User) (w : World),
  exists new ps k,
    rows (users (fst (snd (Seed.for_range n from Seed.create_user acc w))))
    = rows (users (fst w)) ++ new /\
    rows (profiles (fst (snd (Seed.for_range n from Seed.create_user acc w))))
    = rows (profiles (fst w)) ++ ps /\
    map userId ps = map user_id new /\
    (k <= n)%nat /\
    map role new = map Seed.role_of_index (indices k from) /\
    (forall us,
        fst (Seed.for_range n from Seed.create_user acc w) = Ok us ->
        k = n /\ us = acc ++ new).
Proof.
  induction n as [|n IH]; intros from acc w.
  - exists [], [], 0%nat. cbn. rewrite !app_nil_r.
    repeat apply conj; try reflexivity.
    intros us H. injection H as <-. split; reflexivity.
  - cbn [Seed.for_range]. unfold bind at 1 2 3.
    destruct (create_user_step from acc w)
      as [[e [w' [E Hsame]]] | [u [p [w' [E [Hrole [Hp [Hu Hpr]]]]]]]];
      rewrite E.
    + exists [], [], 0%nat. cbn [snd fst]. rewrite Hsame, !app_nil_r.
      repeat apply conj; try reflexivity; try lia.
      intros us H. discriminate.
    + destruct (IH (from + 1) (acc ++ [u]) w')
        as [new [ps [k [Hn [Hps [Hmap [Hk [Hroles Hok]]]]]]]].
      exists (u :: new), (p :: ps), (S k).
      rewrite Hn, Hps, Hu, Hpr, <- !app_assoc. cbn [app map indices].
      repeat apply conj; try reflexivity; try lia.
      * rewrite Hp, Hmap. reflexivity.
      * rewrite Hrole, Hroles. reflexivity.
      * intros us H. destruct (Hok us H) as [-> ->].
        rewrite <- app_assoc. split; reflexivity.
Qed.

Lemma statistics_run (w : World) :
  Seed.statistics w =
  (Ok {| Seed.stat_users := count_rows MUser (fst w);
         Seed.stat_profiles := count_rows MProfile (fst w);
         Seed.stat_posts := count_rows MPost (fst w);
         Seed.stat_categories := count_rows MCategory (fst w);
         Seed.stat_comments := count_rows MComment (fst w);
         Seed.stat_postCategories := count_rows MPostCategory (fst w) |}, w).
Proof. destruct w as [d r]. reflexivity. Qed.

Lemma len_map_eq {A B C} (f : A -> C) (g : B -> C) (l : list A) (l' : list B) :
  map f l = map g l' -> len l = len l'.
Proof.
  intros H. unfold len. f_equal.
  rewrite <- (length_map f l), H, length_map. reflexivity.
Qed.


(** *** When the loop of the users completes *)

Lemma find_above {A} (key : A -> Z) (n : Z) (l : list A) :
  Forall (fun x => key x < n) l -> find (fun x => key x =? n) l = None.
Proof.
  intros H. apply find_uncaught. intros x Hx.
  rewrite Forall_forall in H. specialize (H x Hx).
  apply Z.eqb_neq. lia.
Qed.

Lemma Forall_below_grow {A} (key : A -> Z) (n : Z) (l : list A) (x : A) :
  Forall (fun y => key y < n) l -> key x = n ->
  Forall (fun y => key y < n + 1) (l ++ [x]).
Proof.
  intros H Hx. apply Forall_app. split.
  - eapply Forall_impl; [|exact H]. intros y Hy. cbv beta in Hy. lia.
  - constructor; [lia|constructor].
Qed.

Lemma Forall_below_more {A} (key : A -> Z) (n : Z) (l : list A) :
  Forall (fun y => key y < n) l -> Forall (fun y => key y < n + 1) l.
Proof.
  intros H. eapply Forall_impl; [|exact H]. intros y Hy. cbv beta in Hy. lia.
Qed.

(** A category is created on a store whose keys are below the next ones. *)
Lemma category_create_ok (cname ccolor : string) (d : Db) :
  keys_below d ->
  exists c d',
    mem_category_create cname ccolor d = (Ok c, d') /\
    keys_below d' /\ users d' = users d /\ profiles d' = profiles d.
Proof.
  intros [Ku [Kp [Kpu Kc]]]. unfold mem_category_create.
  unfold category_by_id. rewrite (find_above category_id _ _ Kc). cbn [has].
  eexists. eexists. split; [reflexivity|].
  split; [|split; reflexivity].
  repeat apply conj; cbn; try assumption.
  apply Forall_below_grow; [exact Kc|reflexivity].
Qed.

Lemma category_create_run (cname ccolor : string) (d : Db) :
  Forall (fun c => category_id c < next (categories d)) (rows (categories d)) ->
  mem_category_create cname ccolor d
  = (Ok (mkCategory (next (categories d)) cname (Some ccolor)),
     logged [Insert MCategory]
       (set_categories
          (insert_row (mkCategory (next (categories d)) cname (Some ccolor))
             (categories d)) d)).
Proof.
  intros K. unfold mem_category_create, category_by_id.
  rewrite (find_above category_id _ _ K). reflexivity.
Qed.

Lemma NoDup_four (n : Z) : NoDup (map (fun i => n + i) [0; 1; 2; 3]).
Proof.
  cbn [map]. repeat constructor; cbn [In]; intuition lia.
Qed.

(** One call of a [Promise.all] is served: the one at the place that is
    chosen. *)
Lemma serve_step {A} (n : nat) (pending : list (nat * M World A))
    (served : list (nat * A)) (d : Db) (r : Rng) (place k : nat)
    (m : M Db A) (a : A) (d' : Db) :
  Nat.modulo (choices r (chosen r)) (List.length pending) = place ->
  nth_error pending place = Some (k, lift m) ->
  m d = (Ok a, d') ->
  Seed.serve (S n) pending served (d, r)
  = Seed.serve n (remove_nth place pending) (served ++ [(k, a)])
      (d', advance_choice r).
Proof.
  intros Hplace Hnth Hm. cbn [Seed.serve served_next world_concurrent].
  unfold bind at 1. unfold choose at 1. cbn [fst snd].
  rewrite Hplace, Hnth. unfold bind at 1. unfold lift at 1. cbn [fst snd].
  rewrite Hm. reflexivity.
Qed.

(** Serves the next call of the categories, at each place it can be at. *)
Ltac serve_category K :=
  lazymatch goal with
  | |- context [Seed.serve (S _) ?pending _ (_, ?r)] =>
      let N := eval cbn in (List.length pending) in
      let B := fresh "B" in
      let E := fresh "E" in
      assert (B : (Nat.modulo (choices r (chosen r)) (List.length pending) < N)%nat)
        by (apply Nat.mod_upper_bound; cbn; lia);
      destruct (Nat.modulo (choices r (chosen r)) (List.length pending))
        as [|[|[|[|?]]]] eqn:E; try lia; clear B;
      (erewrite serve_step;
       [ | exact E | reflexivity
       | apply category_create_run; cbn;
         repeat (apply Forall_below_grow; [|cbn; lia]); exact K ]);
      cbn [remove_nth app]; clear E
  end.

Lemma create_categories_run (w : World) :
  Forall (fun c => category_id c < next (categories (fst w)))
         (rows (categories (fst w))) ->
  exists cats created d',
    Seed.create_categories w = (Ok cats, (d', after_choices 4 (snd w))) /\
    rows (categories d') = rows (categories (fst w)) ++ created /\
    next (categories d') = next (categories (fst w)) + 4 /\
    Permutation created cats /\
    map (fun c => (category_name c, color c)) cats = seed_categories /\
    map category_id created
    = map (fun i => next (categories (fst w)) + i) [0; 1; 2; 3] /\
    users d' = users (fst w) /\ profiles d' = profiles (fst w) /\
    posts_kept (fst w) d'.
Proof.
  destruct w as [d r]. cbn [fst snd]. intros K0.
  unfold Seed.create_categories, Seed.Promise_all.
  cbn [List.length Seed.numbered].
  on_world. unfold bind at 1.
  serve_category K0; serve_category K0; serve_category K0; serve_category K0.
  all: cbn [Seed.serve]; unfold ret at 1.
  all: unfold ret, Seed.in_array_order;
    cbn [flat_map seq find fst snd Nat.eqb app].
  all: eexists; eexists; eexists; split; [reflexivity|].
  all: cbn -[Z.add]; rewrite <- ?app_assoc; cbn [app].
  all: split; [reflexivity|]; split; [lia|].
  all: assert (Hids : forall n : Z, [n; n + 1; n + 1 + 1; n + 1 + 1 + 1]
                        = [n + 0; n + 1; n + 2; n + 3])
         by (intros n; repeat (apply (f_equal2 cons); [lia|]); reflexivity).
  all: repeat apply conj; try reflexivity; try apply Hids.
  all: apply NoDup_Permutation_bis;
    [ apply (NoDup_map_inv category_id); cbn [map category_id];
      rewrite Hids; apply NoDup_four
    | cbn; lia
    | intros x Hx; cbn [In] in *; tauto ].
Qed.


Lemma create_categories_ok (w : World) :
  keys_below (fst w) ->
  exists cats d',
    Seed.create_categories w = (Ok cats, (d', after_choices 4 (snd w))) /\
    keys_below d' /\ users d' = users (fst w) /\ profiles d' = profiles (fst w).
Proof.
  intros [Ku [Kp [Kpu Kc]]].
  destruct (create_categories_run w Kc)
    as [cats [created [d' [E [Hrows [Hnext [_ [_ [Hids [Hu [Hp _]]]]]]]]]]].
  exists cats, d'. split; [exact E|].
  split; [|split; assumption].
  unfold keys_below. rewrite Hu, Hp, Hrows, Hnext.
  repeat apply conj; try assumption.
  apply Forall_app. split.
  - eapply Forall_impl; [|exact Kc]. intros c Hc. cbv beta in Hc. lia.
  - apply Forall_forall. intros c Hc.
    apply (in_map category_id) in Hc. rewrite Hids in Hc.
    cbn [map In] in Hc. lia.
Qed.

(** One turn of the loop completes when the email it draws is not taken. *)
Lemma create_user_ok (i : Z) (acc : list User) (w : World) :
  keys_below (fst w) ->
  user_by_email (fst w) (texts (snd w) (drawn (snd w))) = None ->
  exists us d',
    Seed.create_user i acc w
    = (Ok us, (d', mkRng (ints (snd w)) (texts (snd w)) (drawn (snd w) + 8)%nat
                         (choices (snd w)) (chosen (snd w)))) /\
    keys_below d' /\
    (forall e, e <> texts (snd w) (drawn (snd w)) ->
               user_by_email (fst w) e = None -> user_by_email d' e = None).
Proof.
  destruct w as [d r]. cbn [fst snd]. intros [Ku [Kp [Kpu Kc]]] Hfree.
  unfold Seed.create_user, bind. on_world.
  unfold draw_text, draw_between, lift, mem_user_create, bind, draw_int.
  cbn -[Z.modulo Z.add Nat.add].
  rewrite Hfree.
  unfold user_by_id, profile_of.
  rewrite (find_above user_id _ _ Ku), (find_above userId _ _ Kpu),
    (find_above profile_id _ _ Kp).
  cbn [has orb].
  eexists. eexists. split.
  { unfold advance. cbn [ints texts drawn choices chosen].
    replace (drawn r + 8)%nat with (S (S (S (S (S (S (S (S (drawn r)))))))))
      by lia.
    reflexivity. }
  split.
  - repeat apply conj; cbn.
    + apply Forall_below_grow; [exact Ku|reflexivity].
    + apply Forall_below_grow; [exact Kp|reflexivity].
    + apply Forall_below_grow; [exact Kpu|reflexivity].
    + exact Kc.
  - intros e Hne He. unfold user_by_email in *. cbn.
    apply find_last_miss; [exact He|]. cbn.
    apply String.eqb_neq. congruence.
Qed.

Lemma emails_to_draw_next (n : nat) (r : Rng) :
  emails_to_draw (S n) r
  = texts r (drawn r)
    :: emails_to_draw n
         (mkRng (ints r) (texts r) (drawn r + 8)%nat (choices r) (chosen r)).
Proof.
  unfold emails_to_draw. cbn [seq map drawn texts]. f_equal.
  - f_equal. lia.
  - rewrite <- seq_shift, map_map. apply map_ext. intros i. f_equal. lia.
Qed.

(** The loop completes when the emails it draws differ from each other and
    from the emails of the store. *)
Lemma create_users_complete (n : nat) :
  forall (from : Z) (acc : list User) (w : World),
    keys_below (fst w) ->
    NoDup (emails_to_draw n (snd w)) ->
    (forall e, In e (emails_to_draw n (snd w)) -> user_by_email (fst w) e = None) ->
    exists us w', Seed.for_range n from Seed.create_user acc w = (Ok us, w').
Proof.
  induction n as [|n IH]; intros from acc w K Hnd Hfree.
  - exists acc, w. reflexivity.
  - rewrite emails_to_draw_next in Hnd, Hfree.
    apply NoDup_cons_iff in Hnd. destruct Hnd as [Hnotin Hnd].
    destruct (create_user_ok from acc w K (Hfree _ (or_introl eq_refl)))
      as [us [d' [E [K' Hkeep]]]].
    cbn [Seed.for_range]. unfold bind at 1. rewrite E.
    apply IH; cbn [fst snd].
    + exact K'.
    + exact Hnd.
    + intros e He. apply Hkeep.
      * intros ->. apply Hnotin. exact He.
      * apply Hfree. right. exact He.
Qed.

(** What a run of the script leaves in the tables of the users and of the
    profiles, whether it completes or stops at an error.  The clearing phase
    and the categories always go through; the loop of the users completes
    when the ten emails drawn differ. *)
Lemma seed_users (w : World) (r : Outcome Seed.Stats) (w' : World) :
  Seed.main w = (r, w') ->
  exists k,
    (k <= 10)%nat /\
    map role (rows (users (fst w'))) = map Seed.role_of_index (indices k 0) /\
    map userId (rows (profiles (fst w'))) = map user_id (rows (users (fst w'))) /\
    (forall s,
        r = Ok s ->
        k = 10%nat /\
        Seed.stat_users s = len (rows (users (fst w'))) /\
        Seed.stat_profiles s = len (rows (profiles (fst w')))) /\
    (NoDup (emails_to_draw 10 (snd w)) -> k = 10%nat).
Proof.
  rewrite main_after_clear.
  set (w0 := (emptied_all (fst w), snd w)).
  assert (U0 : rows (users (fst w0)) = []) by reflexivity.
  assert (P0 : rows (profiles (fst w0)) = []) by reflexivity.
  assert (K0 : keys_below (fst w0)) by (repeat apply conj; constructor).
  assert (R0 : snd w0 = snd w) by reflexivity.
  clearbody w0. unfold bind at 1.
  destruct (create_categories_ok w0 K0) as [categories [d1 [Ec [K1 [Uc Pc]]]]].
  rewrite Ec, R0. clear Ec.
  set (r1 := after_choices 4 (snd w)).
  assert (Hemails : emails_to_draw 10 r1 = emails_to_draw 10 (snd w))
    by reflexivity.
  clearbody r1.
  unfold bind at 1. unfold Seed.create_users.
  destruct (create_users_loop 10 0 [] (d1, r1))
    as [new [ps [k [Hn [Hps [Hmap [Hk [Hroles Hok]]]]]]]].
  cbn [fst snd] in Hn, Hps.
  rewrite Uc, U0 in Hn. rewrite Pc, P0 in Hps. cbn [app] in Hn, Hps.
  assert (Hcomplete :
            NoDup (emails_to_draw 10 (snd w)) ->
            exists us w2,
              Seed.for_range 10 0 Seed.create_user [] (d1, r1) = (Ok us, w2)).
  { intros Hnd. apply create_users_complete; cbn [fst snd].
    - exact K1.
    - rewrite Hemails. exact Hnd.
    - intros e _. unfold user_by_email. rewrite Uc, U0. reflexivity. }
  revert Hn Hps Hok Hcomplete.
  destruct (Seed.for_range 10 0 Seed.create_user [] (d1, r1)) as [[us|e] w2];
    cbn [snd fst]; intros Hn Hps Hok Hcomplete H.
  2:{ injection H as <- <-. exists k. rewrite Hn, Hps.
      repeat apply conj; try assumption.
      - intros; discriminate.
      - intros Hnd. destruct (Hcomplete Hnd) as [us [w3 E]]. discriminate. }
  destruct (Hok us eq_refl) as [-> _].
  unfold bind at 1 in H.
  pose proof (users_kept_create_posts categories us w2) as Kp. revert Kp H.
  destruct (Seed.create_posts categories us w2) as [[[]|e] w3];
    cbn [snd fst]; intros [Up Pp] H.
  2:{ injection H as <- <-. exists 10%nat. rewrite Up, Pp, Hn, Hps.
      repeat apply conj; try assumption; try lia; try reflexivity.
      intros; discriminate. }
  rewrite statistics_run in H. injection H as <- <-.
  exists 10%nat. rewrite Up, Pp, Hn, Hps.
  repeat apply conj; try assumption; try lia; try reflexivity.
  intros s H. injection H as <-.
  cbn [Seed.stat_users Seed.stat_profiles count_rows].
  rewrite ?Up, ?Pp, ?Hn, ?Hps. repeat apply conj; reflexivity.
Qed.

(** *** What the script leaves behind *)

(** C8, as the code has it.  The seed script creates ten users, each with a
    profile: a run that completes, and any run in which the ten emails drawn
    differ from each other, leaves exactly ten users and ten profiles, the
    profiles being, in order, those of the users.  The number is the bound
    written in the loop and not a parameter of the script. *)
Theorem seed_creates_ten_users (w : World) (r : Outcome Seed.Stats) (w' : World) :
  Seed.main w = (r, w') ->
  (exists s, r = Ok s) \/ NoDup (emails_to_draw 10 (snd w)) ->
  len (rows (users (fst w'))) = 10 /\
  len (rows (profiles (fst w'))) = 10 /\
  map userId (rows (profiles (fst w'))) = map user_id (rows (users (fst w'))) /\
  (forall s, r = Ok s -> Seed.stat_users s = 10 /\ Seed.stat_profiles s = 10).
Proof.
  intros H Hrun.
  destruct (seed_users w r w' H) as [k [_ [Hroles [Hprof [Hok Hnd]]]]].
  assert (Hk : k = 10%nat).
  { destruct Hrun as [[s ->]|Hd]; [apply (Hok s eq_refl)|apply Hnd; exact Hd]. }
  subst k.
  assert (Hu : len (rows (users (fst w'))) = 10).
  { rewrite (len_map_eq _ _ _ _ Hroles). reflexivity. }
  assert (Hp : len (rows (profiles (fst w'))) = 10).
  { rewrite (len_map_eq _ _ _ _ Hprof). exact Hu. }
  repeat apply conj; try assumption.
  intros s Hs. destruct (Hok s Hs) as [_ [Hsu Hsp]]. split; congruence.
Qed.

Lemma filter_role (r : Role) (l : list User) :
  List.length (filter (with_role r) l)
  = List.length (filter (fun x => Role_eqb x r) (map role l)).
Proof.
  induction l as [|u l IH]; cbn [filter map]; [reflexivity|].
  unfold with_role at 1. destruct (Role_eqb (role u) r); cbn [List.length]; rewrite IH;
    reflexivity.
Qed.

(** C10 (amended). A run of the seed script gives the roles by the index
    of creation: the users it leaves have, in the order of their creation,
    the roles ADMIN, MODERATOR and then USER, as far as the run got; and a
    run that completes, as any run in which the ten emails drawn differ from
    each other, leaves all ten of them, so exactly one ADMIN and exactly one
    MODERATOR.  A run that stops at an email that is taken leaves fewer. *)
Theorem seed_roles_by_index (w : World) (r : Outcome Seed.Stats) (w' : World) :
  Seed.main w = (r, w') ->
  exists k,
    (k <= 10)%nat /\
    map role (rows (users (fst w')))
    = firstn k [ADMIN; MODERATOR; USER; USER; USER; USER; USER; USER; USER; USER] /\
    ((exists s, r = Ok s) \/ NoDup (emails_to_draw 10 (snd w)) ->
     k = 10%nat /\
     List.length (filter (with_role ADMIN) (rows (users (fst w')))) = 1%nat /\
     List.length (filter (with_role MODERATOR) (rows (users (fst w')))) = 1%nat).
Proof.
  intros H. destruct (seed_users w r w' H) as [k [Hk [Hroles [_ [Hok Hnd]]]]].
  exists k. split; [exact Hk|].
  assert (Hfirst : map Seed.role_of_index (indices k 0)
                   = firstn k [ADMIN; MODERATOR; USER; USER; USER; USER; USER;
                               USER; USER; USER]).
  { do 11 (destruct k as [|k]; [reflexivity|]). lia. }
  split; [rewrite Hroles; exact Hfirst|].
  intros Hrun.
  assert (Hten : k = 10%nat).
  { destruct Hrun as [[s ->]|Hd]; [apply (Hok s eq_refl)|apply Hnd; exact Hd]. }
  subst k.
  rewrite !filter_role, Hroles. repeat apply conj; reflexivity.
Qed.


(** ** Every handler answers *)

Section EveryQueryLayer.

Context {W : Type} {prisma : Prisma W} {relations : PrismaRelations W}.

(** X1. Whatever the query layer does, no handler lets an error escape: each
    one sends an answer, and its status is one of the few the handler
    writes. *)
Theorem handlers_always_answer (w : W) :
  (forall q, exists r,
      fst (get_users q w) = Ok r /\ (status r = 200 \/ status r = 500)) /\
  (forall id, exists r,
      fst (get_user id w) = Ok r /\
      (status r = 200 \/ status r = 404 \/ status r = 500)) /\
  (forall body, exists r,
      fst (post_users body w) = Ok r /\
      (status r = 201 \/ status r = 400 \/ status r = 500)) /\
  (forall id body, exists r,
      fst (put_user id body w) = Ok r /\
      (status r = 200 \/ status r = 404 \/ status r = 500)) /\
  (forall id, exists r,
      fst (delete_user id w) = Ok r /\
      (status r = 204 \/ status r = 404 \/ status r = 500)) /\
  (exists r,
      fst (get_analytics w) = Ok r /\ (status r = 200 \/ status r = 500)) /\
  (forall q, exists r,
      fst (search_posts q w) = Ok r /\ (status r = 200 \/ status r = 500)) /\
  (forall id email_, exists r,
      fst (transfer_post id email_ w) = Ok r /\ (status r = 200 \/ status r = 400)).
Proof.
  repeat apply conj.
  - intros q. unfold get_users, try_catch, bind.
    destruct (user_findMany _ w) as [[us|e] w1]; [|eexists; split; [reflexivity|auto]].
    destruct (user_count _ w1) as [[n|e] w2]; eexists; (split; [reflexivity|auto]).
  - intros id. unfold get_user, try_catch, bind.
    destruct (user_findUnique _ w) as [[[u|]|e] w1];
      eexists; (split; [reflexivity|cbn; auto]).
  - intros body. unfold post_users, try_catch, bind.
    destruct (user_create body w) as [[u|e] w1]; [eexists; split; [reflexivity|auto]|].
    destruct (code_is e "P2002"); eexists; (split; [reflexivity|cbn; auto]).
  - intros id body. unfold put_user, try_catch, bind.
    destruct (user_update _ body w) as [[u|e] w1]; [eexists; split; [reflexivity|auto]|].
    destruct (code_is e "P2025"); eexists; (split; [reflexivity|cbn; auto]).
  - intros id. unfold delete_user, try_catch, bind.
    destruct (user_delete _ w) as [[u|e] w1]; [eexists; split; [reflexivity|auto]|].
    destruct (code_is e "P2025"); eexists; (split; [reflexivity|cbn; auto]).
  - unfold get_analytics, try_catch, bind.
    destruct (category_findMany w) as [[cs|e] w1]; [|eexists; split; [reflexivity|auto]].
    destruct (map_analytics cs) as [a|]; [|eexists; split; [reflexivity|cbn; auto]].
    destruct (user_findMany_by_posts 5 w1) as [[t|e] w2];
      eexists; (split; [reflexivity|cbn; auto]).
  - intros q. unfold search_posts, try_catch, bind.
    destruct (post_findMany _ w) as [[ps|e] w1]; [|eexists; split; [reflexivity|auto]].
    destruct (post_count _ w1) as [[n|e] w2]; eexists; (split; [reflexivity|auto]).
  - intros id email_. unfold transfer_post, try_catch, bind.
    destruct (transaction Transfer _ w) as [[t|e] w1];
      eexists; (split; [reflexivity|auto]).
Qed.

End EveryQueryLayer.

(** ** What the handlers leave in the store *)

(** What [GET /api/users/:id] answers on the store. *)
Lemma get_user_eq (id : string) (d : Db) :
  get_user id d =
  match as_int (parseInt id) with
  | None => (Ok (JsonError 500 "Invalid value for argument `id`"), d)
  | Some i =>
      match user_by_id d i with
      | None =>
          if int32 i then (Ok (JsonError 404 "User not found"), d)
          else (Ok (JsonError 500 (message out_of_range)), d)
      | Some u => (Ok (Json 200 (user_full d u)), d)
      end
  end.
Proof.
  unfold get_user, try_catch, bind. cbn -[parseInt]. unfold mem_user_findUnique.
  destruct (as_int (parseInt id)) as [i|]; [|reflexivity].
  destruct (user_by_id d i); [reflexivity|].
  destruct (int32 i); reflexivity.
Qed.

(** What [GET /api/analytics/posts] answers on the store. *)
Lemma get_analytics_eq (d : Db) :
  get_analytics d =
  match map_analytics (map (category_stats d) (rows (categories d))) with
  | None => (Ok (JsonError 500 (message TypeError)), d)
  | Some a =>
      (Ok (Json 200
             {| categoryAnalytics := a;
                topAuthors :=
                  firstn 5 (sort_desc ac_count_posts
                              (map (author_count d) (rows (users d)))) |}), d)
  end.
Proof.
  unfold get_analytics, try_catch, bind. cbn -[map_analytics firstn].
  destruct (map_analytics _); reflexivity.
Qed.

(** X2. The handlers that read do not write: after the list, the record by
    id, the analytics and the search, answered or not, the store is what it
    was. *)
Theorem reads_never_write (d : Db) :
  (forall q, snd (get_users q d) = d) /\
  (forall id, snd (get_user id d) = d) /\
  snd (get_analytics d) = d /\
  (forall q, snd (search_posts q d) = d).
Proof.
  repeat apply conj.
  - intros q. rewrite get_users_eq. cbv zeta.
    destruct (user_filter _); [|reflexivity].
    destruct (window _ _ _); reflexivity.
  - intros id. rewrite get_user_eq.
    destruct (as_int _); [|reflexivity].
    destruct (user_by_id _ _); [reflexivity|].
    destruct (int32 _); reflexivity.
  - rewrite get_analytics_eq. destruct (map_analytics _); reflexivity.
  - intros q. rewrite search_posts_eq. cbv zeta.
    destruct (post_filter _ _); [|reflexivity].
    destruct (window _ _ _); reflexivity.
Qed.

Lemma same_rows_refl (d : Db) : same_rows d d.
Proof. repeat split. Qed.

(** X3. A request to write that is not answered with success has written
    nothing: after a create not answered 201, an update not answered 200, a
    delete not answered 204 and a transfer not answered 200, every table of
    the store has the rows it had before. *)
Theorem refused_writes_change_nothing (d : Db) :
  (forall body,
      status_of (fst (post_users body d)) <> Some 201 ->
      same_rows d (snd (post_users body d))) /\
  (forall id body,
      status_of (fst (put_user id body d)) <> Some 200 ->
      same_rows d (snd (put_user id body d))) /\
  (forall id,
      status_of (fst (delete_user id d)) <> Some 204 ->
      same_rows d (snd (delete_user id d))) /\
  (forall id email_,
      status_of (fst (transfer_post id email_ d)) <> Some 200 ->
      same_rows d (snd (transfer_post id email_ d))).
Proof.
  repeat apply conj.
  - intros body. unfold post_users, try_catch, bind. cbn. unfold mem_user_create.
    destruct (ud_email body); [|intros _; apply same_rows_refl].
    destruct (has _ || has _); [intros _; apply same_rows_refl|].
    destruct (ud_profile body); [|cbn; congruence].
    destruct (has _ || has _); [intros _; apply same_rows_refl|cbn; congruence].
  - intros id body. unfold put_user, try_catch, bind. cbn -[parseInt].
    unfold mem_user_update.
    destruct (as_int _) as [i|]; [|intros _; apply same_rows_refl].
    destruct (user_by_id _ _);
      [|destruct (int32 i); intros _; apply same_rows_refl].
    destruct (negb _ && has _); [intros _; apply same_rows_refl|].
    destruct (ud_profile body); [|cbn; congruence].
    destruct (profile_of _ _); cbn; congruence.
  - intros id. unfold delete_user, try_catch, bind. cbn -[parseInt].
    unfold mem_user_delete.
    destruct (as_int _) as [i|]; [|intros _; apply same_rows_refl].
    destruct (user_by_id _ _);
      [|destruct (int32 i); intros _; apply same_rows_refl].
    destruct (user_referenced _ _); [intros _; apply same_rows_refl|cbn; congruence].
  - intros id [e|].
    + rewrite transfer_post_eq.
      destruct (user_by_email _ _); [|intros _; apply same_rows_refl].
      destruct (as_int _); [|intros _; apply same_rows_refl].
      destruct (post_by_id _ _); [|intros _; apply same_rows_refl].
      destruct (has _); [cbn; congruence|intros _; apply same_rows_refl].
    + intros _. apply same_rows_refl.
Qed.

(** ** Creating, reading, updating and deleting one user *)

Lemma find_replace_other {A} (key : A -> Z) (n m : Z) (r : A) (l : list A) :
  key r = n -> m <> n ->
  find (fun x => key x =? m) (replace_row (fun x => key x =? n) r l)
  = find (fun x => key x =? m) l.
Proof.
  intros Hr Hm. induction l as [|x l IH]; cbn; [reflexivity|].
  destruct (Z.eqb_spec (key x) n) as [Hx|Hx].
  - rewrite Hr. destruct (Z.eqb_spec n m); [congruence|].
    destruct (Z.eqb_spec (key x) m); [congruence|]. exact IH.
  - destruct (key x =? m); [reflexivity|exact IH].
Qed.

Lemma find_filter_out {A} (key : A -> Z) (n : Z) (l : list A) :
  find (fun x => key x =? n) (filter (fun x => negb (key x =? n)) l) = None.
Proof.
  apply find_uncaught. intros x Hx. apply filter_In in Hx.
  destruct Hx as [_ Hx]. apply negb_true_iff in Hx. exact Hx.
Qed.

Lemma find_filter_other {A} (key : A -> Z) (n m : Z) (l : list A) :
  m <> n ->
  find (fun x => key x =? m) (filter (fun x => negb (key x =? n)) l)
  = find (fun x => key x =? m) l.
Proof.
  intros Hm. induction l as [|x l IH]; cbn; [reflexivity|].
  destruct (Z.eqb_spec (key x) n) as [Hx|Hx]; cbn.
  - destruct (Z.eqb_spec (key x) m); [congruence|]. exact IH.
  - destruct (key x =? m); [reflexivity|exact IH].
Qed.

(** X4. A user that [POST /api/users] has created is returned with the
    fields of the request, with the profile of the request when it has one,
    and [GET /api/users/:id] with the id of the new user then answers with
    the same user and the same profile. *)
Theorem created_user_is_returned_and_found
    (d d' : Db) (body : UserData) (created : UserOut) :
  post_users body d = (Ok (Json 201 created), d') ->
  ud_email body = Some (email (uo_user created)) /\
  name (uo_user created) = ud_name body /\
  age (uo_user created) = ud_age body /\
  (forall r, ud_role body = Some r -> role (uo_user created) = r) /\
  (ud_profile body = None -> uo_profile created = Some None) /\
  (forall pd,
      ud_profile body = Some pd ->
      exists p,
        uo_profile created = Some (Some p) /\
        userId p = user_id (uo_user created) /\
        bio p = pd_bio pd /\ avatar p = pd_avatar pd /\
        website p = pd_website pd /\ location p = pd_location pd) /\
  (forall id,
      parseInt id = JInt (user_id (uo_user created)) ->
      exists full,
        get_user id d' = (Ok (Json 200 full), d') /\
        uf_user full = uo_user created /\
        (ud_profile body <> None -> Some (uf_profile full) = uo_profile created)).
Proof.
  unfold post_users, try_catch, bind. cbn. unfold mem_user_create.
  destruct (ud_email body) as [e|] eqn:He; [|discriminate].
  destruct (has (user_by_email d e) || has (user_by_id d (next (users d)))) eqn:Htaken;
    [cbn; discriminate|].
  apply orb_false_elim in Htaken. destruct Htaken as [_ Hid]. apply has_false in Hid.
  destruct (ud_profile body) as [pd|] eqn:Hp.
  - destruct (has (profile_of d (next (users d))) || has _) eqn:Hprof;
      [cbn; discriminate|].
    apply orb_false_elim in Hprof. destruct Hprof as [Hnone _].
    apply has_false in Hnone.
    cbn. intros H. injection H as <- <-. cbn.
    repeat apply conj; try reflexivity.
    + intros r ->. reflexivity.
    + discriminate.
    + intros pd' H. injection H as <-. eexists. repeat apply conj; reflexivity.
    + intros id Hid'. rewrite get_user_eq, Hid', as_int_JInt.
      assert (Hu : forall dd, users dd = insert_row
                     {| user_id := next (users d); email := e; name := ud_name body;
                        age := ud_age body; role := or_else (ud_role body) USER;
                        isActive := true; user_createdAt := clock d |} (users d) ->
                  user_by_id dd (next (users d))
                  = Some {| user_id := next (users d); email := e;
                            name := ud_name body; age := ud_age body;
                            role := or_else (ud_role body) USER;
                            isActive := true; user_createdAt := clock d |}).
      { intros dd Hdd. unfold user_by_id. rewrite Hdd. cbn [insert_row rows].
        apply find_last; [exact Hid|]. cbn. apply Z.eqb_refl. }
      rewrite Hu by reflexivity.
      eexists. split; [reflexivity|]. split; [reflexivity|].
      intros _. cbn. f_equal. unfold profile_of. cbn.
      apply find_last; [exact Hnone|]. cbn. apply Z.eqb_refl.
  - cbn. intros H. injection H as <- <-. cbn.
    repeat apply conj; try reflexivity.
    + intros r ->. reflexivity.
    + intros pd H. discriminate.
    + intros id Hid'. rewrite get_user_eq, Hid', as_int_JInt.
      unfold user_by_id at 1. cbn.
      rewrite (find_last _ _ _ Hid) by (cbn; apply Z.eqb_refl).
      eexists. split; [reflexivity|]. split; [reflexivity|].
      intros H. contradiction.
Qed.

Lemma map_built {A B} (f : A -> B) (g : B -> A) (l : list A) :
  (forall x, g (f x) = x) -> map g (map f l) = l.
Proof.
  intros H. rewrite map_map. rewrite <- (map_id l) at 2.
  apply map_ext. exact H.
Qed.

(** X5. [GET /api/users/:id] answers with status 404 when the id reads as
    an integer of the range of the key, from -2147483648 to 2147483647, that
    is the id of no user; with the user of the id when there is one, with
    its profile, with exactly its posts, each with its junction rows and its
    comments, and with exactly its comments; and with status 500 when the
    id does not read as an integer, or reads as one outside the range that
    is the id of no user. *)
Theorem get_user_found_or_404 (d : Db) (id : string) :
  (forall n,
      parseInt id = JInt n ->
      -2147483648 <= n <= 2147483647 ->
      (forall u, In u (rows (users d)) -> user_id u <> n) ->
      fst (get_user id d) = Ok (JsonError 404 "User not found")) /\
  (forall n u,
      parseInt id = JInt n ->
      user_by_id d n = Some u ->
      exists full,
        fst (get_user id d) = Ok (Json 200 full) /\
        uf_user full = u /\ user_id u = n /\
        uf_profile full = profile_of d n /\
        map pu_post (uf_posts full)
        = filter (fun p => authorId p =? n) (rows (posts d)) /\
        Forall (fun p =>
                  map fst (pu_categories p)
                  = filter (fun pc => postId pc =? post_id (pu_post p))
                      (postCategories d) /\
                  map cp_comment (pu_comments p)
                  = filter (fun c => comment_postId c =? post_id (pu_post p))
                      (rows (comments d)))
               (uf_posts full) /\
        map cu_comment (uf_comments full)
        = filter (fun c => comment_authorId c =? n) (rows (comments d))) /\
  (forall n,
      parseInt id = JInt n ->
      n < -2147483648 \/ 2147483647 < n ->
      (forall u, In u (rows (users d)) -> user_id u <> n) ->
      status_of (fst (get_user id d)) = Some 500) /\
  ((forall n, parseInt id <> JInt n) ->
   status_of (fst (get_user id d)) = Some 500).
Proof.
  repeat apply conj.
  - intros n Hid Hrange Hnone. rewrite get_user_eq, Hid, as_int_JInt.
    assert (Hu : user_by_id d n = None).
    { apply find_uncaught. intros u Hin. apply Z.eqb_neq. apply Hnone. exact Hin. }
    rewrite Hu, int32_in by exact Hrange. reflexivity.
  - intros n u Hid Hu. rewrite get_user_eq, Hid, as_int_JInt, Hu.
    pose proof (find_some _ _ Hu) as [_ Hn]. apply Z.eqb_eq in Hn.
    eexists. split; [reflexivity|].
    cbn [uf_user uf_posts uf_comments uf_profile user_full].
    rewrite Hn.
    repeat apply conj; try reflexivity.
    + unfold posts_of_user. apply map_built. reflexivity.
    + unfold posts_of_user. apply Forall_forall. intros p Hp.
      apply in_map_iff in Hp. destruct Hp as [p0 [<- _]].
      cbn [pu_categories pu_comments pu_post]. split.
      * unfold categories_of. apply map_built. reflexivity.
      * unfold comments_of_post. apply map_built. reflexivity.
    + unfold comments_of_user. apply map_built. reflexivity.
  - intros n Hid Hrange Hnone. rewrite get_user_eq, Hid, as_int_JInt.
    assert (Hu : user_by_id d n = None).
    { apply find_uncaught. intros u Hin. apply Z.eqb_neq. apply Hnone. exact Hin. }
    rewrite Hu, int32_out by exact Hrange. reflexivity.
  - intros Hid. rewrite get_user_eq.
    destruct (parseInt_integer_or_NaN id) as [E|[[b E]|[z E]]].
    + rewrite E. reflexivity.
    + rewrite E. reflexivity.
    + exfalso. exact (Hid z E).
Qed.

(** X6. [PUT /api/users/:id] on a user that is there, with no email or with
    an email that is its own or free: the answer is the user with every
    given field replaced and every other field, its id and its time of
    creation kept; the store holds that user under the id, and the users of
    the other ids are untouched. *)
Theorem put_user_updates
    (d : Db) (id : string) (n : Z) (u : User) (body : UserData) :
  parseInt id = JInt n ->
  user_by_id d n = Some u ->
  (forall e, ud_email body = Some e -> e = email u \/ user_by_email d e = None) ->
  exists out d',
    put_user id body d = (Ok (Json 200 out), d') /\
    user_by_id d' n = Some (uo_user out) /\
    (forall m, m <> n -> user_by_id d' m = user_by_id d m) /\
    user_id (uo_user out) = user_id u /\
    user_createdAt (uo_user out) = user_createdAt u /\
    isActive (uo_user out) = isActive u /\
    email (uo_user out) = or_else (ud_email body) (email u) /\
    name (uo_user out) = match ud_name body with Some x => Some x | None => name u end /\
    age (uo_user out) = match ud_age body with Some x => Some x | None => age u end /\
    role (uo_user out) = or_else (ud_role body) (role u).
Proof.
  intros Hid Hu Hmail.
  pose proof (find_some _ _ Hu) as [_ Hn]. apply Z.eqb_eq in Hn.
  unfold put_user, try_catch, bind. cbn -[parseInt]. unfold mem_user_update.
  rewrite Hid, as_int_JInt, Hu.
  assert (Hfree : negb (String.eqb (email (updated_user body u)) (email u))
                  && has (user_by_email d (email (updated_user body u))) = false).
  { cbn [updated_user email]. destruct (ud_email body) as [e|] eqn:He; cbn [or_else].
    - destruct (Hmail e eq_refl) as [->|Hnone].
      + rewrite String.eqb_refl. reflexivity.
      + rewrite Hnone. apply andb_false_r.
    - rewrite String.eqb_refl. reflexivity. }
  rewrite Hfree.
  assert (Hfound : forall t,
             find (fun x => user_id x =? n)
               (replace_row (fun x => user_id x =? n) (updated_user body u) t)
             = match find (fun x => user_id x =? n) t with
               | Some _ => Some (updated_user body u)
               | None => None
               end).
  { intros t. induction t as [|x t IH]; cbn; [reflexivity|].
    destruct (Z.eqb_spec (user_id x) n) as [Hx|Hx]; cbn.
    - rewrite Hn, Z.eqb_refl. reflexivity.
    - destruct (Z.eqb_spec (user_id x) n); [contradiction|]. exact IH. }
  assert (Hother : forall m t, m <> n ->
             find (fun x => user_id x =? m)
               (replace_row (fun x => user_id x =? n) (updated_user body u) t)
             = find (fun x => user_id x =? m) t).
  { intros m t Hm. apply (find_replace_other user_id); [exact Hn|exact Hm]. }
  unfold user_by_id in Hu.
  destruct (ud_profile body) as [pd|]; [destruct (profile_of d n) as [p|]|];
    (eexists; eexists; split; [reflexivity|]);
    unfold user_by_id; cbn [users logged set_users set_profiles rows uo_user user_out];
    rewrite Hfound, Hu;
    (repeat apply conj; try reflexivity; intros m Hm; apply Hother; exact Hm).
Qed.

(** X7. [PUT /api/users/:id] with the email of another user is answered
    with status 500, where [POST /api/users] answers the same conflict with
    status 400: the update looks only for the code of a missing record. *)
Theorem put_user_taken_email
    (d : Db) (id : string) (n : Z) (u other : User) (body : UserData) (e : string) :
  parseInt id = JInt n ->
  user_by_id d n = Some u ->
  ud_email body = Some e ->
  e <> email u ->
  user_by_email d e = Some other ->
  status_of (fst (put_user id body d)) = Some 500 /\
  snd (put_user id body d) = d /\
  status_of (fst (post_users body d)) = Some 400.
Proof.
  intros Hid Hu He Hne Hother.
  unfold put_user, post_users, try_catch, bind. cbn -[parseInt].
  unfold mem_user_update, mem_user_create.
  rewrite Hid, as_int_JInt, Hu. cbn [updated_user email].
  rewrite He. cbn [or_else]. rewrite Hother. cbn [has].
  destruct (String.eqb_spec e (email u)); [contradiction|].
  repeat apply conj; reflexivity.
Qed.

(** X8. [PUT /api/users/:id] with a profile, on a user that is there and
    with no conflict of email: a user without a profile gets one with the
    fields of the request, and the profile of a user that has one keeps its
    id and gets the given fields replaced; in both cases the answer carries
    the profile that the store then holds for the user. *)
Theorem put_user_upserts_profile
    (d : Db) (id : string) (n : Z) (u : User) (body : UserData) (pd : ProfileData) :
  parseInt id = JInt n ->
  user_by_id d n = Some u ->
  (forall e, ud_email body = Some e -> e = email u \/ user_by_email d e = None) ->
  ud_profile body = Some pd ->
  exists out d' p,
    put_user id body d = (Ok (Json 200 out), d') /\
    uo_profile out = Some (Some p) /\
    profile_of d' n = Some p /\
    userId p = n /\
    (profile_of d n = None ->
     bio p = pd_bio pd /\ avatar p = pd_avatar pd /\
     website p = pd_website pd /\ location p = pd_location pd /\
     len (rows (profiles d')) = len (rows (profiles d)) + 1) /\
    (forall p0,
        profile_of d n = Some p0 ->
        profile_id p = profile_id p0 /\
        bio p = match pd_bio pd with Some x => Some x | None => bio p0 end /\
        avatar p = match pd_avatar pd with Some x => Some x | None => avatar p0 end /\
        website p = match pd_website pd with Some x => Some x | None => website p0 end /\
        location p = match pd_location pd with Some x => Some x | None => location p0 end /\
        len (rows (profiles d')) = len (rows (profiles d))).
Proof.
  intros Hid Hu Hmail Hpd.
  pose proof (find_some _ _ Hu) as [_ Hn]. apply Z.eqb_eq in Hn.
  unfold put_user, try_catch, bind. cbn -[parseInt]. unfold mem_user_update.
  rewrite Hid, as_int_JInt, Hu, Hpd.
  assert (Hfree : negb (String.eqb (email (updated_user body u)) (email u))
                  && has (user_by_email d (email (updated_user body u))) = false).
  { cbn [updated_user email]. destruct (ud_email body) as [e|] eqn:He; cbn [or_else].
    - destruct (Hmail e eq_refl) as [->|Hnone].
      + rewrite String.eqb_refl. reflexivity.
      + rewrite Hnone. apply andb_false_r.
    - rewrite String.eqb_refl. reflexivity. }
  rewrite Hfree.
  destruct (profile_of d n) as [p0|] eqn:Hp0.
  - pose proof (find_some _ _ Hp0) as [_ Hp0n]. apply Z.eqb_eq in Hp0n.
    assert (Hfound : profile_of
                       (set_profiles
                          {| rows := replace_row (fun x => userId x =? n)
                                       (updated_profile pd p0) (rows (profiles d));
                             next := next (profiles d) |}
                          (set_users
                             {| rows := replace_row (fun x => user_id x =? n)
                                          (updated_user body u) (rows (users d));
                                next := next (users d) |} d)) n
                     = Some (updated_profile pd p0)).
    { unfold profile_of. cbn [profiles set_profiles rows].
      eapply find_replace_row; [exact Hp0|]. cbn. rewrite Hp0n. apply Z.eqb_refl. }
    eexists. eexists. exists (updated_profile pd p0).
    split; [reflexivity|].
    cbn [uo_profile user_out updated_user user_id]. rewrite Hn, Hfound.
    repeat apply conj; try reflexivity.
    + unfold profile_of in *. cbn [profiles logged set_profiles rows] in *.
      exact Hfound.
    + exact Hp0n.
    + discriminate.
    + intros p1 H. injection H as <-.
      repeat apply conj; try reflexivity.
      unfold len, replace_row. cbn [profiles logged set_profiles rows].
      rewrite length_map. reflexivity.
  - assert (Hfound : profile_of
                       (set_profiles
                          (insert_row (new_profile (next (profiles d)) n pd) (profiles d))
                          (set_users
                             {| rows := replace_row (fun x => user_id x =? n)
                                          (updated_user body u) (rows (users d));
                                next := next (users d) |} d)) n
                     = Some (new_profile (next (profiles d)) n pd)).
    { unfold profile_of. cbn [profiles set_profiles insert_row rows].
      apply find_last; [exact Hp0|]. cbn. apply Z.eqb_refl. }
    eexists. eexists. exists (new_profile (next (profiles d)) n pd).
    split; [reflexivity|].
    cbn [uo_profile user_out updated_user user_id]. rewrite Hn, Hfound.
    repeat apply conj; try reflexivity.
    + unfold profile_of in *. cbn [profiles logged set_profiles rows] in *.
      exact Hfound.
    + intros _. repeat apply conj; try reflexivity.
      unfold len. cbn [profiles logged set_profiles insert_row rows].
      rewrite length_app. cbn. lia.
    + intros p1 H. discriminate.
Qed.

(** X9. [DELETE /api/users/:id] on a user that is there and that nothing
    points to is answered with status 204; the user is then gone, the users
    of the other ids are untouched, and the same request once more, its id
    being of the range of the key as the id of a row is, is answered with
    status 404. *)
Theorem delete_user_removes (d : Db) (id : string) (n : Z) (u : User) :
  parseInt id = JInt n ->
  user_by_id d n = Some u ->
  user_referenced d n = false ->
  exists d',
    delete_user id d = (Ok (Send 204), d') /\
    user_by_id d' n = None /\
    (forall m, m <> n -> user_by_id d' m = user_by_id d m) /\
    (-2147483648 <= n <= 2147483647 ->
     delete_user id d' = (Ok (JsonError 404 "User not found"), d')).
Proof.
  intros Hid Hu Href.
  unfold delete_user, try_catch, bind. cbn -[parseInt]. unfold mem_user_delete.
  rewrite Hid, as_int_JInt, Hu, Href.
  eexists. split; [reflexivity|].
  assert (Hgone : forall dd,
             rows (users dd) = filter (fun x => negb (user_id x =? n)) (rows (users d)) ->
             user_by_id dd n = None).
  { intros dd Hdd. unfold user_by_id. rewrite Hdd. apply find_filter_out. }
  repeat apply conj.
  - apply Hgone. reflexivity.
  - intros m Hm. unfold user_by_id. cbn [users logged set_users rows].
    apply find_filter_other. exact Hm.
  - intros Hrange. rewrite Hgone by reflexivity.
    rewrite int32_in by exact Hrange. reflexivity.
Qed.

(** ** More on the transfer *)

(** X10. [POST /api/posts/:id/transfer] surfaces the first failure as a
    client error: without an email in the body, and with an email of no
    user whatever the post, the author is the failure; with a new author
    that is there, an id that does not read as an integer, an id of the
    range of the key that is the id of no post, and an id outside the range
    that is the id of no post, are the failure; each is answered with
    status 400. *)
Theorem transfer_refusals (d : Db) (id : string) :
  status_of (fst (transfer_post id None d)) = Some 400 /\
  (forall e,
      user_by_email d e = None ->
      fst (transfer_post id (Some e) d) = Ok (JsonError 400 "New author not found")) /\
  (forall e u,
      user_by_email d e = Some u ->
      (forall n, parseInt id <> JInt n) ->
      status_of (fst (transfer_post id (Some e) d)) = Some 400) /\
  (forall e u n,
      user_by_email d e = Some u ->
      parseInt id = JInt n ->
      -2147483648 <= n <= 2147483647 ->
      (forall p, In p (rows (posts d)) -> post_id p <> n) ->
      fst (transfer_post id (Some e) d) = Ok (JsonError 400 "Post not found")) /\
  (forall e u n,
      user_by_email d e = Some u ->
      parseInt id = JInt n ->
      n < -2147483648 \/ 2147483647 < n ->
      (forall p, In p (rows (posts d)) -> post_id p <> n) ->
      status_of (fst (transfer_post id (Some e) d)) = Some 400).
Proof.
  repeat apply conj.
  - reflexivity.
  - intros e He. rewrite transfer_post_eq, He. reflexivity.
  - intros e u He Hid. rewrite transfer_post_eq, He.
    destruct (parseInt_integer_or_NaN id) as [E|[[b E]|[z E]]].
    + rewrite E. reflexivity.
    + rewrite E. reflexivity.
    + exfalso. exact (Hid z E).
  - intros e u n He Hid Hrange Hnone.
    rewrite transfer_post_eq, He, Hid, as_int_JInt.
    assert (Hp : post_by_id d n = None).
    { apply find_uncaught. intros p Hin. apply Z.eqb_neq. apply Hnone. exact Hin. }
    rewrite Hp, int32_in by exact Hrange. reflexivity.
  - intros e u n He Hid Hrange Hnone.
    rewrite transfer_post_eq, He, Hid, as_int_JInt.
    assert (Hp : post_by_id d n = None).
    { apply find_uncaught. intros p Hin. apply Z.eqb_neq. apply Hnone. exact Hin. }
    rewrite Hp, int32_out by exact Hrange. reflexivity.
Qed.

(** X11. A transfer that succeeds writes one post and nothing else: the
    users, the posts of the other ids and the number of posts are what they
    were, and the journal has one update more.  The same transfer once more
    succeeds again, names the new author as the previous one and leaves the
    posts as they are. *)
Theorem transfer_writes_one_post
    (d : Db) (id e : string) (n : Z) (p : Post) (u : User) :
  parseInt id = JInt n ->
  post_by_id d n = Some p ->
  user_by_email d e = Some u ->
  exists result d',
    transfer_post id (Some e) d = (Ok (Json 200 result), d') /\
    users d' = users d /\
    (forall m, m <> n -> post_by_id d' m = post_by_id d m) /\
    len (rows (posts d')) = len (rows (posts d)) /\
    journal d' = journal d ++ [Update MPost] /\
    exists again d'',
      transfer_post id (Some e) d' = (Ok (Json 200 again), d'') /\
      previousAuthor again = user_by_id d (user_id u) /\
      pf_author (post again) = user_by_id d (user_id u) /\
      posts d'' = posts d'.
Proof.
  intros Hid Hp Hu.
  pose proof (find_some _ _ Hp) as [_ Hn]. apply Z.eqb_eq in Hn.
  assert (Hex : has (user_by_id d (user_id u)) = true).
  { apply find_some in Hu. destruct Hu as [Hin _].
    eapply find_caught; [exact Hin|]. apply Z.eqb_refl. }
  rewrite transfer_post_eq, Hu, Hid, as_int_JInt, Hp, Hex. cbv zeta.
  eexists. eexists. split; [reflexivity|].
  set (p' := with_author (user_id u) p).
  set (d1 := set_posts
               {| rows := replace_row (fun x => post_id x =? n) p' (rows (posts d));
                  next := next (posts d) |} d).
  assert (Hp' : post_by_id (logged [Update MPost] d1) n = Some p').
  { unfold post_by_id, d1. cbn [posts logged set_posts rows].
    eapply find_replace_row; [exact Hp|]. cbn. rewrite Hn. apply Z.eqb_refl. }
  repeat apply conj; try reflexivity.
  - intros m Hm. unfold post_by_id, d1. cbn [posts logged set_posts rows].
    apply (find_replace_other post_id); [exact Hn|exact Hm].
  - unfold len, d1. cbn [posts logged set_posts rows]. unfold replace_row.
    rewrite length_map. reflexivity.
  - rewrite transfer_post_eq.
    assert (Hu' : user_by_email (logged [Update MPost] d1) e = Some u) by exact Hu.
    assert (Hex' : has (user_by_id (logged [Update MPost] d1) (user_id u)) = true)
      by exact Hex.
    rewrite Hu', Hid, as_int_JInt, Hp', Hex'. cbv zeta.
    eexists. eexists. split; [reflexivity|].
    repeat apply conj; try reflexivity.
    unfold d1. cbn [posts logged set_posts rows]. f_equal.
    unfold replace_row. rewrite map_map.
    apply map_ext. intros x.
    destruct (Z.eqb_spec (post_id x) n) as [Hx|Hx].
    + cbn. rewrite Hn, Z.eqb_refl. reflexivity.
    + destruct (Z.eqb_spec (post_id x) n); [contradiction|reflexivity].
Qed.

(** ** What the lists return *)

Section Sortedness.

Context {A : Type} (R : A -> A -> Prop).

Lemma sorted_firstn (n : nat) (l : list A) :
  StronglySorted R l -> StronglySorted R (firstn n l).
Proof.
  revert l. induction n as [|n IH]; intros l H; cbn; [constructor|].
  destruct l as [|x l]; [constructor|].
  apply StronglySorted_inv in H. destruct H as [Hs Hf]. constructor.
  - apply IH. exact Hs.
  - apply Forall_forall. intros y Hy. rewrite Forall_forall in Hf.
    apply Hf. eapply In_firstn. exact Hy.
Qed.

Lemma sorted_skipn (n : nat) (l : list A) :
  StronglySorted R l -> StronglySorted R (skipn n l).
Proof.
  revert l. induction n as [|n IH]; intros l H; cbn; [exact H|].
  destruct l as [|x l]; [constructor|].
  apply StronglySorted_inv in H. destruct H as [Hs _]. apply IH. exact Hs.
Qed.

Lemma sorted_snoc (l : list A) (x : A) :
  StronglySorted R l -> Forall (fun y => R y x) l -> StronglySorted R (l ++ [x]).
Proof.
  induction l as [|y l IH]; intros Hs Hf; cbn.
  - constructor; constructor.
  - apply StronglySorted_inv in Hs. destruct Hs as [Hs Hy].
    inversion Hf as [|? ? Hyx Hf']; subst. constructor.
    + apply IH; assumption.
    + apply Forall_app. split; [exact Hy|]. constructor; [exact Hyx|constructor].
Qed.

End Sortedness.

Lemma sorted_rev {A} (R : A -> A -> Prop) (l : list A) :
  StronglySorted R l -> StronglySorted (fun a b => R b a) (rev l).
Proof.
  induction l as [|x l IH]; intros H; cbn; [constructor|].
  apply StronglySorted_inv in H. destruct H as [Hs Hf].
  apply sorted_snoc; [apply IH; exact Hs|].
  apply Forall_forall. intros y Hy. rewrite Forall_forall in Hf.
  apply Hf. apply in_rev. exact Hy.
Qed.

Lemma insert_desc_sorted {A} (key : A -> Z) (x : A) (l : list A) :
  newest_first key l -> newest_first key (insert_desc key x l).
Proof.
  unfold newest_first. induction l as [|y l IH]; intros H; cbn.
  - constructor; constructor.
  - apply StronglySorted_inv in H. destruct H as [Hs Hf].
    destruct (Z.leb_spec (key y) (key x)) as [Hle|Hgt].
    + constructor; [constructor; assumption|].
      constructor; [exact Hle|].
      eapply Forall_impl; [|exact Hf]. intros z Hz. cbv beta in Hz. lia.
    + constructor; [apply IH; exact Hs|].
      apply Forall_forall. intros z Hz. apply insert_desc_In in Hz.
      destruct Hz as [->|Hz]; [lia|].
      rewrite Forall_forall in Hf. apply Hf. exact Hz.
Qed.

Lemma sort_desc_sorted {A} (key : A -> Z) (l : list A) :
  newest_first key (sort_desc key l).
Proof.
  induction l as [|x l IH]; [constructor|].
  change (sort_desc key (x :: l)) with (insert_desc key x (sort_desc key l)).
  apply insert_desc_sorted. exact IH.
Qed.

Lemma window_sorted {A} (key : A -> Z) (s t : jsnum) (l w : list A) :
  window s t l = Some w -> newest_first key l -> newest_first key w.
Proof.
  unfold window, newest_first.
  destruct (as_int s) as [s'|]; [|discriminate].
  destruct (as_int t) as [t'|]; [|discriminate].
  destruct (s' <? 0); [discriminate|].
  destruct (0 <=? t'); intros E H; injection E as <-.
  - apply sorted_firstn, sorted_skipn. exact H.
  - apply (sorted_rev (fun a b => key a <= key b)).
    apply sorted_firstn, sorted_skipn.
    apply (sorted_rev (fun a b => key b <= key a)). exact H.
Qed.

Lemma map_sorted {A B} (f : A -> B) (time : B -> Z) (l : list A) :
  newest_first (fun a => time (f a)) l -> newest_first time (map f l).
Proof.
  unfold newest_first. induction l as [|x l IH]; intros H; cbn; [constructor|].
  apply StronglySorted_inv in H. destruct H as [Hs Hf]. constructor.
  - apply IH. exact Hs.
  - apply Forall_forall. intros y Hy. apply in_map_iff in Hy.
    destruct Hy as [a [<- Ha]]. rewrite Forall_forall in Hf. apply Hf. exact Ha.
Qed.

Lemma window_length {A} (s t : jsnum) (z : Z) (l w : list A) :
  window s t l = Some w -> as_int t = Some z ->
  len w <= Z.abs z /\ len w <= len l.
Proof.
  unfold window. intros E Ht. rewrite Ht in E.
  destruct (as_int s) as [s'|]; [|discriminate].
  destruct (s' <? 0); [discriminate|].
  unfold len.
  destruct (Z.leb_spec 0 z); injection E as <-.
  - pose proof (firstn_le_length (Z.to_nat z) (skipn (Z.to_nat s') l)) as H1.
    rewrite length_firstn, length_skipn in *. lia.
  - rewrite length_rev, length_firstn, length_skipn, length_rev. lia.
Qed.

(** X12. The list of the users and the search of the posts return their
    records newest first, and never more of them than the limit, nor more
    than the total they report. *)
Theorem lists_are_ordered_and_bounded (d : Db) :
  (forall q st pg,
      fst (get_users q d) = Ok (Json st pg) ->
      newest_first (fun uo => user_createdAt (uo_user uo)) (data pg) /\
      exists l, limit (pagination pg) = JInt l /\
                len (data pg) <= Z.abs l /\
                len (data pg) <= total (pagination pg)) /\
  (forall q st pg,
      fst (search_posts q d) = Ok (Json st pg) ->
      newest_first (fun po => createdAt (po_post po)) (data pg) /\
      exists l, limit (pagination pg) = JInt l /\
                len (data pg) <= Z.abs l /\
                len (data pg) <= total (pagination pg)).
Proof.
  assert (Hint : forall t z, as_int t = Some z ->
                   forall s, parseInt s = t -> t = JInt z).
  { intros t z Ht s Hs.
    destruct (parseInt_integer_or_NaN s) as [Hn|[[b Hb]|[z' Hz']]].
    - rewrite Hn in Hs. subst t. discriminate.
    - rewrite Hb in Hs. subst t. discriminate.
    - rewrite Hz' in Hs. subst t. rewrite as_int_JInt in Ht. congruence. }
  split.
  - intros q st pg. rewrite get_users_eq. cbv zeta.
    destruct (user_filter _) as [f|]; [|discriminate].
    destruct (window _ _ _) as [us|] eqn:Ew; [|discriminate].
    cbn [fst]. intros H. injection H as _ <-. cbn [data pagination limit total].
    split.
    + apply map_sorted. cbn [uo_user user_out].
      eapply window_sorted; [exact Ew|]. apply sort_desc_sorted.
    + assert (Hz : exists z, as_int (parseInt (or_default (uq_limit q) "10")) = Some z).
      { unfold window in Ew. destruct (as_int (jmul _ _)) as [s0|]; [|discriminate].
        destruct (as_int (parseInt _)) as [z|]; [eauto|discriminate]. }
      destruct Hz as [z Hz]. exists z.
      split; [eapply Hint; [exact Hz|reflexivity]|].
      destruct (window_length _ _ z _ _ Ew Hz) as [H1 H2].
      unfold len in *. rewrite length_map. rewrite sort_desc_length in H2.
      split; assumption.
  - intros q st pg. rewrite search_posts_eq. cbv zeta.
    destruct (post_filter _ _) as [f|]; [|discriminate].
    destruct (window _ _ _) as [ps|] eqn:Ew; [|discriminate].
    cbn [fst]. intros H. injection H as _ <-. cbn [data pagination limit total].
    split.
    + apply map_sorted. cbn [po_post post_out].
      eapply window_sorted; [exact Ew|]. apply sort_desc_sorted.
    + assert (Hz : exists z, as_int (parseInt (or_default (sq_limit q) "10")) = Some z).
      { unfold window in Ew. destruct (as_int (jmul _ _)) as [s0|]; [|discriminate].
        destruct (as_int (parseInt _)) as [z|]; [eauto|discriminate]. }
      destruct Hz as [z Hz]. exists z.
      split; [eapply Hint; [exact Hz|reflexivity]|].
      destruct (window_length _ _ z _ _ Ew Hz) as [H1 H2].
      unfold len in *. rewrite length_map. rewrite sort_desc_length in H2.
      split; assumption.
Qed.

(** ** The pages of a list *)

Lemma pages_cover {A} (l T : nat) :
  (0 < l)%nat ->
  forall L : list A,
    (List.length L <= T * l)%nat ->
    List.concat (map (fun k => firstn l (skipn (k * l) L)) (seq 0 T)) = L.
Proof.
  intros Hl. induction T as [|T IH]; intros L HL.
  - destruct L; [reflexivity|cbn in HL; lia].
  - cbn [seq map List.concat]. rewrite <- seq_shift, map_map.
    transitivity (firstn l L ++ skipn l L); [|apply firstn_skipn].
    f_equal.
    rewrite <- (IH (skipn l L)) at 1 by (rewrite length_skipn; lia).
    f_equal. apply map_ext. intros k.
    rewrite skipn_skipn. do 2 f_equal. lia.
Qed.

Lemma page_count_covers {A} (L : list A) (l : Z) :
  0 < l ->
  (List.length L <= Z.to_nat ((len L + l - 1) / l) * Z.to_nat l)%nat.
Proof.
  intros Hl. unfold len.
  destruct (ceil_bounds (Z.of_nat (List.length L)) l Hl) as [B1 B2].
  assert (0 <= (Z.of_nat (List.length L) + l - 1) / l) by (apply Z.div_pos; lia).
  rewrite <- Z2Nat.inj_mul by lia.
  rewrite <- (Nat2Z.id (List.length L)) at 1. apply Z2Nat.inj_le; lia.
Qed.

Lemma insert_desc_perm {A} (key : A -> Z) (x : A) (l : list A) :
  Permutation (insert_desc key x l) (x :: l).
Proof.
  induction l as [|y l IH]; cbn [insert_desc]; [apply Permutation_refl|].
  destruct (key y <=? key x); [apply Permutation_refl|].
  eapply perm_trans; [apply perm_skip; exact IH|apply perm_swap].
Qed.

Lemma sort_desc_perm {A} (key : A -> Z) (l : list A) :
  Permutation (sort_desc key l) l.
Proof.
  induction l as [|x l IH]; [apply Permutation_refl|].
  change (sort_desc key (x :: l)) with (insert_desc key x (sort_desc key l)).
  eapply perm_trans; [apply insert_desc_perm|]. apply perm_skip. exact IH.
Qed.

(** The pages of a list, one after the other, in the order of the store. *)
Lemma pages_in_order
    (d : Db) (limit_param : option string) (l : Z) (page_of : nat -> string) :
  toNumber (or_default limit_param "10") = JInt l ->
  parseInt (or_default limit_param "10") = JInt l ->
  0 < l <= 2147483647 ->
  len (rows (users d)) <= 2147483647 ->
  len (rows (posts d)) <= 2147483647 ->
  (forall include role search f,
      user_filter (users_where role search) = Some f ->
      let selected := sort_desc user_createdAt (filter f (rows (users d))) in
      let T := Z.to_nat ((len selected + l - 1) / l) in
      (forall k, (1 <= k <= T)%nat -> toNumber (page_of k) = JInt (Z.of_nat k)) ->
      map uo_user
        (List.concat
           (map (fun k =>
                   data_of (fst (get_users
                                   (mkUsersQuery (Some (page_of k)) limit_param
                                      include role search) d)))
                (seq 1 T)))
      = selected)
  /\
  (forall q category author published min_views date_from date_to f,
      post_filter d
        (search_where
           (mkSearchQuery q category author published min_views date_from date_to
              None limit_param)) = Some f ->
      let selected := sort_desc createdAt (filter f (rows (posts d))) in
      let T := Z.to_nat ((len selected + l - 1) / l) in
      (forall k, (1 <= k <= T)%nat -> toNumber (page_of k) = JInt (Z.of_nat k)) ->
      map po_post
        (List.concat
           (map (fun k =>
                   data_of (fst (search_posts
                                   (mkSearchQuery q category author published
                                      min_views date_from date_to
                                      (Some (page_of k)) limit_param) d)))
                (seq 1 T)))
      = selected).
Proof.
  intros Hn Hi Hl Husers Hposts.
  assert (H53 : 2147483647 < 2 ^ 53) by (vm_compute; reflexivity).
  assert (Hoff : forall (n : Z) (T k : nat),
             0 <= n <= 2147483647 ->
             T = Z.to_nat ((n + l - 1) / l) -> (k < T)%nat ->
             0 <= Z.of_nat k * l <= 2147483647 /\ 0 <= Z.of_nat k <= 2147483647).
  { intros n T k Hn0 HT Hk.
    destruct (ceil_bounds n l ltac:(lia)) as [B1 B2].
    assert (0 <= (n + l - 1) / l) by (apply Z.div_pos; lia).
    assert (Z.of_nat k + 1 <= (n + l - 1) / l) by lia.
    split; nia. }
  split.
  - intros include role search f Ef selected T Hpages.
    rewrite concat_map, map_map.
    rewrite <- (pages_cover (Z.to_nat l) T ltac:(lia) selected)
      by (apply page_count_covers; lia).
    rewrite <- seq_shift, map_map. f_equal.
    apply map_ext_in. intros k Hk. apply in_seq in Hk.
    rewrite get_users_eq.
    cbn [uq_page uq_limit uq_include_profile uq_role uq_search or_default].
    rewrite Ef, (Hpages (S k)) by lia.
    pose proof (len_filter_le f (rows (users d))) as Hf.
    destruct (Hoff (len selected) T k) as [O1 O2];
      [unfold selected; rewrite len_sort_desc; lia|reflexivity|lia|].
    rewrite Hn, Hi, skip_int
      by (replace (Z.of_nat (S k) - 1) with (Z.of_nat k) by lia; lia).
    rewrite window_int
      by (replace (Z.of_nat (S k) - 1) with (Z.of_nat k) by lia; lia).
    cbn [fst data_of data]. rewrite map_map. cbn [uo_user user_out]. rewrite map_id.
    fold selected. do 2 f_equal. lia.
  - intros q category author published min_views date_from date_to f Ef
           selected T Hpages.
    rewrite concat_map, map_map.
    rewrite <- (pages_cover (Z.to_nat l) T ltac:(lia) selected)
      by (apply page_count_covers; lia).
    rewrite <- seq_shift, map_map. f_equal.
    apply map_ext_in. intros k Hk. apply in_seq in Hk.
    rewrite search_posts_eq.
    cbn [sq_page sq_limit or_default].
    change (search_where
              (mkSearchQuery q category author published min_views date_from
                 date_to (Some (page_of (S k))) limit_param))
      with (search_where
              (mkSearchQuery q category author published min_views date_from
                 date_to None limit_param)).
    rewrite Ef, (Hpages (S k)) by lia.
    pose proof (len_filter_le f (rows (posts d))) as Hf.
    destruct (Hoff (len selected) T k) as [O1 O2];
      [unfold selected; rewrite len_sort_desc; lia|reflexivity|lia|].
    rewrite Hn, Hi, skip_int
      by (replace (Z.of_nat (S k) - 1) with (Z.of_nat k) by lia; lia).
    rewrite window_int
      by (replace (Z.of_nat (S k) - 1) with (Z.of_nat k) by lia; lia).
    cbn [fst data_of data]. rewrite map_map. cbn [po_post post_out]. rewrite map_id.
    fold selected. do 2 f_equal. lia.
Qed.

(** X13. The pages of a list cover it: for a limit that both coercions read
    as the same integer from 1 to 2147483647, on tables of at most
    2147483647 rows whose times of creation differ, the data of the pages 1
    to totalPages, one after the other, are the records that the where
    clause selects, each of them once, newest first. *)
Theorem pages_cover_the_list
    (d : Db) (limit_param : option string) (l : Z) (page_of : nat -> string) :
  toNumber (or_default limit_param "10") = JInt l ->
  parseInt (or_default limit_param "10") = JInt l ->
  0 < l <= 2147483647 ->
  len (rows (users d)) <= 2147483647 ->
  len (rows (posts d)) <= 2147483647 ->
  NoDup (map user_createdAt (rows (users d))) ->
  NoDup (map createdAt (rows (posts d))) ->
  (forall include role search f,
      user_filter (users_where role search) = Some f ->
      let T := Z.to_nat ((len (filter f (rows (users d))) + l - 1) / l) in
      (forall k, (1 <= k <= T)%nat -> toNumber (page_of k) = JInt (Z.of_nat k)) ->
      let pages :=
        map uo_user
          (List.concat
             (map (fun k =>
                     data_of (fst (get_users
                                     (mkUsersQuery (Some (page_of k)) limit_param
                                        include role search) d)))
                  (seq 1 T))) in
      Permutation pages (filter f (rows (users d))) /\
      newest_first user_createdAt pages)
  /\
  (forall q category author published min_views date_from date_to f,
      post_filter d
        (search_where
           (mkSearchQuery q category author published min_views date_from date_to
              None limit_param)) = Some f ->
      let T := Z.to_nat ((len (filter f (rows (posts d))) + l - 1) / l) in
      (forall k, (1 <= k <= T)%nat -> toNumber (page_of k) = JInt (Z.of_nat k)) ->
      let pages :=
        map po_post
          (List.concat
             (map (fun k =>
                     data_of (fst (search_posts
                                     (mkSearchQuery q category author published
                                        min_views date_from date_to
                                        (Some (page_of k)) limit_param) d)))
                  (seq 1 T))) in
      Permutation pages (filter f (rows (posts d))) /\
      newest_first createdAt pages).
Proof.
  intros Hn Hi Hl Husers Hposts _ _.
  destruct (pages_in_order d limit_param l page_of Hn Hi Hl Husers Hposts)
    as [HU HP].
  split.
  - intros include role search f Ef T Hpages pages.
    specialize (HU include role search f Ef). cbv zeta in HU.
    rewrite len_sort_desc in HU. specialize (HU Hpages).
    subst pages T. rewrite HU.
    split; [apply sort_desc_perm|apply sort_desc_sorted].
  - intros q category author published min_views date_from date_to f Ef T
           Hpages pages.
    specialize (HP q category author published min_views date_from date_to f Ef).
    cbv zeta in HP. rewrite len_sort_desc in HP. specialize (HP Hpages).
    subst pages T. rewrite HP.
    split; [apply sort_desc_perm|apply sort_desc_sorted].
Qed.

(** ** The search without filters *)

(** C6 (amended). For every store of fewer than 2^53 posts, the search with
    none of its seven filter parameters, for a page that both coercions
    read as the same integer [p] from 1 on and a limit that both read as
    the same integer [l] from 1 to 2147483647, with an offset of at most
    2147483647, is answered with the unfiltered paginated list of posts of
    that page and limit: the same records in the same order, and the same
    pagination values. *)
Theorem search_without_filters
    (d : Db) (page_param limit_param : option string) (p l : Z) :
  toNumber (or_default page_param "1") = JInt p ->
  parseInt (or_default page_param "1") = JInt p ->
  toNumber (or_default limit_param "10") = JInt l ->
  parseInt (or_default limit_param "10") = JInt l ->
  1 <= p ->
  1 <= l <= 2147483647 ->
  (p - 1) * l <= 2147483647 ->
  len (rows (posts d)) < 2 ^ 53 ->
  exists pg,
    search_posts
      (mkSearchQuery None None None None None None None page_param limit_param) d
    = (Ok (Json 200 pg), d) /\
    spec_unfiltered_page p l d pg.
Proof.
  intros Hpn Hpi Hln Hli Hp Hl Hoff Hsize.
  assert (H53 : 2147483647 < 2 ^ 53) by (vm_compute; reflexivity).
  rewrite search_posts_eq. cbn [sq_page sq_limit].
  change (post_filter d
            (search_where
               (mkSearchQuery None None None None None None None page_param
                  limit_param)))
    with (Some (fun _ : Post => true)).
  cbv beta iota zeta. rewrite filter_all by reflexivity.
  rewrite Hpn, Hpi, Hln, Hli, skip_int by nia.
  rewrite window_int by nia.
  rewrite ceil_div_pos by (unfold len in *; lia).
  eexists. split; [reflexivity|].
  exists (sort_desc createdAt (rows (posts d))).
  cbn [data pagination page limit total totalPages].
  destruct (ceil_bounds (len (rows (posts d))) l) as [B1 B2]; [lia|].
  repeat apply conj.
  - apply sort_desc_perm.
  - apply sort_desc_sorted.
  - apply map_built. reflexivity.
  - apply Forall_forall. intros po Hpo.
    apply in_map_iff in Hpo. destruct Hpo as [p0 [<- _]].
    unfold spec_with_relations. cbn [po_author po_post po_categories
                                      po_count_comments post_out].
    repeat apply conj; try reflexivity.
    + unfold categories_of. apply map_built. reflexivity.
    + unfold categories_of. apply Forall_forall. intros e He.
      apply in_map_iff in He. destruct He as [pc [<- _]]. reflexivity.
  - reflexivity.
  - reflexivity.
  - reflexivity.
  - exists ((len (rows (posts d)) + l - 1) / l). split; [reflexivity|lia].
Qed.

(** ** Filters *)

Lemma when_truthy_some (s : string) :
  s <> EmptyString -> when_truthy (Some s) = Some s.
Proof. destruct s; [congruence|reflexivity]. Qed.

Lemma truthy_some (s : string) : s <> EmptyString -> truthy (Some s) = true.
Proof. destruct s; [congruence|reflexivity]. Qed.

Lemma when_truthy_idem (o : option string) :
  when_truthy (when_truthy o) = when_truthy o.
Proof. destruct o as [[|c s]|]; reflexivity. Qed.

Lemma truthy_when_truthy (o : option string) :
  truthy (when_truthy o) = truthy o.
Proof. destruct o as [[|c s]|]; reflexivity. Qed.

Lemma parseInt_empty : parseInt EmptyString = JNaN.
Proof. reflexivity. Qed.

Lemma window_NaN {A} (skip : jsnum) (l : list A) : window skip JNaN l = None.
Proof. unfold window. destruct (as_int skip); reflexivity. Qed.

(** X14. An empty filter is no filter: for every query layer, the list of
    users and the search answer a query with empty values for role, search,
    q, category, author, min_views, date_from or date_to as they answer the
    query without these parameters.  An empty limit is not replaced by the
    default: on the store the answer is then 500. *)
Theorem blank_parameters :
  (forall W (prisma : Prisma W) (q : UsersQuery) (w : W),
      get_users (users_query_without_blanks q) w = get_users q w) /\
  (forall W (prisma : Prisma W) (q : SearchQuery) (w : W),
      search_posts (search_query_without_blanks q) w = search_posts q w) /\
  (forall (q : UsersQuery) (d : Db),
      uq_limit q = Some EmptyString ->
      status_of (fst (get_users q d)) = Some 500) /\
  (forall (q : SearchQuery) (d : Db),
      sq_limit q = Some EmptyString ->
      status_of (fst (search_posts q d)) = Some 500).
Proof.
  repeat apply conj.
  - intros W prisma q w. unfold get_users, users_query_without_blanks, users_where.
    cbn [uq_page uq_limit uq_include_profile uq_role uq_search].
    rewrite !when_truthy_idem. reflexivity.
  - intros W prisma q w.
    assert (E : search_where (search_query_without_blanks q) = search_where q).
    { unfold search_where, search_query_without_blanks.
      cbn [sq_q sq_category sq_author sq_published sq_min_views sq_date_from
           sq_date_to].
      rewrite !when_truthy_idem, !truthy_when_truthy. reflexivity. }
    unfold search_posts. rewrite E. reflexivity.
  - intros q d E. rewrite get_users_eq. cbv zeta. rewrite E.
    cbn [or_default]. rewrite parseInt_empty.
    destruct (user_filter _); [|reflexivity].
    rewrite window_NaN. reflexivity.
  - intros q d E. rewrite search_posts_eq. cbv zeta. rewrite E.
    cbn [or_default]. rewrite parseInt_empty.
    destruct (post_filter _ _); [|reflexivity].
    rewrite window_NaN. reflexivity.
Qed.

(** X15. Every post the search returns passes every filter of the query:
    it is a post of the table, returned with its author, its junction rows
    with their categories and the number of its comments; the database
    matches a text q in its title or content, a category with the name of
    one of its categories, and an author in the name of its author;
    min_views reads as an integer of the range of the column that its views
    reach; and date_from and date_to read as dates that its time of
    creation lies between. *)
Theorem search_filters_hold (q : SearchQuery) (d : Db) (st : Z) (pg : Page PostOut) :
  fst (search_posts q d) = Ok (Json st pg) ->
  Forall
    (fun po =>
       let p := po_post po in
       In p (rows (posts d)) /\ spec_with_relations d po /\
       (forall s, sq_q q = Some s -> s <> EmptyString ->
          contains_i s (title p) = true \/
          exists c, content p = Some c /\ contains_i s c = true) /\
       (forall s, sq_category q = Some s -> s <> EmptyString ->
          exists pc c,
            In pc (postCategories d) /\ postId pc = post_id p /\
            category_by_id d (categoryId pc) = Some c /\
            equals_i (category_name c) s = true) /\
       (forall s, sq_author q = Some s -> s <> EmptyString ->
          exists u a,
            user_by_id d (authorId p) = Some u /\ name u = Some a /\
            contains_i s a = true) /\
       (forall s, sq_min_views q = Some s -> s <> EmptyString ->
          exists v, parseInt s = JInt v /\
                    -2147483648 <= v <= 2147483647 /\ v <= views p) /\
       (forall s, sq_date_from q = Some s -> s <> EmptyString ->
          exists ms, Date_new s = DateAt ms /\ ms <= createdAt p) /\
       (forall s, sq_date_to q = Some s -> s <> EmptyString ->
          exists ms, Date_new s = DateAt ms /\ createdAt p <= ms))
    (data pg).
Proof.
  rewrite search_posts_eq. cbv zeta. unfold post_filter.
  destruct (post_where_ok (search_where q)) eqn:Eok; [|discriminate].
  destruct (window _ _ _) as [ps|] eqn:Ew; [|discriminate].
  cbn [fst]. intros H. injection H as _ <-. cbn [data].
  apply Forall_forall. intros po Hpo.
  apply in_map_iff in Hpo. destruct Hpo as [p [<- Hp]].
  cbn [po_post post_out].
  eapply window_In in Hp; [|exact Ew].
  apply sort_desc_In in Hp. apply filter_In in Hp. destruct Hp as [Hin Hm].
  unfold post_matches in Hm.
  apply andb_prop in Hm. destruct Hm as [Hm Hdate].
  apply andb_prop in Hm. destruct Hm as [Hm Hviews].
  apply andb_prop in Hm. destruct Hm as [Hm _].
  apply andb_prop in Hm. destruct Hm as [Hm Hauthor].
  apply andb_prop in Hm. destruct Hm as [Hq Hcat].
  unfold post_where_ok in Eok. apply andb_prop in Eok. destruct Eok as [Okv Okd].
  unfold search_where in *.
  cbn [where_post_OR where_category where_author where_views_gte where_createdAt]
    in *.
  repeat apply conj; try assumption; try reflexivity.
  - unfold categories_of. apply map_built. reflexivity.
  - unfold categories_of. apply Forall_forall. intros e He.
    apply in_map_iff in He. destruct He as [pc [<- _]]. reflexivity.
  - intros s E Hs. rewrite E, (when_truthy_some s Hs) in Hq.
    cbn [any_of existsb post_cond] in Hq.
    destruct (contains_i s (title p)); [left; reflexivity|right].
    destruct (content p) as [c|]; [|discriminate].
    exists c. cbn [contains_opt] in Hq.
    destruct (contains_i s c); [auto|discriminate].
  - intros s E Hs. rewrite E, (when_truthy_some s Hs) in Hcat.
    cbn [opt_test] in Hcat. unfold in_category in Hcat.
    apply existsb_exists in Hcat. destruct Hcat as [pc [Hpc Hc]].
    apply andb_prop in Hc. destruct Hc as [Hid Hc].
    destruct (category_by_id d (categoryId pc)) as [c|] eqn:Ec; [|discriminate].
    exists pc, c. apply Z.eqb_eq in Hid. auto.
  - intros s E Hs. rewrite E, (when_truthy_some s Hs) in Hauthor.
    cbn [opt_test] in Hauthor. unfold by_author in Hauthor.
    destruct (user_by_id d (authorId p)) as [u|]; [|discriminate].
    destruct (name u) as [a|] eqn:Ea; [|discriminate].
    exists u, a. auto.
  - intros s E Hs. rewrite E, (when_truthy_some s Hs) in Hviews, Okv.
    cbn [opt_test] in Hviews.
    destruct (parseInt_integer_or_NaN s) as [En|[[b Eb]|[v Ev]]].
    + rewrite En in Okv. discriminate.
    + rewrite Eb in Okv. discriminate.
    + rewrite Ev in Hviews, Okv. rewrite as_int_JInt in Hviews, Okv.
      exists v. apply Z.leb_le in Hviews. unfold int32 in Okv.
      repeat split; try assumption; lia.
  - intros s E Hs. rewrite E, (truthy_some s Hs), (when_truthy_some s Hs) in Hdate, Okd.
    cbn [orb opt_test option_map df_gte df_lte] in Hdate, Okd.
    apply andb_prop in Okd. destruct Okd as [Okd _].
    apply andb_prop in Hdate. destruct Hdate as [Hdate _].
    destruct (Date_new s) as [ms|]; [|discriminate].
    exists ms. cbn [after] in Hdate. apply Z.leb_le in Hdate. auto.
  - intros s E Hs. rewrite E, (truthy_some s Hs), (when_truthy_some s Hs) in Hdate, Okd.
    rewrite orb_true_r in Hdate, Okd.
    cbn [opt_test option_map df_gte df_lte] in Hdate, Okd.
    apply andb_prop in Okd. destruct Okd as [_ Okd].
    apply andb_prop in Hdate. destruct Hdate as [_ Hdate].
    destruct (Date_new s) as [ms|]; [|discriminate].
    exists ms. cbn [before] in Hdate. apply Z.leb_le in Hdate. auto.
Qed.

(** X16. Every user the list returns passes the filters of the query: it is
    a user of the table; a role is one of USER, MODERATOR and ADMIN and is
    the role of the user; the database matches a search text in the name or
    in the email; and the profile comes with the user for include_profile
    equal to 'true' and for no other value.  A role outside the three is
    answered with 500. *)
Theorem users_filters_hold (q : UsersQuery) (d : Db) :
  (forall st pg,
      fst (get_users q d) = Ok (Json st pg) ->
      Forall
        (fun uo =>
           let u := uo_user uo in
           In u (rows (users d)) /\
           (forall s, uq_role q = Some s -> s <> EmptyString ->
              Role_of_string s = Some (role u)) /\
           (forall s, uq_search q = Some s -> s <> EmptyString ->
              (exists a, name u = Some a /\ contains_i s a = true) \/
              contains_i s (email u) = true) /\
           (uq_include_profile q = Some "true"%string ->
              uo_profile uo = Some (profile_of d (user_id u))) /\
           (uq_include_profile q <> Some "true"%string -> uo_profile uo = None))
        (data pg)) /\
  (forall s, uq_role q = Some s -> s <> EmptyString -> Role_of_string s = None ->
     status_of (fst (get_users q d)) = Some 500).
Proof.
  split.
  - intros st pg. rewrite get_users_eq. cbv zeta.
    destruct (user_filter _) as [f|] eqn:Ef; [|discriminate].
    destruct (window _ _ _) as [us|] eqn:Ew; [|discriminate].
    cbn [fst]. intros H. injection H as _ <-. cbn [data].
    apply Forall_forall. intros uo Huo.
    apply in_map_iff in Huo. destruct Huo as [u [<- Hu]].
    cbn [uo_user uo_profile user_out].
    eapply window_In in Hu; [|exact Ew].
    apply sort_desc_In in Hu. apply filter_In in Hu. destruct Hu as [Hin Hm].
    unfold user_filter, users_where in Ef. cbn [where_role where_user_OR] in Ef.
    repeat apply conj.
    + exact Hin.
    + intros s E Hs. rewrite E, (when_truthy_some s Hs) in Ef.
      destruct (Role_of_string s) as [r|]; [|discriminate].
      injection Ef as <-. apply andb_prop in Hm. destruct Hm as [Hr _].
      f_equal. destruct (role u), r; try discriminate; reflexivity.
    + intros s E Hs.
      assert (Hany : any_of user_cond (Some [NameContains s; EmailContains s]) u = true).
      { rewrite E, (when_truthy_some s Hs) in Ef.
        destruct (when_truthy (uq_role q)) as [rs|].
        - destruct (Role_of_string rs); [|discriminate].
          injection Ef as <-. apply andb_prop in Hm. apply Hm.
        - injection Ef as <-. exact Hm. }
      cbn [any_of existsb user_cond] in Hany.
      destruct (name u) as [a|]; cbn [contains_opt] in Hany.
      * destruct (contains_i s a) eqn:Ea; [left; exists a; auto|right].
        destruct (contains_i s (email u)); [reflexivity|discriminate].
      * right. destruct (contains_i s (email u)); [reflexivity|discriminate].
    + intros ->. reflexivity.
    + intros Hne. destruct (uq_include_profile q) as [s|]; [|reflexivity].
      destruct (String.eqb s "true") eqn:Es; [|reflexivity].
      apply String.eqb_eq in Es. congruence.
  - intros s E Hs Hr. rewrite get_users_eq. cbv zeta.
    unfold user_filter, users_where. cbn [where_role where_user_OR].
    rewrite E, (when_truthy_some s Hs), Hr. reflexivity.
Qed.

(** ** The analytics *)

Lemma count_published_some (rows : list (PostCategory * option PostStat)) (n : Z) :
  count_published rows = Some n ->
  n = len (filter row_published rows) /\ 0 <= n <= len rows.
Proof.
  revert n. induction rows as [|r rows IH]; intros n H.
  - injection H as <-. cbn. lia.
  - cbn [count_published] in H. unfold post_of_row in H.
    destruct r as [pc [s|]]; cbn [snd] in H; [|discriminate].
    destruct (count_published rows) as [m|]; [|discriminate].
    destruct (IH m eq_refl) as [-> Hb]. injection H as <-.
    unfold len in *. cbn [filter row_published snd].
    destruct (stat_published s); cbn [List.length]; lia.
Qed.

Lemma count_published_none (rows : list (PostCategory * option PostStat)) :
  count_published rows = None <-> Exists (fun r => snd r = None) rows.
Proof.
  induction rows as [|r rows IH].
  - split; [discriminate|]. intros H. inversion H.
  - cbn [count_published]. unfold post_of_row.
    destruct r as [pc [s|]]; cbn [snd].
    + destruct (count_published rows) as [m|].
      * split; [discriminate|]. intros H. inversion H as [? ? H1|? ? H1]; subst.
        -- discriminate.
        -- apply IH in H1. discriminate.
      * split; [|reflexivity]. intros _. apply Exists_cons_tl. apply IH. reflexivity.
    + split; [|reflexivity]. intros _. apply Exists_cons_hd. reflexivity.
Qed.

Lemma sum_views_some (rows : list (PostCategory * option PostStat)) (sum v : Z) :
  sum_views sum rows = Some v -> v = sum + sum_of (map row_views rows).
Proof.
  revert sum. induction rows as [|r rows IH]; intros sum H.
  - injection H as <-. cbn. lia.
  - cbn [sum_views] in H. unfold post_of_row in H.
    destruct r as [pc [s|]]; cbn [snd] in H; [|discriminate].
    apply IH in H. subst v. cbn [map sum_of fold_right row_views snd].
    fold (sum_of (map row_views rows)). lia.
Qed.

Lemma sum_views_none (rows : list (PostCategory * option PostStat)) (sum : Z) :
  sum_views sum rows = None -> Exists (fun r => snd r = None) rows.
Proof.
  revert sum. induction rows as [|r rows IH]; intros sum H; [discriminate|].
  cbn [sum_views] in H. unfold post_of_row in H.
  destruct r as [pc [s|]]; cbn [snd] in H.
  - apply Exists_cons_tl. eapply IH. exact H.
  - apply Exists_cons_hd. reflexivity.
Qed.

Lemma analytics_of_none (c : CategoryStats) :
  analytics_of c = None <-> has_null_post c.
Proof.
  unfold analytics_of, has_null_post.
  destruct (count_published (cs_posts c)) as [n|] eqn:En.
  - destruct (sum_views 0 (cs_posts c)) eqn:Es.
    + split; [discriminate|]. intros H. apply count_published_none in H. congruence.
    + split; [|reflexivity]. intros _. eapply sum_views_none. exact Es.
  - split; [|reflexivity]. intros _. apply count_published_none. exact En.
Qed.

Lemma analytics_of_some (c : CategoryStats) (a : CategoryAnalytics) :
  analytics_of c = Some a -> analytics_for c a.
Proof.
  unfold analytics_of, analytics_for.
  destruct (count_published (cs_posts c)) as [n|] eqn:En; [|discriminate].
  destruct (sum_views 0 (cs_posts c)) as [v|] eqn:Es; [|discriminate].
  intros H. injection H as <-.
  cbn [category totalPosts publishedPosts totalViews].
  apply count_published_some in En. apply sum_views_some in Es.
  unfold len in *. repeat apply conj; try reflexivity; try lia.
Qed.

Lemma map_analytics_some (cs : list CategoryStats) (l : list CategoryAnalytics) :
  map_analytics cs = Some l -> Forall2 analytics_for cs l.
Proof.
  revert l. induction cs as [|c cs IH]; intros l H.
  - injection H as <-. constructor.
  - cbn [map_analytics] in H.
    destruct (analytics_of c) as [a|] eqn:Ea; [|discriminate].
    destruct (map_analytics cs) as [l'|]; [|discriminate].
    injection H as <-. constructor; [apply analytics_of_some; exact Ea|].
    apply IH. reflexivity.
Qed.

Lemma map_analytics_none (cs : list CategoryStats) :
  map_analytics cs = None <-> Exists has_null_post cs.
Proof.
  induction cs as [|c cs IH].
  - split; [discriminate|]. intros H. inversion H.
  - cbn [map_analytics]. destruct (analytics_of c) as [a|] eqn:Ea.
    + destruct (map_analytics cs) as [l|].
      * split; [discriminate|]. intros H. inversion H as [? ? H1|? ? H1]; subst.
        -- apply analytics_of_none in H1. congruence.
        -- apply IH in H1. discriminate.
      * split; [|reflexivity]. intros _. apply Exists_cons_tl. apply IH. reflexivity.
    + split; [|reflexivity]. intros _. apply Exists_cons_hd.
      apply analytics_of_none. exact Ea.
Qed.

Section AnalyticsOfEveryQueryLayer.

Context {W : Type} {relations : PrismaRelations W}.

(** X17. For every query layer, the analytics are computed from the
    categories that the first query returns: when each junction row has its
    post, the answer has one element for each category, in their order, with
    the name of the category, the number of its junction rows, the number of
    those whose post is published, which lies between 0 and the number of
    rows, and the sum of the views of the posts; the top authors are what the
    second query returns, asked for five.  When a junction row has no post,
    the answer is 500 and the second query is not made. *)
Theorem analytics_by_category (w w1 : W) (cs : list CategoryStats) :
  category_findMany w = (Ok cs, w1) ->
  (Exists has_null_post cs ->
     get_analytics w = (Ok (JsonError 500 (message TypeError)), w1)) /\
  (~ Exists has_null_post cs ->
     forall authors w2,
       user_findMany_by_posts 5 w1 = (Ok authors, w2) ->
       exists a,
         get_analytics w = (Ok (Json 200 a), w2) /\
         Forall2 analytics_for cs (categoryAnalytics a) /\
         topAuthors a = authors) /\
  (forall e w2,
      user_findMany_by_posts 5 w1 = (Throw e, w2) ->
      ~ Exists has_null_post cs ->
      get_analytics w = (Ok (JsonError 500 (message e)), w2)).
Proof.
  intros Hc. unfold get_analytics, try_catch, bind. rewrite Hc.
  repeat apply conj.
  - intros Hn. apply map_analytics_none in Hn. rewrite Hn. reflexivity.
  - intros Hn authors w2 Ha.
    destruct (map_analytics cs) as [l|] eqn:El.
    + rewrite Ha. eexists. split; [reflexivity|]. cbn [categoryAnalytics topAuthors].
      split; [apply map_analytics_some; exact El|reflexivity].
    + exfalso. apply Hn. apply map_analytics_none. exact El.
  - intros e w2 Ha Hn.
    destruct (map_analytics cs) as [l|] eqn:El.
    + rewrite Ha. reflexivity.
    + exfalso. apply Hn. apply map_analytics_none. exact El.
Qed.

End AnalyticsOfEveryQueryLayer.

Lemma Forall2_map_l {A B C} (R : B -> C -> Prop) (f : A -> B) (l : list A)
    (l' : list C) :
  Forall2 R (map f l) l' -> Forall2 (fun a c => R (f a) c) l l'.
Proof.
  revert l'. induction l as [|a l IH]; intros l' H; inversion H; subst;
    constructor; auto.
Qed.

Lemma filter_map_swap {A B} (f : B -> bool) (g : A -> B) (l : list A) :
  filter f (map g l) = map g (filter (fun a => f (g a)) l).
Proof.
  induction l as [|a l IH]; [reflexivity|]. cbn [map filter].
  destruct (f (g a)); cbn [map]; rewrite IH; reflexivity.
Qed.

Lemma In_insert_desc {A} (key : A -> Z) (x y : A) (l : list A) :
  y = x \/ In y l -> In y (insert_desc key x l).
Proof.
  induction l as [|z l IH]; cbn [insert_desc].
  - intros [->|[]]. left. reflexivity.
  - destruct (key z <=? key x).
    + intros [->|H]; [left; reflexivity|right; exact H].
    + intros [->|[->|H]].
      * right. apply IH. left. reflexivity.
      * left. reflexivity.
      * right. apply IH. right. exact H.
Qed.

Lemma In_sort_desc {A} (key : A -> Z) (y : A) (l : list A) :
  In y l -> In y (sort_desc key l).
Proof.
  induction l as [|x l IH]; [tauto|].
  change (sort_desc key (x :: l)) with (insert_desc key x (sort_desc key l)).
  intros [->|H]; apply In_insert_desc; [left; reflexivity|right; apply IH; exact H].
Qed.

Lemma sorted_split {A} (R : A -> A -> Prop) (n : nat) (l : list A) (x y : A) :
  StronglySorted R l -> In x (firstn n l) -> In y (skipn n l) -> R x y.
Proof.
  revert l. induction n as [|n IH]; intros l Hs Hx Hy; [destruct Hx|].
  destruct l as [|a l]; [destruct Hx|].
  apply StronglySorted_inv in Hs. destruct Hs as [Hs Hf].
  cbn [firstn skipn] in Hx, Hy. destruct Hx as [<-|Hx].
  - rewrite Forall_forall in Hf. apply Hf. eapply In_skipn. exact Hy.
  - eapply IH; eassumption.
Qed.

Lemma In_split_at {A} (n : nat) (l : list A) (y : A) :
  In y l -> In y (firstn n l) \/ In y (skipn n l).
Proof.
  intros H. rewrite <- (firstn_skipn n l) in H. apply in_app_or in H. exact H.
Qed.

Lemma map_analytics_on_store (d : Db) :
  (forall pc, In pc (postCategories d) -> post_by_id d (postId pc) <> None) ->
  exists l, map_analytics (map (category_stats d) (rows (categories d))) = Some l.
Proof.
  intros Hfk. destruct (map_analytics _) as [l|] eqn:El; [eauto|].
  exfalso. apply map_analytics_none in El. apply Exists_exists in El.
  destruct El as [cs [Hcs Hnull]]. apply in_map_iff in Hcs.
  destruct Hcs as [c [<- _]]. unfold has_null_post in Hnull.
  apply Exists_exists in Hnull. destruct Hnull as [r [Hr Hnone]].
  cbn [cs_posts category_stats] in Hr. apply in_map_iff in Hr.
  destruct Hr as [pc [<- Hpc]]. apply filter_In in Hpc.
  cbn [snd] in Hnone. apply (Hfk pc (proj1 Hpc)).
  destruct (post_by_id d (postId pc)); [discriminate|reflexivity].
Qed.

(** X18. The analytics on the store.  When every junction row has its post,
    the answer is 200 and leaves the store as it is; it has one element for
    each category of the table, in their order, that counts the junction rows
    of the category, those of a published post, and adds up the views of
    their posts.  The top authors are at most five users of the table, each
    with the number of its posts, most posts first, and no user left out has
    more posts than one of them.  When a junction row of a category of the
    table has no post, the answer is 500. *)
Theorem analytics_on_the_store (d : Db) :
  ((forall pc, In pc (postCategories d) -> post_by_id d (postId pc) <> None) ->
   exists a,
     get_analytics d = (Ok (Json 200 a), d) /\
     Forall2
       (fun c x =>
          category x = category_name c /\
          totalPosts x = len (rows_of_category d c) /\
          publishedPosts x = len (filter (published_post d) (rows_of_category d c)) /\
          totalViews x = sum_of (map (views_of_post d) (rows_of_category d c)))
       (rows (categories d)) (categoryAnalytics a) /\
     (List.length (topAuthors a) <= 5)%nat /\
     StronglySorted (fun x y => ac_count_posts y <= ac_count_posts x) (topAuthors a) /\
     Forall
       (fun x => exists u, In u (rows (users d)) /\ x = author_count d u /\
                           ac_count_posts x = posts_written d u)
       (topAuthors a) /\
     (forall u, In u (rows (users d)) ->
        In (author_count d u) (topAuthors a) \/
        Forall (fun x => posts_written d u <= ac_count_posts x) (topAuthors a))) /\
  (forall pc c,
      In pc (postCategories d) -> In c (rows (categories d)) ->
      categoryId pc = category_id c -> post_by_id d (postId pc) = None ->
      get_analytics d = (Ok (JsonError 500 (message TypeError)), d)).
Proof.
  split.
  - intros Hfk. rewrite get_analytics_eq.
    destruct (map_analytics_on_store d Hfk) as [l El]. rewrite El.
    eexists. split; [reflexivity|]. cbn [categoryAnalytics topAuthors].
      repeat apply conj.
      * apply map_analytics_some in El. apply Forall2_map_l in El.
        eapply Forall2_impl; [|exact El]. intros c x Hx. cbv beta in Hx.
        destruct Hx as [H1 [H2 [H3 [_ H4]]]].
        cbn [cs_category cs_posts category_stats] in H1, H2, H3, H4.
        fold (rows_of_category d c) in H2, H3, H4.
        repeat apply conj.
        -- exact H1.
        -- rewrite H2. unfold len. rewrite length_map. reflexivity.
        -- rewrite H3. rewrite filter_map_swap. unfold len. rewrite length_map.
           do 2 f_equal. apply filter_ext. intros pc.
           unfold row_published, published_post. cbn [snd].
           destruct (post_by_id d (postId pc)); reflexivity.
        -- rewrite H4, map_map. f_equal. apply map_ext. intros pc.
           unfold row_views, views_of_post. cbn [snd].
           destruct (post_by_id d (postId pc)); reflexivity.
      * rewrite length_firstn. apply Nat.le_min_l.
      * apply sorted_firstn. apply (sort_desc_sorted ac_count_posts).
      * apply Forall_forall. intros x Hx. apply In_firstn in Hx.
        apply sort_desc_In in Hx. apply in_map_iff in Hx.
        destruct Hx as [u [<- Hu]]. exists u. repeat split; assumption.
      * intros u Hu.
        assert (Hin : In (author_count d u)
                        (sort_desc ac_count_posts
                           (map (author_count d) (rows (users d))))).
        { apply In_sort_desc. apply in_map. exact Hu. }
        destruct (In_split_at 5 _ _ Hin) as [H|H]; [left; exact H|right].
        apply Forall_forall. intros x Hx.
        change (posts_written d u) with (ac_count_posts (author_count d u)).
        exact (sorted_split _ 5 _ x (author_count d u)
                 (sort_desc_sorted ac_count_posts _) Hx H).
  - intros pc c Hpc Hc Hid Hnone. rewrite get_analytics_eq.
    assert (El : map_analytics (map (category_stats d) (rows (categories d))) = None).
    { apply map_analytics_none. apply Exists_exists.
      exists (category_stats d c). split; [apply in_map; exact Hc|].
      unfold has_null_post. apply Exists_exists.
      exists (pc, option_map post_stat (post_by_id d (postId pc))). split.
      - cbn [cs_posts category_stats].
        apply (in_map (fun pc => (pc, option_map post_stat (post_by_id d (postId pc))))).
        apply filter_In. split; [exact Hpc|]. apply Z.eqb_eq. exact Hid.
      - cbn [snd]. rewrite Hnone. reflexivity. }
    rewrite El. reflexivity.
Qed.

(** ** The seed script runs to its end *)

(** *** Computations that return *)

Lemma returns_ret {A} (a : A) (w : World) (Q : A -> World -> Prop) :
  Q a w -> returns (ret a) w Q.
Proof. intros H. exists a, w. split; [reflexivity|exact H]. Qed.

Lemma returns_bind {A B} (m : M World A) (k : A -> M World B) (w : World)
    (Q : B -> World -> Prop) :
  returns m w (fun a w1 => returns (k a) w1 Q) -> returns (bind m k) w Q.
Proof.
  intros [a [w1 [E [b [w2 [E2 H]]]]]]. exists b, w2.
  unfold bind. rewrite E. split; assumption.
Qed.

Lemma returns_impl {A} (m : M World A) (w : World) (Q Q' : A -> World -> Prop) :
  returns m w Q -> (forall a w', Q a w' -> Q' a w') -> returns m w Q'.
Proof.
  intros [a [w' [E H]]] Himp. exists a, w'. split; [exact E|apply Himp; exact H].
Qed.

Lemma returns_lift {A} (m : M Db A) (w : World) (a : A) (d' : Db)
    (Q : A -> World -> Prop) :
  m (fst w) = (Ok a, d') -> Q a (d', snd w) -> returns (lift m) w Q.
Proof.
  intros E H. exists a, (d', snd w). unfold lift. rewrite E. split; [reflexivity|exact H].
Qed.

(** *** The generators *)

Lemma draw_text_returns (w : World) (Q : string -> World -> Prop) :
  (forall s r, Q s (fst w, r)) -> returns draw_text w Q.
Proof. intros H. eexists. eexists. split; [reflexivity|apply H]. Qed.

Lemma draw_boolean_returns (w : World) (Q : bool -> World -> Prop) :
  (forall b r, Q b (fst w, r)) -> returns (bind draw_int (fun x => ret (Z.odd x))) w Q.
Proof. intros H. eexists. eexists. split; [reflexivity|apply H]. Qed.

Lemma draw_between_returns (lo hi : Z) (w : World) (Q : Z -> World -> Prop) :
  lo <= hi ->
  (forall x r, lo <= x <= hi -> Q x (fst w, r)) ->
  returns (draw_between lo hi) w Q.
Proof.
  intros Hle H. unfold draw_between.
  destruct (Z.ltb_spec hi lo) as [Hlt|_]; [lia|].
  eexists. eexists. split; [reflexivity|]. apply H.
  pose proof (Z.mod_pos_bound (ints (snd w) (drawn (snd w))) (hi - lo + 1)).
  lia.
Qed.

Lemma nth_error_in_range {A} (l : list A) (i : Z) :
  0 <= i <= len l - 1 -> exists x, nth_error l (Z.to_nat i) = Some x.
Proof.
  intros Hi. destruct (nth_error l (Z.to_nat i)) as [x|] eqn:E; [eauto|].
  apply nth_error_None in E. unfold len in Hi. lia.
Qed.

Lemma draw_element_returns {A} (l : list A) (w : World) (Q : A -> World -> Prop) :
  l <> [] ->
  (forall x r, In x l -> Q x (fst w, r)) ->
  returns (draw_element l) w Q.
Proof.
  intros Hne H. destruct l as [|a l]; [congruence|].
  unfold draw_element. apply returns_bind.
  apply draw_between_returns.
  - unfold len. cbn [List.length]. lia.
  - intros i r Hi. destruct (nth_error_in_range _ i Hi) as [x E].
    rewrite E. apply returns_ret. apply H. eapply nth_error_In. exact E.
Qed.

Lemma remove_nth_NoDup {A} (key : A -> Z) (i : nat) (l : list A) (x : A) :
  nth_error l i = Some x -> NoDup (map key l) ->
  NoDup (map key (x :: remove_nth i l)).
Proof.
  revert i. induction l as [|y l IH]; intros [|i] E Hnd; try discriminate.
  - injection E as ->. exact Hnd.
  - cbn [nth_error] in E. cbn [map] in Hnd.
    apply NoDup_cons_iff in Hnd. destruct Hnd as [Hy Hnd].
    specialize (IH i E Hnd). cbn [map remove_nth] in *.
    apply NoDup_cons_iff in IH. destruct IH as [Hx IH].
    constructor.
    + intros [Heq|Hin]; [|exact (Hx Hin)].
      apply Hy. rewrite Heq. apply in_map. eapply nth_error_In. exact E.
    + constructor; [|exact IH].
      intros Hin. apply Hy.
      apply in_map_iff in Hin. destruct Hin as [z [Hz Hin]].
      rewrite <- Hz. apply in_map. eapply remove_nth_incl. exact Hin.
Qed.

(** [n] elements of the list: as many as asked for or as there are, each of
    the list, and different when the elements of the list are. *)
Lemma draw_elements_returns {A} (n : nat) :
  forall (l : list A) (w : World) (Q : list A -> World -> Prop),
    (forall xs r,
        List.length xs = Nat.min n (List.length l) ->
        incl xs l ->
        (forall key : A -> Z, NoDup (map key l) -> NoDup (map key xs)) ->
        Q xs (fst w, r)) ->
    returns (draw_elements n l) w Q.
Proof.
  induction n as [|n IH]; intros l w Q H.
  - apply returns_ret. destruct w as [d r]. apply H.
    + reflexivity.
    + intros x [].
    + intros key _. constructor.
  - destruct l as [|a l].
    + apply returns_ret. destruct w as [d r]. apply H.
      * reflexivity.
      * intros x [].
      * intros key _. constructor.
    + cbn [draw_elements]. apply returns_bind. apply draw_between_returns.
      * unfold len. cbn [List.length]. lia.
      * intros i r Hi. destruct (nth_error_in_range _ i Hi) as [x E].
        rewrite E. apply returns_bind.
        apply (IH (remove_nth (Z.to_nat i) (a :: l)) (fst w, r)).
        intros xs r' Hlen Hincl Hnd. apply returns_ret. cbn [fst]. apply H.
        -- cbn [List.length]. rewrite Hlen.
           pose proof (remove_nth_length _ _ _ E) as Hl.
           cbn [List.length] in Hl. cbn [Nat.min]. f_equal. lia.
        -- apply incl_cons; [eapply nth_error_In; exact E|].
           eapply incl_tran; [exact Hincl|apply remove_nth_incl].
        -- intros key Hk. pose proof (remove_nth_NoDup key _ _ _ E Hk) as Hk'.
           cbn [map] in Hk'. apply NoDup_cons_iff in Hk'. destruct Hk' as [Hx Hk'].
           cbn [map]. constructor; [|apply Hnd; exact Hk'].
           intros Hin. apply Hx.
           apply in_map_iff in Hin. destruct Hin as [z [Hz Hin]].
           rewrite <- Hz. apply in_map. apply Hincl. exact Hin.
Qed.

(** *** The writes of the posts phase *)

Lemma find_more {A} (test : A -> bool) (l : list A) (x : A) :
  find test l <> None -> find test (l ++ [x]) <> None.
Proof.
  induction l as [|y l IH]; cbn [find app]; [congruence|].
  destruct (test y); [congruence|exact IH].
Qed.

Lemma find_of_In {A} (test : A -> bool) (l : list A) (x : A) :
  In x l -> test x = true -> find test l <> None.
Proof.
  intros Hin Hx. destruct (find test l) eqn:E; [congruence|].
  rewrite (find_none _ _ E x Hin) in Hx. discriminate.
Qed.

Lemma grown_refl (d : Db) : grown 0 0 0 d d.
Proof. unfold grown. lia. Qed.

Lemma grown_trans (a b c a' b' c' : Z) (d d1 d2 : Db) :
  grown a b c d d1 -> grown a' b' c' d1 d2 -> grown (a + a') (b + b') (c + c') d d2.
Proof. unfold grown. lia. Qed.

Lemma grown_by_trans (n m : Z) (d d1 d2 : Db) :
  grown_by n d d1 -> grown_by m d1 d2 -> grown_by (n + m) d d2.
Proof.
  intros [b [c [G [Hb Hc]]]] [b' [c' [G' [Hb' Hc']]]].
  exists (b + b'), (c + c'). split; [eapply grown_trans; eassumption|lia].
Qed.

Lemma len_snoc {A} (l : list A) (x : A) : len (l ++ [x]) = len l + 1.
Proof. unfold len. rewrite length_app. cbn [List.length]. lia. Qed.

Lemma post_create_returns (U : Table User) (Pr : Table Profile) (C : Table Category)
    (data : PostData) (d : Db) :
  seeding U Pr C d ->
  user_by_id d (pd_authorId data) <> None ->
  exists p d',
    mem_post_create data d = (Ok p, d') /\
    seeding U Pr C d' /\ grown 1 0 0 d d' /\
    post_by_id d' (post_id p) <> None /\
    authorId p = pd_authorId data /\
    Forall (fun pc => postId pc <> post_id p) (postCategories d') /\
    rows (posts d') = rows (posts d) ++ [p] /\
    post_id p = next (posts d) /\
    postCategories d' = postCategories d /\
    comments d' = comments d.
Proof.
  intros [HU [HP [HC [[Kp [Kpc Kc]] [Rpr [Rp [Rpc Rc]]]]]]] Hu.
  unfold mem_post_create.
  destruct (user_by_id d (pd_authorId data)) as [u|] eqn:Eu; [|congruence].
  cbn [has negb]. unfold post_by_id at 1. rewrite (find_above post_id _ _ Kp).
  cbn [has]. eexists. eexists. split; [reflexivity|].
  split; [|split; [|split; [|split; [|split; [|repeat split]]]]].
  - split; [exact HU|]. split; [exact HP|]. split; [exact HC|]. split.
    + repeat apply conj; cbn.
      * apply Forall_below_grow; [exact Kp|reflexivity].
      * eapply Forall_impl; [|exact Kpc]. intros pc H. cbv beta in H. lia.
      * exact Kc.
    + repeat apply conj.
      * exact Rpr.
      * cbn [posts logged set_posts insert_row rows].
        apply Forall_app. split; [exact Rp|]. constructor; [|constructor].
        change (user_by_id d (pd_authorId data) <> None). congruence.
      * eapply Forall_impl; [|exact Rpc]. intros pc [H1 H2]. split; [|exact H2].
        apply (find_more (fun p => post_id p =? postId pc)). exact H1.
      * eapply Forall_impl; [|exact Rc]. intros c [H1 H2]. split; [exact H1|].
        apply (find_more (fun p => post_id p =? comment_postId c)). exact H2.
  - repeat apply conj; cbn [posts postCategories comments logged set_posts
                            insert_row rows].
    + apply len_snoc.
    + lia.
    + lia.
  - unfold post_by_id. cbn [posts logged set_posts insert_row rows post_id].
    rewrite (find_last _ _ _ (find_above post_id _ _ Kp)); [congruence|].
    cbn. apply Z.eqb_refl.
  - reflexivity.
  - cbn [postCategories logged set_posts post_id].
    eapply Forall_impl; [|exact Kpc]. intros pc H. cbv beta in H. lia.
Qed.

Lemma postCategory_create_returns (U : Table User) (Pr : Table Profile)
    (C : Table Category) (pid cid : Z) (d : Db) :
  seeding U Pr C d ->
  post_by_id d pid <> None ->
  category_by_id d cid <> None ->
  Forall (fun pc => postId pc = pid -> categoryId pc <> cid) (postCategories d) ->
  exists pc d',
    mem_postCategory_create pid cid d = (Ok pc, d') /\
    seeding U Pr C d' /\ grown 0 1 0 d d' /\
    posts d' = posts d /\
    postCategories d' = postCategories d ++ [mkPostCategory pid cid] /\
    comments d' = comments d.
Proof.
  intros [HU [HP [HC [[Kp [Kpc Kc]] [Rpr [Rp [Rpc Rc]]]]]]] Hp Hc Hnew.
  unfold mem_postCategory_create.
  destruct (post_by_id d pid) as [p|] eqn:Ep; [|congruence].
  destruct (category_by_id d cid) as [c|] eqn:Ec; [|congruence].
  cbn [has andb negb].
  assert (En : existsb (fun pc => (postId pc =? pid) && (categoryId pc =? cid))
                 (postCategories d) = false).
  { apply not_true_is_false. intros H. apply existsb_exists in H.
    destruct H as [pc [Hin H]]. apply andb_prop in H. destruct H as [H1 H2].
    rewrite Forall_forall in Hnew.
    apply (Hnew pc Hin); [apply Z.eqb_eq; exact H1|apply Z.eqb_eq; exact H2]. }
  rewrite En. eexists. eexists. split; [reflexivity|].
  split; [|split; [|split; [|split]]].
  - split; [exact HU|]. split; [exact HP|]. split; [exact HC|]. split.
    + repeat apply conj.
      * exact Kp.
      * cbn [posts postCategories logged set_postCategories].
        apply Forall_app. split; [exact Kpc|]. constructor; [|constructor].
        cbn [postId]. unfold post_by_id in Ep. apply find_some in Ep.
        destruct Ep as [Hin Hid]. rewrite Forall_forall in Kp.
        specialize (Kp p Hin). apply Z.eqb_eq in Hid. lia.
      * exact Kc.
    + repeat apply conj.
      * exact Rpr.
      * exact Rp.
      * cbn [postCategories logged set_postCategories].
        apply Forall_app. split; [exact Rpc|]. constructor; [|constructor].
        cbn [postId categoryId].
        change (post_by_id d pid <> None /\ category_by_id d cid <> None).
        rewrite Ep, Ec. split; congruence.
      * exact Rc.
  - repeat apply conj; cbn [posts postCategories comments logged
                            set_postCategories].
    + lia.
    + apply len_snoc.
    + lia.
  - reflexivity.
  - reflexivity.
  - reflexivity.
Qed.

Lemma comment_create_returns (U : Table User) (Pr : Table Profile)
    (C : Table Category) (text : string) (aid pid : Z) (d : Db) :
  seeding U Pr C d ->
  user_by_id d aid <> None ->
  post_by_id d pid <> None ->
  exists c d',
    mem_comment_create text aid pid d = (Ok c, d') /\
    seeding U Pr C d' /\ grown 0 0 1 d d' /\
    posts d' = posts d /\ postCategories d' = postCategories d /\
    rows (comments d') = rows (comments d) ++ [c] /\ comment_postId c = pid.
Proof.
  intros [HU [HP [HC [[Kp [Kpc Kc]] [Rpr [Rp [Rpc Rc]]]]]]] Hu Hp.
  unfold mem_comment_create.
  destruct (user_by_id d aid) as [u|] eqn:Eu; [|congruence].
  destruct (post_by_id d pid) as [p|] eqn:Ep; [|congruence].
  cbn [has andb negb]. rewrite (find_above comment_id _ _ Kc). cbn [has].
  eexists. eexists. split; [reflexivity|].
  split; [|split; [|split; [|split; [|split]]]].
  - split; [exact HU|]. split; [exact HP|]. split; [exact HC|]. split.
    + repeat apply conj.
      * exact Kp.
      * exact Kpc.
      * cbn. apply Forall_below_grow; [exact Kc|reflexivity].
    + repeat apply conj.
      * exact Rpr.
      * exact Rp.
      * exact Rpc.
      * cbn [comments logged set_comments insert_row rows].
        apply Forall_app. split; [exact Rc|]. constructor; [|constructor].
        cbn [comment_authorId comment_postId].
        change (user_by_id d aid <> None /\ post_by_id d pid <> None).
        rewrite Eu, Ep. split; congruence.
  - repeat apply conj; cbn [posts postCategories comments logged set_comments
                            insert_row rows].
    + lia.
    + lia.
    + apply len_snoc.
  - reflexivity.
  - reflexivity.
  - reflexivity.
  - reflexivity.
Qed.

(** *** What a post gets *)

Lemma furnished_refl (pid : Z) (d : Db) : furnished pid 0 0 d d.
Proof.
  split; [reflexivity|]. exists [], []. rewrite !app_nil_r.
  repeat apply conj; try reflexivity; constructor.
Qed.

Lemma len_app {A} (l l' : list A) : len (l ++ l') = len l + len l'.
Proof. unfold len. rewrite length_app. lia. Qed.

Lemma furnished_trans (pid a b a' b' : Z) (d d1 d2 : Db) :
  furnished pid a b d d1 -> furnished pid a' b' d1 d2 ->
  furnished pid (a + a') (b + b') d d2.
Proof.
  intros [P1 [pcs [cs [E1 [F1 [L1 [E2 [F2 L2]]]]]]]]
         [P2 [pcs' [cs' [E1' [F1' [L1' [E2' [F2' L2']]]]]]]].
  split; [congruence|]. exists (pcs ++ pcs'), (cs ++ cs').
  rewrite E1', E1, E2', E2, <- !app_assoc, !len_app.
  repeat apply conj; try reflexivity; try lia; apply Forall_app; split; assumption.
Qed.

Lemma filter_none {A} (f : A -> bool) (l : list A) :
  Forall (fun x => f x = false) l -> filter f l = [].
Proof.
  induction 1 as [|x l Hx _ IH]; cbn [filter]; [reflexivity|].
  rewrite Hx. exact IH.
Qed.

Lemma filter_every {A} (f : A -> bool) (l : list A) :
  Forall (fun x => f x = true) l -> filter f l = l.
Proof.
  induction 1 as [|x l Hx _ IH]; cbn [filter]; [reflexivity|].
  rewrite Hx, IH. reflexivity.
Qed.

(** A post that is new to the store and that is then furnished, with one
    to three junction rows and at most five comments, leaves every post of
    the store with as many. *)
Lemma posts_furnished_more (d d1 d2 : Db) (p : Post) (npc nc : Z) :
  post_keys_below d -> references_hold d ->
  posts_furnished d ->
  rows (posts d1) = rows (posts d) ++ [p] ->
  post_id p = next (posts d) ->
  postCategories d1 = postCategories d ->
  comments d1 = comments d ->
  furnished (post_id p) npc nc d1 d2 ->
  1 <= npc <= 3 -> 0 <= nc <= 5 ->
  posts_furnished d2.
Proof.
  intros [Kp [Kpc _]] [_ [_ [_ Rc]]] Hf Hrows Hid Epc Ec
         [P2 [pcs [cs [E1 [F1 [L1 [E2 [F2 L2]]]]]]]] Hnpc Hnc.
  assert (Hold : Forall (fun c => comment_postId c < next (posts d))
                   (rows (comments d))).
  { eapply Forall_impl; [|exact Rc]. intros c [_ H]. cbv beta.
    unfold post_by_id in H.
    destruct (find _ (rows (posts d))) as [q|] eqn:Eq; [|congruence].
    apply find_some in Eq. destruct Eq as [Hin Hq]. apply Z.eqb_eq in Hq.
    rewrite Forall_forall in Kp. specialize (Kp q Hin). lia. }
  unfold posts_furnished, categories_of_post, comments_on_post in *.
  rewrite P2, Hrows, E1, E2, Epc, Ec.
  apply Forall_app. split.
  - rewrite Forall_forall in Hf, Kp |- *. intros q Hq.
    specialize (Hf q Hq). specialize (Kp q Hq).
    rewrite !filter_app.
    rewrite (filter_none _ pcs), (filter_none _ cs), !app_nil_r; [exact Hf| |].
    + eapply Forall_impl; [|exact F2]. intros c Hc. cbv beta in *.
      apply Z.eqb_neq. lia.
    + eapply Forall_impl; [|exact F1]. intros pc Hpc. cbv beta in *.
      apply Z.eqb_neq. lia.
  - constructor; [|constructor].
    rewrite !filter_app.
    rewrite (filter_none _ (postCategories d)), (filter_none _ (rows (comments d))).
    + cbn [app]. rewrite !filter_every; [lia| |].
      * eapply Forall_impl; [|exact F2]. intros c Hc. cbv beta in *.
        apply Z.eqb_eq. exact Hc.
      * eapply Forall_impl; [|exact F1]. intros pc Hpc. cbv beta in *.
        apply Z.eqb_eq. exact Hpc.
    + eapply Forall_impl; [|exact Hold]. intros c Hc. cbv beta in *.
      apply Z.eqb_neq. lia.
    + eapply Forall_impl; [|exact Kpc]. intros pc Hpc. cbv beta in *.
      apply Z.eqb_neq. lia.
Qed.

(** *** The loops of the posts phase *)

Section PostsPhase.

Variable U : Table User.
Variable Pr : Table Profile.
Variable C : Table Category.

Lemma held_user_known (d : Db) (u : User) :
  seeding U Pr C d -> held_user U u -> user_by_id d (user_id u) <> None.
Proof. intros [HU _] H. unfold user_by_id. rewrite HU. exact H. Qed.

Lemma held_category_known (d : Db) (c : Category) :
  seeding U Pr C d -> held_category C c -> category_by_id d (category_id c) <> None.
Proof. intros [_ [_ [HC _]]] H. unfold category_by_id. rewrite HC. exact H. Qed.

Lemma post_known_kept (d d' : Db) (pid : Z) :
  posts d' = posts d -> post_by_id d pid <> None -> post_by_id d' pid <> None.
Proof. intros E H. unfold post_by_id in *. rewrite E. exact H. Qed.

Variable us : list User.
Hypothesis us_some : us <> [].
Hypothesis us_held : Forall (held_user U) us.

Lemma create_comment_returns (p : Post) (j : Z) (w : World) :
  seeding U Pr C (fst w) ->
  post_by_id (fst w) (post_id p) <> None ->
  returns (Seed.create_comment us p j tt) w
    (fun _ w' =>
       seeding U Pr C (fst w') /\ grown 0 0 1 (fst w) (fst w') /\
       posts (fst w') = posts (fst w) /\
       furnished (post_id p) 0 1 (fst w) (fst w')).
Proof.
  intros Hs Hp. unfold Seed.create_comment. on_world.
  apply returns_bind. apply draw_element_returns; [exact us_some|].
  intros x r Hx. apply returns_bind. apply draw_text_returns. intros s r'.
  cbn [fst]. apply returns_bind.
  assert (Hu : user_by_id (fst w) (user_id x) <> None).
  { apply held_user_known; [exact Hs|]. rewrite Forall_forall in us_held.
    apply us_held. exact Hx. }
  destruct (comment_create_returns U Pr C s (user_id x) (post_id p) (fst w) Hs Hu Hp)
    as [c [d' [E [Hs' [G [Ep [Epc [Ec Hc]]]]]]]].
  eapply returns_lift; [exact E|]. apply returns_ret. cbn [fst].
  split; [exact Hs'|]. split; [exact G|]. split; [exact Ep|].
  split; [exact Ep|]. exists [], [c]. rewrite app_nil_r.
  repeat apply conj; try assumption; try reflexivity; repeat constructor.
  exact Hc.
Qed.

Lemma comments_loop_returns (p : Post) (n : nat) :
  forall (from : Z) (w : World),
    seeding U Pr C (fst w) ->
    post_by_id (fst w) (post_id p) <> None ->
    returns (Seed.for_range n from (Seed.create_comment us p) tt) w
      (fun _ w' =>
         seeding U Pr C (fst w') /\ grown 0 0 (Z.of_nat n) (fst w) (fst w') /\
         furnished (post_id p) 0 (Z.of_nat n) (fst w) (fst w')).
Proof.
  induction n as [|n IH]; intros from w Hs Hp.
  - apply returns_ret. split; [exact Hs|]. split; [apply grown_refl|].
    apply furnished_refl.
  - cbn [Seed.for_range]. apply returns_bind.
    eapply returns_impl; [apply create_comment_returns; assumption|].
    intros [] w1 [Hs1 [G1 [E1 F1]]]. cbv beta.
    eapply returns_impl;
      [apply IH; [exact Hs1|eapply post_known_kept; eassumption]|].
    intros [] w2 [Hs2 [G2 F2]]. cbv beta. split; [exact Hs2|].
    replace (Z.of_nat (S n)) with (1 + Z.of_nat n) by lia.
    split; [apply (grown_trans 0 0 1 0 0 (Z.of_nat n) _ _ _ G1 G2)|].
    apply (furnished_trans _ 0 1 0 (Z.of_nat n) _ _ _ F1 F2).
Qed.

Lemma categories_loop_returns (pid : Z) (l : list Category) :
  forall w : World,
    seeding U Pr C (fst w) ->
    post_by_id (fst w) pid <> None ->
    Forall (held_category C) l ->
    NoDup (map category_id l) ->
    Forall (fun pc => postId pc = pid -> ~ In (categoryId pc) (map category_id l))
           (postCategories (fst w)) ->
    returns
      (Seed.for_of l
         (fun category =>
            bind (lift (mem_postCategory_create pid (category_id category)))
                 (fun _ => ret tt))) w
      (fun _ w' =>
         seeding U Pr C (fst w') /\ grown 0 (len l) 0 (fst w) (fst w') /\
         posts (fst w') = posts (fst w) /\
         furnished pid (len l) 0 (fst w) (fst w')).
Proof.
  induction l as [|c l IH]; intros w Hs Hp Hheld Hnd Hnew.
  - apply returns_ret. split; [exact Hs|]. split; [apply grown_refl|].
    split; [reflexivity|apply furnished_refl].
  - cbn [Seed.for_of]. apply returns_bind. apply returns_bind.
    inversion Hheld as [|? ? Hc Hl]; subst.
    cbn [map] in Hnd. apply NoDup_cons_iff in Hnd. destruct Hnd as [Hnotin Hnd].
    assert (Hfree : Forall (fun pc => postId pc = pid -> categoryId pc <> category_id c)
                      (postCategories (fst w))).
    { eapply Forall_impl; [|exact Hnew]. intros pc H Hid Heq. cbv beta in H.
      apply (H Hid). left. symmetry. exact Heq. }
    destruct (postCategory_create_returns U Pr C pid (category_id c) (fst w) Hs Hp
                (held_category_known _ _ Hs Hc) Hfree)
      as [pc [d' [E [Hs' [G [Ep [Epc Ecm]]]]]]].
    eapply returns_lift; [exact E|]. apply returns_ret.
    eapply returns_impl; [apply IH; cbn [fst]|].
    + exact Hs'.
    + eapply post_known_kept; eassumption.
    + exact Hl.
    + exact Hnd.
    + rewrite Epc. apply Forall_app. split.
      * eapply Forall_impl; [|exact Hnew]. intros pc0 H Hid Hin. cbv beta in H.
        apply (H Hid). right. exact Hin.
      * constructor; [|constructor]. intros _. exact Hnotin.
    + intros [] w2 [Hs2 [G2 [E2 F2]]]. cbv beta. cbn [fst] in G2, E2, F2.
      replace (len (c :: l)) with (1 + len l)
        by (unfold len; cbn [List.length]; lia).
      split; [exact Hs2|].
      split; [apply (grown_trans 0 1 0 0 (len l) 0 _ _ _ G G2)|].
      split; [congruence|].
      apply (furnished_trans pid 1 0 (len l) 0 (fst w) d' (fst w2)); [|exact F2].
      split; [exact Ep|]. exists [mkPostCategory pid (category_id c)], [].
      rewrite app_nil_r, Ecm.
      repeat apply conj; try assumption; try reflexivity; repeat constructor.
Qed.

Variable cats : list Category.
Hypothesis cats_held : Forall (held_category C) cats.
Hypothesis cats_differ : NoDup (map category_id cats).
Hypothesis cats_enough : (3 <= List.length cats)%nat.

Lemma create_post_returns (user : User) (i : Z) (w : World) :
  held_user U user ->
  seeding U Pr C (fst w) ->
  posts_furnished (fst w) ->
  returns (Seed.create_post cats us user i tt) w
    (fun _ w' =>
       seeding U Pr C (fst w') /\ grown_by 1 (fst w) (fst w') /\
       posts_furnished (fst w')).
Proof.
  intros Huser Hs Hf. unfold Seed.create_post. on_world.
  apply returns_bind. apply draw_text_returns. intros t r1.
  apply returns_bind. apply draw_text_returns. intros c r2.
  apply returns_bind. apply draw_boolean_returns. intros pub r3.
  apply returns_bind. apply draw_between_returns; [lia|]. intros v r4 Hv.
  cbn [fst]. apply returns_bind.
  destruct (post_create_returns U Pr C
              {| pd_title := t; pd_content := c; pd_published := pub;
                 pd_views := v; pd_authorId := user_id user |} (fst w) Hs
              (held_user_known _ _ Hs Huser))
    as [p [d1 [E1 [Hs1 [G1 [Hp1 [_ [Hnone [Hrows [Hkey [Epc Ecm]]]]]]]]]]].
  eapply returns_lift; [exact E1|]. cbn [snd].
  apply returns_bind. apply draw_between_returns; [lia|]. intros k r5 Hk.
  cbn [fst]. apply returns_bind. apply draw_elements_returns.
  intros xs r6 Hlen Hincl Hdiff. cbn [fst].
  apply returns_bind.
  eapply returns_impl;
    [apply (categories_loop_returns (post_id p) xs (d1, r6)); cbn [fst]|].
  - exact Hs1.
  - exact Hp1.
  - apply Forall_forall. intros x Hx. rewrite Forall_forall in cats_held.
    apply cats_held. apply Hincl. exact Hx.
  - apply Hdiff. exact cats_differ.
  - eapply Forall_impl; [|exact Hnone]. intros pc H Hid. cbv beta in H. congruence.
  - intros [] w2 [Hs2 [G2 [E2 F2]]]. cbv beta. cbn [fst] in G2, E2, F2.
    apply returns_bind. apply draw_between_returns; [lia|]. intros n r7 Hn.
    eapply returns_impl;
      [apply (comments_loop_returns p (Z.to_nat n) 0 (fst w2, r7)); cbn [fst]|].
    + exact Hs2.
    + eapply post_known_kept; eassumption.
    + intros [] w3 [Hs3 [G3 F3]]. cbv beta. cbn [fst] in G3, F3.
      assert (Lxs : 1 <= len xs <= 3) by (unfold len; rewrite Hlen; lia).
      split; [exact Hs3|]. split.
      * exists (len xs), n. split.
        -- pose proof (grown_trans _ _ _ _ _ _ _ _ _
                         (grown_trans _ _ _ _ _ _ _ _ _ G1 G2) G3) as G.
           rewrite Z2Nat.id in G by lia.
           replace (1 + 0 + 0) with 1 in G by lia.
           replace (0 + len xs + 0) with (len xs) in G by lia.
           replace (0 + 0 + n) with n in G by lia. exact G.
        -- lia.
      * pose proof (furnished_trans _ _ _ _ _ _ _ _ F2 F3) as F.
        rewrite Z2Nat.id in F by lia.
        destruct Hs as [_ [_ [_ [Hkeys Hrefs]]]].
        eapply (posts_furnished_more (fst w) d1 (fst w3) p);
          [exact Hkeys|exact Hrefs|exact Hf|exact Hrows|exact Hkey|exact Epc
          |exact Ecm|exact F|lia|lia].
Qed.

Lemma posts_loop_returns (user : User) (n : nat) :
  held_user U user ->
  forall (from : Z) (w : World),
    seeding U Pr C (fst w) ->
    posts_furnished (fst w) ->
    returns (Seed.for_range n from (Seed.create_post cats us user) tt) w
      (fun _ w' =>
         seeding U Pr C (fst w') /\ grown_by (Z.of_nat n) (fst w) (fst w') /\
         posts_furnished (fst w')).
Proof.
  intros Huser. induction n as [|n IH]; intros from w Hs Hf.
  - apply returns_ret. split; [exact Hs|]. split; [|exact Hf].
    exists 0, 0. split; [apply grown_refl|lia].
  - cbn [Seed.for_range]. apply returns_bind.
    eapply returns_impl; [apply create_post_returns; assumption|].
    intros [] w1 [Hs1 [G1 Hf1]]. cbv beta.
    eapply returns_impl; [apply IH; [exact Hs1|exact Hf1]|].
    intros [] w2 [Hs2 [G2 Hf2]]. cbv beta. split; [exact Hs2|].
    split; [|exact Hf2].
    replace (Z.of_nat (S n)) with (1 + Z.of_nat n) by lia.
    eapply grown_by_trans; eassumption.
Qed.

Lemma users_loop_returns (l : list User) :
  Forall (held_user U) l ->
  forall w : World,
    seeding U Pr C (fst w) ->
    posts_furnished (fst w) ->
    returns
      (Seed.for_of l
         (fun user =>
            bind (draw_between 1 5)
              (fun postCount =>
                 Seed.for_range (Z.to_nat postCount) 0
                   (Seed.create_post cats us user) tt))) w
      (fun _ w' =>
         seeding U Pr C (fst w') /\
         (exists n, len l <= n <= 5 * len l /\ grown_by n (fst w) (fst w')) /\
         posts_furnished (fst w')).
Proof.
  induction l as [|u l IH]; intros Hheld w Hs Hf.
  - apply returns_ret. split; [exact Hs|]. split; [|exact Hf]. exists 0.
    split; [unfold len; cbn; lia|]. exists 0, 0. split; [apply grown_refl|lia].
  - inversion Hheld as [|? ? Hu Hl]; subst.
    cbn [Seed.for_of]. apply returns_bind. apply returns_bind.
    apply draw_between_returns; [lia|]. intros m r Hm.
    eapply returns_impl; [apply (posts_loop_returns u _ Hu); [exact Hs|exact Hf]|].
    intros [] w1 [Hs1 [G1 Hf1]]. cbv beta.
    eapply returns_impl; [apply (IH Hl); [exact Hs1|exact Hf1]|].
    intros [] w2 [Hs2 [[n [Hn G2]] Hf2]]. cbv beta. split; [exact Hs2|].
    split; [|exact Hf2].
    exists (m + n). split.
    + unfold len in *. cbn [List.length]. lia.
    + rewrite Z2Nat.id in G1 by lia. cbn [fst] in G1.
      eapply grown_by_trans; eassumption.
Qed.

End PostsPhase.

(** *** The phases before the posts *)

Lemma categories_kept_refl (d : Db) : categories_kept d d.
Proof. reflexivity. Qed.

Lemma categories_kept_trans (a b c : Db) :
  categories_kept a b -> categories_kept b c -> categories_kept a c.
Proof. unfold categories_kept. congruence. Qed.

Ltac categories_kept_call :=
  apply keeps_lift; intros d;
  repeat match goal with
         | |- context [if ?c then _ else _] => destruct c
         | |- context [match ?x with Some _ => _ | None => _ end] => destruct x
         end;
  cbn [snd]; reflexivity.

Lemma categories_kept_user_create (data : UserData) :
  keeps categories_kept (lift (mem_user_create data)).
Proof. unfold mem_user_create. categories_kept_call. Qed.

Lemma categories_kept_post_create (data : PostData) :
  keeps categories_kept (lift (mem_post_create data)).
Proof. unfold mem_post_create. categories_kept_call. Qed.

Lemma categories_kept_postCategory_create (p c : Z) :
  keeps categories_kept (lift (mem_postCategory_create p c)).
Proof. unfold mem_postCategory_create. categories_kept_call. Qed.

Lemma categories_kept_comment_create (t : string) (a p : Z) :
  keeps categories_kept (lift (mem_comment_create t a p)).
Proof. unfold mem_comment_create. categories_kept_call. Qed.

Lemma categories_kept_count (m : Model) :
  keeps categories_kept (lift (mem_count m)).
Proof. unfold mem_count. categories_kept_call. Qed.

Ltac categories_kept_prim :=
  first [ apply categories_kept_user_create
        | apply categories_kept_post_create
        | apply categories_kept_postCategory_create
        | apply categories_kept_comment_create
        | apply categories_kept_count ].

Ltac categories_kept_all :=
  on_world;
  keeps_with categories_kept categories_kept_refl categories_kept_trans
             categories_kept_prim.

Lemma categories_kept_create_users : keeps categories_kept Seed.create_users.
Proof.
  unfold Seed.create_users.
  apply (keeps_for_range _ categories_kept_refl categories_kept_trans). intros i s.
  unfold Seed.create_user. categories_kept_all.
Qed.

Lemma categories_kept_create_posts (categories : list Category) (users : list User) :
  keeps categories_kept (Seed.create_posts categories users).
Proof.
  unfold Seed.create_posts, Seed.create_post, Seed.create_comment.
  categories_kept_all.
Qed.

Lemma posts_kept_refl (d : Db) : posts_kept d d.
Proof. repeat split. Qed.

Lemma posts_kept_trans (a b c : Db) :
  posts_kept a b -> posts_kept b c -> posts_kept a c.
Proof. intros [A1 [A2 A3]] [B1 [B2 B3]]. repeat split; congruence. Qed.

Lemma posts_kept_user_create (data : UserData) :
  keeps posts_kept (lift (mem_user_create data)).
Proof.
  unfold mem_user_create. apply keeps_lift; intros d;
  repeat match goal with
         | |- context [if ?c then _ else _] => destruct c
         | |- context [match ?x with Some _ => _ | None => _ end] => destruct x
         end;
  cbn [snd]; repeat split.
Qed.

Lemma posts_kept_create_users : keeps posts_kept Seed.create_users.
Proof.
  unfold Seed.create_users.
  apply (keeps_for_range _ posts_kept_refl posts_kept_trans). intros i s.
  unfold Seed.create_user. on_world.
  keeps_with posts_kept posts_kept_refl posts_kept_trans
             ltac:(apply posts_kept_user_create).
Qed.

(** *** What every run and what a complete run leaves *)

(** X19. Every run of the seed script, complete or not and whatever the
    store before it, leaves exactly the four categories Technology,
    Programming, Design and Business, each with its colour, in the order in
    which the database served the four calls, and with four different keys;
    a run that completes reports four categories. *)
Theorem seed_leaves_four_categories (w : World) (r : Outcome Seed.Stats) (w' : World) :
  Seed.main w = (r, w') ->
  Permutation
    (map (fun c => (category_name c, color c)) (rows (categories (fst w'))))
    seed_categories /\
  NoDup (map category_id (rows (categories (fst w')))) /\
  (forall s, r = Ok s -> Seed.stat_categories s = 4).
Proof.
  rewrite main_after_clear.
  set (w0 := (emptied_all (fst w), snd w)).
  assert (K0 : Forall (fun c => category_id c < next (categories (fst w0)))
                 (rows (categories (fst w0)))) by constructor.
  destruct (create_categories_run w0 K0)
    as [cats [created [d1 [Ec [Hrows [_ [Hperm [Hnames [Hids _]]]]]]]]].
  change (rows (categories (fst w0))) with (@nil Category) in Hrows.
  cbn [app] in Hrows.
  assert (Hcats :
            Permutation
              (map (fun c => (category_name c, color c)) (rows (categories d1)))
              seed_categories /\
            NoDup (map category_id (rows (categories d1))) /\
            len (rows (categories d1)) = 4).
  { rewrite Hrows. split; [|split].
    - rewrite <- Hnames. apply Permutation_map. exact Hperm.
    - rewrite Hids. apply NoDup_four.
    - unfold len. rewrite <- (length_map category_id), Hids. reflexivity. }
  clear Hrows Hnames Hids Hperm.
  unfold bind at 1. rewrite Ec. clear Ec.
  unfold bind at 1.
  set (w1 := (d1, after_choices 4 (snd w0))).
  pose proof (categories_kept_create_users w1) as Ku. revert Ku.
  destruct (Seed.create_users w1) as [[us|e] w2]; cbn [fst snd];
    unfold categories_kept; intros Ku H.
  2:{ injection H as <- <-. rewrite Ku.
      destruct Hcats as [H1 [H2 _]]. repeat apply conj; try assumption.
      intros; discriminate. }
  unfold bind at 1 in H.
  pose proof (categories_kept_create_posts cats us w2) as Kp. revert Kp H.
  destruct (Seed.create_posts cats us w2) as [[[]|e] w3]; cbn [fst snd];
    unfold categories_kept; intros Kp H.
  2:{ injection H as <- <-. rewrite Kp, Ku.
      destruct Hcats as [H1 [H2 _]]. repeat apply conj; try assumption.
      intros; discriminate. }
  rewrite statistics_run in H. injection H as <- <-.
  rewrite Kp, Ku. destruct Hcats as [H1 [H2 H3]].
  repeat apply conj; try assumption.
  intros s Hs. injection Hs as <-. cbn [Seed.stat_categories count_rows].
  exact H3.
Qed.

Lemma map_eq_In {A B C} (f : A -> C) (g : B -> C) (l : list A) (l' : list B) (x : A) :
  map f l = map g l' -> In x l -> exists y, In y l' /\ g y = f x.
Proof.
  intros E Hx. apply (in_map f) in Hx. rewrite E in Hx.
  apply in_map_iff in Hx. destruct Hx as [y [H1 H2]]. exists y. split; assumption.
Qed.

(** A run of the script that gets through the loop of the users, as it does
    when the ten emails differ, and as it has when it completes. *)
Lemma seed_run (w : World) :
  NoDup (emails_to_draw 10 (snd w)) \/ (exists s w', Seed.main w = (Ok s, w')) ->
  exists s w', Seed.main w = (Ok s, w') /\ seeded s (fst w').
Proof.
  intros Hrun.
  assert (Hmain : forall s w',
             Seed.main w = (Ok s, w') ->
             bind Seed.create_categories
               (fun categories =>
                  bind Seed.create_users
                    (fun users =>
                       bind (Seed.create_posts categories users)
                            (fun _ => Seed.statistics)))
               (emptied_all (fst w), snd w) = (Ok s, w')).
  { intros s w' H. rewrite main_after_clear in H. exact H. }
  rewrite main_after_clear.
  set (w0 := (emptied_all (fst w), snd w)).
  assert (K0 : keys_below (fst w0)) by (repeat apply conj; constructor).
  destruct (create_categories_ok w0 K0) as [cats0 [d0 [Ec0 [K1 _]]]].
  destruct (create_categories_run w0 (proj2 (proj2 (proj2 K0))))
    as [cats [created [d1 [Ec [Hrows [_ [Hperm [Hnames [Hids [Hu1 [Hp1 Hk1]]]]]]]]]]].
  rewrite Ec in Ec0. injection Ec0 as <- <-.
  set (r1 := after_choices 4 (snd w)).
  assert (Hemails1 : emails_to_draw 10 r1 = emails_to_draw 10 (snd w))
    by reflexivity.
  change (after_choices 4 (snd w0)) with r1 in Ec.
  clearbody r1.
  change (rows (categories (fst w0))) with (@nil Category) in Hrows.
  cbn [app] in Hrows.
  assert (U1 : rows (users d1) = []) by (rewrite Hu1; reflexivity).
  assert (P1 : rows (profiles d1) = []) by (rewrite Hp1; reflexivity).
  (* the users *)
  assert (Husers : exists us w2,
             Seed.for_range 10 0 Seed.create_user [] (d1, r1) = (Ok us, w2)).
  { destruct Hrun as [Hemails|[s [w' Hrun]]].
    - apply create_users_complete; cbn [fst snd].
      + exact K1.
      + rewrite Hemails1. exact Hemails.
      + intros e _. unfold user_by_email. rewrite U1. reflexivity.
    - apply Hmain in Hrun. fold w0 in Hrun.
      unfold bind at 1 in Hrun. rewrite Ec in Hrun.
      unfold bind at 1 in Hrun. unfold Seed.create_users in Hrun.
      destruct (Seed.for_range 10 0 Seed.create_user [] (d1, r1))
        as [[us|e] w2]; [eauto|discriminate]. }
  destruct Husers as [us [w2 Eu]]. clear Hrun Hmain.
  unfold bind at 1. rewrite Ec. clear Ec.
  destruct (create_users_loop 10 0 [] (d1, r1))
    as [new [ps [k [Hn [Hps [Hmap [_ [Hroles Hok]]]]]]]].
  pose proof (categories_kept_create_users (d1, r1)) as Kc.
  pose proof (posts_kept_create_users (d1, r1)) as Kp.
  unfold Seed.create_users in Kc, Kp |- *.
  rewrite Eu in Hn, Hps, Hok, Kc, Kp. cbn [fst snd] in Hn, Hps, Hok, Kc, Kp.
  destruct (Hok us eq_refl) as [-> Hus]. cbn [app] in Hus. subst new.
  rewrite U1 in Hn. rewrite P1 in Hps. cbn [app] in Hn, Hps.
  unfold bind at 1. rewrite Eu.
  assert (Lus : List.length us = 10%nat).
  { rewrite <- (length_map role), Hroles, length_map. reflexivity. }
  destruct Kp as [Kp1 [Kp2 Kp3]]. destruct Hk1 as [Hk1 [Hk2 Hk3]].
  unfold categories_kept in Kc.
  (* the posts *)
  assert (Hseed : seeding (users (fst w2)) (profiles (fst w2)) (categories (fst w2))
                    (fst w2)).
  { split; [reflexivity|]. split; [reflexivity|]. split; [reflexivity|]. split.
    - unfold post_keys_below. rewrite Kp1, Kp2, Kp3, Hk1, Hk2, Hk3.
      repeat apply conj; constructor.
    - unfold references_hold. rewrite Kp1, Kp2, Kp3, Hk1, Hk2, Hk3.
      repeat apply conj; try constructor.
      rewrite Hps. apply Forall_forall. intros p Hp.
      destruct (map_eq_In _ _ _ _ p Hmap Hp) as [u [Hu Hid]].
      unfold user_by_id. rewrite Hn. apply (find_of_In _ _ u Hu).
      apply Z.eqb_eq. exact Hid. }
  assert (Hheld : Forall (held_user (users (fst w2))) us).
  { apply Forall_forall. intros u Hu. unfold held_user. rewrite Hn.
    apply (find_of_In _ _ u Hu). apply Z.eqb_refl. }
  assert (Hcheld : Forall (held_category (categories (fst w2))) cats).
  { apply Forall_forall. intros c Hc. unfold held_category. rewrite Kc, Hrows.
    apply (find_of_In _ _ c); [|apply Z.eqb_refl].
    eapply Permutation_in; [apply Permutation_sym; exact Hperm|exact Hc]. }
  assert (Lcats : List.length cats = 4%nat).
  { rewrite <- (Permutation_length Hperm), <- (length_map category_id), Hids.
    reflexivity. }
  assert (Hsome : us <> []) by (intros ->; discriminate).
  assert (Hdiffc : NoDup (map category_id created))
    by (rewrite Hids; apply NoDup_four).
  assert (Hdiff : NoDup (map category_id cats)).
  { eapply Permutation_NoDup; [|exact Hdiffc].
    apply Permutation_map. exact Hperm. }
  assert (Hf2 : posts_furnished (fst w2)).
  { unfold posts_furnished. rewrite Kp1, Hk1. constructor. }
  assert (Henough : (3 <= List.length cats)%nat) by lia.
  destruct (users_loop_returns _ _ _ us Hsome Hheld cats Hcheld Hdiff Henough
              us Hheld w2 Hseed Hf2)
    as [[] [w3 [Ep [Hs3 [[n [Hnb [npc [nc [[G1 [G2 G3]] [Hb Hc]]]]]] Hf3]]]]].
  unfold bind at 1. unfold Seed.create_posts. on_world. rewrite Ep.
  rewrite statistics_run.
  eexists. eexists. split; [reflexivity|]. unfold seeded.
  cbn [Seed.stat_users Seed.stat_profiles Seed.stat_categories Seed.stat_posts
       Seed.stat_postCategories Seed.stat_comments count_rows fst].
  destruct Hs3 as [HU3 [HP3 [HC3 [_ Hrefs]]]].
  rewrite Kp1, Hk1 in G1. rewrite Kp2, Hk2 in G2. rewrite Kp3, Hk3 in G3.
  change (len (rows (posts (fst w0)))) with 0 in G1.
  change (len (postCategories (fst w0))) with 0 in G2.
  change (len (rows (comments (fst w0)))) with 0 in G3.
  assert (L10 : len us = 10) by (unfold len; rewrite Lus; reflexivity).
  rewrite L10 in Hnb.
  rewrite HU3, HP3, HC3, Kc, Hrows, Hn, Hps, G1, G2, G3.
  assert (Lps : len ps = 10).
  { unfold len. rewrite <- (length_map userId), Hmap, length_map, Lus. reflexivity. }
  assert (L4 : len created = 4).
  { unfold len. rewrite (Permutation_length Hperm), Lcats. reflexivity. }
  rewrite L10, Lps, L4.
  repeat apply conj; try reflexivity; try lia; try apply Hrefs.
  - exact Hf3.
  - rewrite <- Hnames. apply Permutation_map. exact Hperm.
  - exact Hdiffc.
Qed.

(** X20. The seed script runs to its end whenever the ten emails it draws
    differ from each other, whatever the store before it.  It then reports
    ten users, ten profiles and four categories, and between ten and fifty
    posts; the numbers are those of the rows in the store it leaves, in
    which every post has one to three junction rows and at most five
    comments, and every reference of a row leads to a row. *)
Theorem seed_completes (w : World) :
  NoDup (emails_to_draw 10 (snd w)) ->
  exists s w',
    Seed.main w = (Ok s, w') /\
    Seed.stat_users s = 10 /\ Seed.stat_profiles s = 10 /\
    Seed.stat_categories s = 4 /\
    10 <= Seed.stat_posts s <= 50 /\
    Seed.stat_users s = len (rows (users (fst w'))) /\
    Seed.stat_profiles s = len (rows (profiles (fst w'))) /\
    Seed.stat_categories s = len (rows (categories (fst w'))) /\
    Seed.stat_posts s = len (rows (posts (fst w'))) /\
    Seed.stat_postCategories s = len (postCategories (fst w')) /\
    Seed.stat_comments s = len (rows (comments (fst w'))) /\
    Forall
      (fun p =>
         1 <= len (filter (fun pc => postId pc =? post_id p)
                     (postCategories (fst w'))) <= 3 /\
         0 <= len (filter (fun c => comment_postId c =? post_id p)
                     (rows (comments (fst w')))) <= 5)
      (rows (posts (fst w'))) /\
    references_hold (fst w').
Proof.
  intros Hemails. destruct (seed_run w (or_introl Hemails)) as [s [w' [E H]]].
  exists s, w'. split; [exact E|]. unfold seeded in H.
  unfold posts_furnished, categories_of_post, comments_on_post in H. tauto.
Qed.

(** ** The server on the store that the seed script leaves *)

Lemma Forall2_names (cs : list Category) (l : list CategoryAnalytics) (d : Db) :
  Forall2 analytics_for (map (category_stats d) cs) l ->
  map category l = map category_name cs.
Proof.
  revert l. induction cs as [|c cs IH]; intros l H; inversion H; subst.
  - reflexivity.
  - cbn [map]. f_equal; [|apply IH; assumption].
    match goal with Hx : analytics_for _ _ |- _ => apply Hx end.
Qed.

(** X21. After a run of the seed script that completes, the server answers
    from the store it leaves: the list of users without parameters returns
    the ten users on one page, newest first; the search without parameters
    returns ten posts and counts all posts of the run; and the analytics
    answer with the four categories, in the order in which the database
    served their creation, and with five top authors. *)
Theorem seeded_store_is_served (w : World) (s : Seed.Stats) (w' : World) :
  Seed.main w = (Ok s, w') ->
  (exists pg,
      fst (get_users (mkUsersQuery None None None None None) (fst w'))
      = Ok (Json 200 pg) /\
      Permutation (map uo_user (data pg)) (rows (users (fst w'))) /\
      newest_first user_createdAt (map uo_user (data pg)) /\
      len (data pg) = 10 /\
      pagination pg = mkPagination (JInt 1) (JInt 10) 10 (JInt 1)) /\
  (exists pg,
      fst (search_posts
             (mkSearchQuery None None None None None None None None None) (fst w'))
      = Ok (Json 200 pg) /\
      len (data pg) = 10 /\
      page (pagination pg) = JInt 1 /\
      total (pagination pg) = Seed.stat_posts s /\
      10 <= total (pagination pg) <= 50) /\
  (exists a,
      fst (get_analytics (fst w')) = Ok (Json 200 a) /\
      Permutation (map category (categoryAnalytics a)) (map fst seed_categories) /\
      len (topAuthors a) = 5).
Proof.
  intros Hmain.
  destruct (seed_run w (or_intror (ex_intro _ s (ex_intro _ w' Hmain))))
    as [s0 [w0 [E H]]].
  rewrite Hmain in E. injection E as <- <-.
  destruct H as [Hu [_ [_ [Hposts [_ [_ [Lu [_ [_ [Lp [_ [_ [Hrefs [_ [Hnames _]]]]]]]]]]]]]]].
  assert (H53 : 2147483647 < 2 ^ 53) by (vm_compute; reflexivity).
  rewrite Hu in Lu. rewrite Lp in Hposts.
  set (d := fst w') in *.
  repeat apply conj.
  - rewrite get_users_eq.
    cbn [uq_page uq_limit uq_include_profile uq_role uq_search or_default
         users_where when_truthy truthy user_filter where_role where_user_OR].
    change (toNumber "1") with (JInt 1). change (toNumber "10") with (JInt 10).
    change (parseInt "10") with (JInt 10). change (parseInt "1") with (JInt 1).
    rewrite skip_int, window_int by (cbn; lia).
    rewrite (filter_all _ (rows (users d))) by reflexivity.
    change (Z.to_nat ((1 - 1) * 10)) with 0%nat. cbn [skipn].
    rewrite firstn_all2
      by (rewrite sort_desc_length; unfold len in Lu; lia).
    rewrite ceil_div_pos by lia.
    eexists. split; [reflexivity|]. cbn [data pagination].
    rewrite (map_built (user_out false d) uo_user) by reflexivity.
    repeat apply conj.
    + apply sort_desc_perm.
    + apply sort_desc_sorted.
    + unfold len. rewrite length_map, sort_desc_length. unfold len in Lu. lia.
    + rewrite <- Lu. reflexivity.
  - rewrite search_posts_eq.
    cbn [sq_page sq_limit or_default].
    change (toNumber "1") with (JInt 1). change (toNumber "10") with (JInt 10).
    change (parseInt "10") with (JInt 10). change (parseInt "1") with (JInt 1).
    change (post_filter d
              (search_where
                 (mkSearchQuery None None None None None None None None None)))
      with (Some (fun p : Post => true && true && true && true && true && true)).
    rewrite skip_int, window_int by (cbn; lia).
    rewrite (filter_all _ (rows (posts d))) by reflexivity.
    change (Z.to_nat ((1 - 1) * 10)) with 0%nat. cbn [skipn].
    eexists. split; [reflexivity|]. cbn [data pagination page total].
    repeat apply conj; try reflexivity; try lia.
    unfold len. rewrite length_map, length_firstn, sort_desc_length.
    unfold len in Hposts. lia.
  - rewrite get_analytics_eq.
    assert (Hfk : forall pc, In pc (postCategories d) ->
                             post_by_id d (postId pc) <> None).
    { intros pc Hpc. destruct Hrefs as [_ [_ [Rpc _]]].
      rewrite Forall_forall in Rpc. apply (Rpc pc Hpc). }
    destruct (map_analytics_on_store d Hfk) as [l El]. rewrite El.
    eexists. split; [reflexivity|]. cbn [categoryAnalytics topAuthors].
    split.
    + rewrite (Forall2_names _ _ _ (map_analytics_some _ _ El)).
      assert (Hfst : map category_name (rows (categories d))
                     = map fst (map (fun c => (category_name c, color c))
                                  (rows (categories d))))
        by (rewrite map_map; reflexivity).
      rewrite Hfst. apply Permutation_map. exact Hnames.
    + unfold len. rewrite length_firstn, sort_desc_length, length_map.
      unfold len in Lu. lia.
Qed.

End Properties.

(* ===================================================================== *)
(** * The theorems at work on a store *)
(* ===================================================================== *)

(** The stores and the worlds of [Sample] are run with its engine and its
    database. *)
#[local] Existing Instance Sample.engine.
#[local] Existing Instance Sample.collation.

Local Open Scope string_scope.

Example date_of_the_engine :
  Date_new "2023-02-29" = InvalidDate /\ Date_new "yesterday" = InvalidDate.
Proof. split; reflexivity. Qed.

Example text_of_the_database :
  contains_i "BC" "abcd" = true /\ contains_i "" "" = true /\
  contains_i "x" "abc" = false /\ equals_i "Design" "design" = true.
Proof. repeat split. Qed.

Ltac each_user H :=
  cbn in H;
  repeat match type of H with
         | _ \/ _ => destruct H as [H|H]
         | False => destruct H
         end;
  subst; discriminate.

Lemma transfer_reassigns_or_rolls_back_witness :
  (exists result d',
      transfer_post "3" (Some "cat@example.com") Sample.store
      = (Ok (Json 200 result), d') /\
      post_by_id d' 3 = Some (with_author 3 Sample.post3) /\
      previousAuthor result = Some Sample.bob) /\
  transfer_post "3" (Some "dan@example.com") Sample.store
  = (Ok (JsonError 400 "New author not found"), Sample.store).
Proof.
  split.
  - destruct (transfer_reassigns_or_rolls_back Sample.store "3" "cat@example.com")
      as [H _].
    destruct (H 3 Sample.post3 Sample.cat eq_refl eq_refl eq_refl)
      as [result [d' [E [Hp [_ [_ Hprev]]]]]].
    exists result, d'. repeat apply conj; assumption.
  - destruct (transfer_reassigns_or_rolls_back Sample.store "3" "dan@example.com")
      as [_ H].
    apply H. intros u Hin. each_user Hin.
Defined.

Lemma pagination_of_lists_witness :
  (exists beyond,
      fst (get_users (mkUsersQuery (Some "4") (Some "2") None None None) Sample.store)
      = Ok (Json 200 beyond) /\
      data beyond = [] /\
      total (pagination beyond) = 3 /\
      totalPages (pagination beyond) = JInt 2) /\
  (exists beyond,
      fst (search_posts
             (mkSearchQuery None None None (Some "true") None None None
                (Some "4") (Some "2")) Sample.store)
      = Ok (Json 200 beyond) /\
      data beyond = [] /\
      total (pagination beyond) = 3 /\
      totalPages (pagination beyond) = JInt 2).
Proof.
  destruct (pagination_of_lists Sample.store (Some "2") "4" 2 4
              eq_refl eq_refl ltac:(lia) eq_refl ltac:(lia)
              ltac:(vm_compute; reflexivity) ltac:(vm_compute; reflexivity))
    as [Hu [Hs _]].
  split.
  - edestruct (Hu (Some "1") None None None) as [f [T [_ [Ht [HT [Hb Hbeyond]]]]]];
      [vm_compute; reflexivity|].
    cbn in Ht, HT, Hb.
    destruct Hbeyond as [beyond [E [Hd [Htot Hpages]]]]; [lia|].
    exists beyond. cbn in Htot, Hpages. repeat apply conj; assumption.
  - edestruct (Hs (Some "1") None None None (Some "true") None None None)
      as [f [T [_ [Ht [HT [Hb Hbeyond]]]]]]; [vm_compute; reflexivity|].
    cbn in Ht, HT, Hb.
    destruct Hbeyond as [beyond [E [Hd [Htot Hpages]]]]; [lia|].
    exists beyond. cbn in Htot, Hpages. repeat apply conj; assumption.
Defined.

(** C2, as the spec has it, does not hold for every limit: the limit 20e-1
    is 2 where the offset is computed and 20 where the page is cut and
    counted, so that page 2 lies beyond the one page that is reported and
    still holds a record. *)
Lemma pagination_counterexample :
  exists pg,
    fst (get_users (mkUsersQuery (Some "2") (Some "20e-1") None None None)
           Sample.store)
    = Ok (Json 200 pg) /\
    page (pagination pg) = JInt 2 /\
    total (pagination pg) = 3 /\
    totalPages (pagination pg) = JInt 1 /\
    map uo_user (data pg) = [Sample.ann].
Proof.
  let v := eval vm_compute in
             (fst (get_users (mkUsersQuery (Some "2") (Some "20e-1") None None None)
                     Sample.store)) in
  lazymatch v with
  | Ok (Json _ ?pg) => exists pg
  end.
  split; [vm_compute; reflexivity|]. repeat split.
Qed.

(** The search without filters on the second page of two. *)
Lemma search_without_filters_witness :
  exists pg,
    search_posts
      (mkSearchQuery None None None None None None None (Some "2") (Some "2"))
      Sample.store
    = (Ok (Json 200 pg), Sample.store) /\
    spec_unfiltered_page 2 2 Sample.store pg.
Proof.
  apply (search_without_filters Sample.store (Some "2") (Some "2") 2 2
           eq_refl eq_refl eq_refl eq_refl);
    [lia|lia|lia|vm_compute; reflexivity].
Defined.

(** C6, as the spec has it, does not hold for every page and limit: with the
    limit 20e-1 the search answers page 2 with the three oldest of five
    posts, reported as a page of limit 20, which is a page of no paginated
    list of the posts. *)
Lemma search_without_filters_counterexample :
  exists pg,
    fst (search_posts
           (mkSearchQuery None None None None None None None (Some "2")
              (Some "20e-1")) Sample.store)
    = Ok (Json 200 pg) /\
    map (fun po => post_id (po_post po)) (data pg) = [3; 2; 1] /\
    forall p l, ~ spec_unfiltered_page p l Sample.store pg.
Proof.
  let v := eval vm_compute in
             (fst (search_posts
                     (mkSearchQuery None None None None None None None (Some "2")
                        (Some "20e-1")) Sample.store)) in
  lazymatch v with
  | Ok (Json _ ?pg) => exists pg
  end.
  split; [vm_compute; reflexivity|]. split; [reflexivity|].
  intros p l [all [Hperm [_ [Hdata [_ [Hp [Hl _]]]]]]].
  cbn [pagination page limit] in Hp, Hl.
  injection Hp as <-. injection Hl as <-.
  apply (f_equal (@List.length Post)) in Hdata.
  rewrite length_firstn, length_skipn, (Permutation_length Hperm) in Hdata.
  cbn in Hdata. discriminate.
Qed.


Lemma missing_user_not_found_witness :
  put_user "7" Sample.dan Sample.store
  = (Ok (JsonError 404 "User not found"), Sample.store) /\
  delete_user "7" Sample.store
  = (Ok (JsonError 404 "User not found"), Sample.store).
Proof.
  apply (missing_user_not_found Sample.store "7" 7); [reflexivity|lia|].
  intros u Hin. each_user Hin.
Defined.

(** C4, as the spec has it, does not hold for every id of the route: an id
    that is not a number is the id of no user record, the query layer
    rejects it as an argument, and both handlers answer with status 500. *)
Lemma missing_user_counterexample :
  ~ (forall (d : Db) (id : string) (body : UserData),
        (forall u, In u (rows (users d)) -> parseInt id <> JInt (user_id u)) ->
        status_of (fst (put_user id body d)) = Some 404 /\
        status_of (fst (delete_user id d)) = Some 404).
Proof.
  intros H.
  destruct (H Sample.store "abc" Sample.dan) as [Hput _].
  - intros u _. discriminate.
  - vm_compute in Hput. discriminate.
Qed.

Lemma published_filter_witness :
  where_published (search_where Sample.published_1) = Some false /\
  exists pg,
    fst (search_posts Sample.published_1 Sample.store) = Ok (Json 200 pg) /\
    map (fun po => post_id (po_post po)) (data pg) = [4; 2] /\
    Forall (fun po => published (po_post po) = false) (data pg).
Proof.
  destruct (published_filter Sample.published_1) as [H _].
  destruct (H "1" eq_refl) as [Hw [_ Hnot]].
  split; [exact Hw|].
  eexists. split; [vm_compute; reflexivity|]. split; [reflexivity|].
  assert (Hne : "1" <> "true") by discriminate.
  apply (Hnot Hne Sample.store 200). vm_compute. reflexivity.
Defined.

Lemma text_of_injective (a b : nat) : Sample.text_of a = Sample.text_of b -> a = b.
Proof.
  revert b. induction a as [|a IH]; intros [|b]; cbn; intros H;
    try reflexivity; try discriminate.
  injection H as H. f_equal. apply IH. exact H.
Qed.

Lemma sample_emails_differ : NoDup (emails_to_draw 10 Sample.rng).
Proof.
  unfold emails_to_draw. cbn [Sample.rng texts drawn].
  apply Injective_map_NoDup; [|apply seq_NoDup].
  intros a b H. apply text_of_injective in H. lia.
Qed.

(** C8, as the spec has it, does not hold: no two runs of the script that
    complete differ in the number of users they leave, whatever the store
    before them and whatever the values drawn. *)
Lemma seed_user_count_not_configurable :
  ~ exists (w1 w2 : World) (s1 s2 : Seed.Stats) (w1' w2' : World),
      Seed.main w1 = (Ok s1, w1') /\
      Seed.main w2 = (Ok s2, w2') /\
      len (rows (users (fst w1'))) <> len (rows (users (fst w2'))).
Proof.
  intros [w1 [w2 [s1 [s2 [w1' [w2' [H1 [H2 Hdiff]]]]]]]].
  apply Hdiff.
  destruct (seed_users w1 (Ok s1) w1' H1) as [k1 [_ [R1 [_ [K1 _]]]]].
  destruct (seed_users w2 (Ok s2) w2' H2) as [k2 [_ [R2 [_ [K2 _]]]]].
  destruct (K1 s1 eq_refl) as [-> _]. destruct (K2 s2 eq_refl) as [-> _].
  rewrite (len_map_eq _ _ _ _ R1), (len_map_eq _ _ _ _ R2). reflexivity.
Qed.

Lemma seed_creates_ten_users_witness :
  len (rows (users (fst (snd (Seed.main Sample.fresh_world))))) = 10 /\
  len (rows (profiles (fst (snd (Seed.main Sample.fresh_world))))) = 10 /\
  fst (Seed.main Sample.fresh_world)
  = Ok (Seed.mkStats 10 10 38 4 73 95).
Proof.
  destruct (Seed.main Sample.fresh_world) as [r w'] eqn:E.
  destruct (seed_creates_ten_users Sample.fresh_world r w' E
              (or_intror sample_emails_differ)) as [H1 [H2 _]].
  cbn [fst snd]. repeat apply conj; try assumption.
  replace r with (fst (Seed.main Sample.fresh_world)) by (rewrite E; reflexivity).
  vm_compute. reflexivity.
Defined.

(** C10, as the spec has it, does not hold for every run: a run that draws
    for its second user the email of the first stops there, with one ADMIN
    and no MODERATOR in the database. *)
Lemma seed_roles_counterexample :
  exists e w',
    Seed.main Sample.world_one_text = (Throw e, w') /\
    map role (rows (users (fst w'))) = [ADMIN] /\
    List.length (filter (with_role MODERATOR) (rows (users (fst w')))) = 0%nat.
Proof.
  destruct (Seed.main Sample.world_one_text) as [[s|e] w'] eqn:E.
  - apply (f_equal fst) in E. vm_compute in E. discriminate.
  - exists e, w'. split; [reflexivity|].
    replace w' with (snd (Seed.main Sample.world_one_text))
      by (rewrite E; reflexivity).
    split; vm_compute; reflexivity.
Qed.

Lemma seed_roles_by_index_witness :
  exists s w',
    Seed.main Sample.world = (Ok s, w') /\
    map role (rows (users (fst w')))
    = [ADMIN; MODERATOR; USER; USER; USER; USER; USER; USER; USER; USER] /\
    List.length (filter (with_role ADMIN) (rows (users (fst w')))) = 1%nat /\
    List.length (filter (with_role MODERATOR) (rows (users (fst w')))) = 1%nat.
Proof.
  destruct (Seed.main Sample.world) as [r w'] eqn:E.
  assert (Hr : exists s, r = Ok s).
  { replace r with (fst (Seed.main Sample.world)) by (rewrite E; reflexivity).
    eexists. vm_compute. reflexivity. }
  destruct (seed_roles_by_index Sample.world r w' E) as [k [_ [Hroles Hok]]].
  destruct (Hok (or_introl Hr)) as [-> [Ha Hm]].
  destruct Hr as [s ->]. exists s, w'.
  repeat apply conj; try assumption. reflexivity.
Defined.

(** The clearing phase on a store that holds rows: the six statements, then
    insertions only. *)
Example clear_phase_on_a_store :
  firstn 6 (journal (fst (snd (Seed.main Sample.world))))
  = [DeleteMany MComment; DeleteMany MPostCategory; DeleteMany MPost;
     DeleteMany MCategory; DeleteMany MProfile; DeleteMany MUser] /\
  firstn 3 (skipn 6 (journal (fst (snd (Seed.main Sample.world)))))
  = [Insert MCategory; Insert MCategory; Insert MCategory].
Proof. split; vm_compute; reflexivity. Qed.

(** A negative limit is taken from the end of the list, and a limit with an
    exponent is read differently by the two coercions. *)
Example limits_read_otherwise :
  parseInt "20e-1" = JInt 20 /\ toNumber "20e-1" = JInt 2 /\
  totalPages_of (fst (get_users (mkUsersQuery None (Some "-2") None None None)
                        Sample.store)) = Some (JInt (-1)).
Proof. repeat split. Qed.

(** ** The further theorems at work on a store *)

(** The store after the request to create Dan. *)
Ltac with_dan k :=
  let v := eval vm_compute in (post_users Sample.dan Sample.store) in
  lazymatch v with
  | (Ok (Json _ ?c), ?d) =>
      assert (Edan : post_users Sample.dan Sample.store = (Ok (Json 201 c), d))
        by (vm_compute; reflexivity);
      k c d
  end.

Lemma refused_writes_change_nothing_witness :
  rows (users (snd (put_user "abc" Sample.dan Sample.store)))
  = rows (users Sample.store) /\
  rows (posts (snd (transfer_post "3" (Some "dan@example.com") Sample.store)))
  = rows (posts Sample.store).
Proof.
  destruct (refused_writes_change_nothing Sample.store) as [_ [Hput [_ Htransfer]]].
  split.
  - apply Hput. vm_compute. discriminate.
  - apply Htransfer. vm_compute. discriminate.
Defined.

Lemma created_user_is_returned_and_found_witness :
  exists created d' full,
    post_users Sample.dan Sample.store = (Ok (Json 201 created), d') /\
    name (uo_user created) = Some "Dan" /\
    get_user "4" d' = (Ok (Json 200 full), d') /\
    uf_user full = uo_user created.
Proof.
  with_dan ltac:(fun c d => exists c, d).
  destruct (created_user_is_returned_and_found _ _ _ _ Edan)
    as [_ [Hname [_ [_ [_ [_ Hget]]]]]].
  destruct (Hget "4" eq_refl) as [full [Eg [Hu _]]].
  exists full. repeat apply conj; assumption.
Defined.

Lemma get_user_found_or_404_witness :
  fst (get_user "7" Sample.store) = Ok (JsonError 404 "User not found") /\
  exists full,
    fst (get_user "1" Sample.store) = Ok (Json 200 full) /\
    uf_user full = Sample.ann.
Proof.
  split.
  - destruct (get_user_found_or_404 Sample.store "7") as [H _].
    apply (H 7 eq_refl); [lia|]. intros u Hin. each_user Hin.
  - destruct (get_user_found_or_404 Sample.store "1") as [_ [H _]].
    destruct (H 1 Sample.ann eq_refl eq_refl) as [full [E [Hu _]]].
    exists full. split; assumption.
Defined.

Lemma put_user_updates_witness :
  exists out d',
    put_user "2" (mkUserData None (Some "Robert") None None None) Sample.store
    = (Ok (Json 200 out), d') /\
    user_by_id d' 2 = Some (uo_user out) /\
    name (uo_user out) = Some "Robert" /\
    email (uo_user out) = "bob@example.com".
Proof.
  destruct (put_user_updates Sample.store "2" 2 Sample.bob
              (mkUserData None (Some "Robert") None None None) eq_refl eq_refl)
    as [out [d' [E [Hfound [_ [_ [_ [_ [Hemail [Hname _]]]]]]]]]].
  { intros e He. discriminate. }
  exists out, d'. repeat apply conj; assumption.
Defined.

Lemma put_user_taken_email_witness :
  status_of (fst (put_user "2"
                    (mkUserData (Some "ann@example.com") None None None None)
                    Sample.store)) = Some 500 /\
  status_of (fst (post_users
                    (mkUserData (Some "ann@example.com") None None None None)
                    Sample.store)) = Some 400.
Proof.
  destruct (put_user_taken_email Sample.store "2" 2 Sample.bob Sample.ann
              (mkUserData (Some "ann@example.com") None None None None)
              "ann@example.com" eq_refl eq_refl eq_refl)
    as [Hput [_ Hpost]].
  { discriminate. }
  { reflexivity. }
  split; assumption.
Defined.

Lemma put_user_upserts_profile_witness :
  exists out d' p,
    put_user "2"
      (mkUserData None None None None
         (Some (mkProfileData (Some "hello") None None None))) Sample.store
    = (Ok (Json 200 out), d') /\
    profile_of d' 2 = Some p /\ bio p = Some "hello" /\
    len (rows (profiles d')) = 2.
Proof.
  destruct (put_user_upserts_profile Sample.store "2" 2 Sample.bob
              (mkUserData None None None None
                 (Some (mkProfileData (Some "hello") None None None)))
              (mkProfileData (Some "hello") None None None)
              eq_refl eq_refl)
    as [out [d' [p [E [_ [Hp [_ [Hnew _]]]]]]]].
  { intros e He. discriminate. }
  { reflexivity. }
  destruct (Hnew eq_refl) as [Hbio [_ [_ [_ Hlen]]]].
  exists out, d', p. repeat apply conj; assumption.
Defined.

Lemma delete_user_removes_witness :
  exists d',
    delete_user "4" (snd (post_users Sample.dan Sample.store))
    = (Ok (Send 204), d') /\
    user_by_id d' 4 = None /\
    user_by_id d' 1 = Some Sample.ann.
Proof.
  with_dan ltac:(fun c d =>
    destruct (delete_user_removes d "4" 4 (uo_user c) eq_refl eq_refl eq_refl)
      as [d' [E [Hgone [Hothers _]]]]).
  exists d'. rewrite Edan. cbn [snd]. repeat apply conj; try assumption.
  rewrite Hothers by lia. reflexivity.
Defined.

Lemma transfer_refusals_witness :
  fst (transfer_post "3" (Some "dan@example.com") Sample.store)
  = Ok (JsonError 400 "New author not found") /\
  fst (transfer_post "9" (Some "cat@example.com") Sample.store)
  = Ok (JsonError 400 "Post not found").
Proof.
  split.
  - destruct (transfer_refusals Sample.store "3") as [_ [H _]].
    apply H. reflexivity.
  - destruct (transfer_refusals Sample.store "9") as [_ [_ [_ [H _]]]].
    apply (H "cat@example.com" Sample.cat 9 eq_refl eq_refl); [lia|].
    intros p Hin. each_user Hin.
Defined.

Lemma transfer_writes_one_post_witness :
  exists result d',
    transfer_post "3" (Some "cat@example.com") Sample.store
    = (Ok (Json 200 result), d') /\
    users d' = users Sample.store /\
    journal d' = [Update MPost] /\
    post_by_id d' 1 = Some Sample.post1.
Proof.
  destruct (transfer_writes_one_post Sample.store "3" "cat@example.com" 3
              Sample.post3 Sample.cat eq_refl eq_refl eq_refl)
    as [result [d' [E [Hu [Hothers [_ [Hj _]]]]]]].
  exists result, d'. repeat apply conj; try assumption.
  rewrite Hothers by lia. reflexivity.
Defined.

Lemma lists_are_ordered_and_bounded_witness :
  exists pg,
    fst (get_users (mkUsersQuery None (Some "2") None None None) Sample.store)
    = Ok (Json 200 pg) /\
    newest_first (fun uo => user_createdAt (uo_user uo)) (data pg) /\
    len (data pg) <= 2.
Proof.
  destruct (lists_are_ordered_and_bounded Sample.store) as [H _].
  let v := eval vm_compute in
             (fst (get_users (mkUsersQuery None (Some "2") None None None)
                     Sample.store)) in
  lazymatch v with
  | Ok (Json _ ?pg) =>
      assert (E : fst (get_users (mkUsersQuery None (Some "2") None None None)
                         Sample.store) = Ok (Json 200 pg))
        by (vm_compute; reflexivity);
      exists pg
  end.
  destruct (H _ _ _ E) as [Hsorted [l [Hl [Hlen _]]]].
  split; [exact E|]. split; [exact Hsorted|].
  cbn [limit pagination] in Hl. injection Hl as <-. exact Hlen.
Defined.

Lemma pages_cover_the_list_witness :
  exists pages,
    pages
    = map uo_user
        (List.concat
           (map (fun k =>
                   data_of (fst (get_users
                                   (mkUsersQuery
                                      (Some (match k with 1%nat => "1" | _ => "2" end))
                                      (Some "2") None None None) Sample.store)))
                [1%nat; 2%nat])) /\
    Permutation pages [Sample.ann; Sample.bob; Sample.cat] /\
    newest_first user_createdAt pages.
Proof.
  eexists. split; [reflexivity|].
  destruct (pages_cover_the_list Sample.store (Some "2") 2
              (fun k => match k with 1%nat => "1" | _ => "2" end)
              eq_refl eq_refl ltac:(lia)
              ltac:(vm_compute; discriminate) ltac:(vm_compute; discriminate))
    as [H _].
  - repeat constructor; cbn; intuition discriminate.
  - repeat constructor; cbn; intuition discriminate.
  - apply (H None None None _ eq_refl).
    intros k Hk. change (1 <= k <= 2)%nat in Hk.
    destruct k as [|[|[|k]]]; try lia; reflexivity.
Defined.

Lemma blank_parameters_witness :
  get_users (mkUsersQuery None None None (Some "") (Some "")) Sample.store
  = get_users (mkUsersQuery None None None None None) Sample.store /\
  status_of (fst (get_users (mkUsersQuery None (Some "") None None None)
                    Sample.store)) = Some 500.
Proof.
  destruct blank_parameters as [Hu [_ [Hlimit _]]].
  split.
  - rewrite <- (Hu Db memory (mkUsersQuery None None None (Some "") (Some ""))).
    reflexivity.
  - apply Hlimit. reflexivity.
Defined.

Lemma search_filters_hold_witness :
  exists pg,
    fst (search_posts
           (mkSearchQuery None None None None (Some "50") None None None None)
           Sample.store)
    = Ok (Json 200 pg) /\
    map (fun po => post_id (po_post po)) (data pg) = [5; 3] /\
    Forall (fun po => 50 <= views (po_post po)) (data pg).
Proof.
  eexists. split; [vm_compute; reflexivity|]. split; [reflexivity|].
  eapply Forall_impl;
    [|apply (search_filters_hold
               (mkSearchQuery None None None None (Some "50") None None None None)
               Sample.store 200); vm_compute; reflexivity].
  intros po [_ [_ [_ [_ [_ [Hviews _]]]]]].
  destruct (Hviews "50" eq_refl) as [v [Ev [_ Hv]]]; [discriminate|].
  assert (E50 : parseInt "50" = JInt 50) by (vm_compute; reflexivity).
  rewrite E50 in Ev. injection Ev as <-. exact Hv.
Defined.

Lemma users_filters_hold_witness :
  exists pg,
    fst (get_users (mkUsersQuery None None None (Some "ADMIN") None) Sample.store)
    = Ok (Json 200 pg) /\
    Forall (fun uo => role (uo_user uo) = ADMIN) (data pg) /\
    status_of (fst (get_users (mkUsersQuery None None None (Some "admin") None)
                      Sample.store)) = Some 500.
Proof.
  destruct (users_filters_hold (mkUsersQuery None None None (Some "ADMIN") None)
              Sample.store) as [H _].
  destruct (users_filters_hold (mkUsersQuery None None None (Some "admin") None)
              Sample.store) as [_ H500].
  eexists. split; [vm_compute; reflexivity|]. split.
  - eapply Forall_impl; [|apply (H 200); vm_compute; reflexivity].
    intros uo [_ [Hrole _]].
    assert (Hr := Hrole "ADMIN" eq_refl ltac:(discriminate)).
    injection Hr as <-. reflexivity.
  - apply (H500 "admin" eq_refl); [discriminate|reflexivity].
Defined.

Lemma analytics_by_category_witness :
  exists a,
    get_analytics Sample.store = (Ok (Json 200 a), Sample.store) /\
    map category (categoryAnalytics a) = ["Technology"] /\
    map totalViews (categoryAnalytics a) = [250].
Proof.
  destruct (@analytics_by_category Db memory_relations Sample.store Sample.store
              (map (category_stats Sample.store) (rows (categories Sample.store)))
              eq_refl) as [_ [H _]].
  destruct (H ltac:(intros Hn; apply (proj2 (map_analytics_none _)) in Hn;
                    vm_compute in Hn; discriminate)
              _ Sample.store eq_refl) as [a [E [Hall _]]].
  exists a. split; [exact E|].
  inversion Hall as [|c x cs xs Hx Hrest]; subst. inversion Hrest; subst.
  destruct Hx as [Hname [_ [_ [_ Hviews]]]].
  cbn [map]. rewrite Hname, Hviews. split; reflexivity.
Defined.

Lemma analytics_on_the_store_witness :
  exists a,
    get_analytics Sample.store = (Ok (Json 200 a), Sample.store) /\
    map ac_id (topAuthors a) = [2; 1; 3].
Proof.
  destruct (analytics_on_the_store Sample.store) as [H _].
  destruct H as [a [E _]].
  { intros pc [<-|[]]. discriminate. }
  exists a. split; [exact E|].
  assert (Ea : fst (get_analytics Sample.store) = Ok (Json 200 a))
    by (rewrite E; reflexivity).
  vm_compute in Ea. injection Ea as <-. reflexivity.
Defined.

Lemma seed_leaves_four_categories_witness :
  Permutation
    (map category_name (rows (categories (fst (snd (Seed.main Sample.world))))))
    ["Technology"; "Programming"; "Design"; "Business"].
Proof.
  destruct (Seed.main Sample.world) as [r w'] eqn:E.
  destruct (seed_leaves_four_categories Sample.world r w' E) as [H _].
  cbn [snd]. apply (Permutation_map fst) in H. rewrite map_map in H. exact H.
Defined.

(** The order of the four categories in the table is the order in which
    their creation was served: the array is returned in its order, the rows
    are not. *)
Example categories_served_last_first :
  map category_name
    (rows (categories (fst (snd (Seed.main Sample.world_last_first)))))
  = ["Business"; "Design"; "Programming"; "Technology"] /\
  map category_name
    (rows (categories (fst (snd (Seed.main Sample.fresh_world)))))
  = ["Technology"; "Programming"; "Design"; "Business"].
Proof. split; vm_compute; reflexivity. Qed.

Lemma seed_completes_witness :
  exists s w',
    Seed.main Sample.fresh_world = (Ok s, w') /\
    10 <= Seed.stat_posts s <= 50 /\ references_hold (fst w').
Proof.
  destruct (seed_completes Sample.fresh_world sample_emails_differ)
    as [s [w' [E H]]].
  exists s, w'. split; [exact E|]. tauto.
Defined.

Lemma seeded_store_is_served_witness :
  exists pg,
    fst (get_users (mkUsersQuery None None None None None)
           (fst (snd (Seed.main Sample.fresh_world))))
    = Ok (Json 200 pg) /\
    len (data pg) = 10.
Proof.
  destruct (Seed.main Sample.fresh_world) as [r w'] eqn:E.
  assert (Hr : exists s, r = Ok s).
  { replace r with (fst (Seed.main Sample.fresh_world)) by (rewrite E; reflexivity).
    eexists. vm_compute. reflexivity. }
  destruct Hr as [s ->].
  destruct (seeded_store_is_served Sample.fresh_world s w' E)
    as [[pg [Eg [_ [_ [Hlen _]]]]] _].
  exists pg. cbn [snd]. split; assumption.
Defined.
